(** * OpenFPGA (vpr7_x2p): circuit-library checker and pre-configured top module

    A shallow embedding of

    - [libarchfpga/SRC/check_circuit_library.cpp]: the rule checker that is
      run over a [CircuitLibrary] before any netlist is generated, and
    - [vpr/SRC/fpga_x2p/verilog/verilog_preconfig_top_module.cpp]: the writer
      of the Verilog wrapper that ties a configured fabric to a benchmark.

    Both files are imperative: they print diagnostics or Verilog statements,
    they may call [exit], and they may trip a [VTR_ASSERT].  The embedding
    keeps these effects in a small writer/error monad whose trace is the
    ordered list of things printed. *)

From stdpp Require Import prelude strings list_numbers pretty gmap.
From Stdlib Require Import ZArith Lia.

Local Open Scope Z_scope.

(** ** Effects: trace of output, [exit] and assertion failures *)

Inductive outcome (A : Type) : Type :=
| Returned (a : A)     (* the function returned [a] to its caller          *)
| Exited (code : Z)    (* the process called [exit(code)]                  *)
| Faulted.             (* a [VTR_ASSERT] failed, an invalid id was used, or
                          the process died on an invalid memory access     *)

Arguments Returned {A} a.
Arguments Exited {A} code.
Arguments Faulted {A}.

(** A computation printing events of type [E] and producing an [A]. *)
Definition M (E A : Type) : Type := (outcome A * list E)%type.

Definition ret {E A} (a : A) : M E A := (Returned a, []).

Definition bind {E A B} (m : M E A) (f : A → M E B) : M E B :=
  match m with
  | (Returned a, l1) => let '(r, l2) := f a in (r, l1 ++ l2)
  | (Exited c, l1) => (Exited c, l1)
  | (Faulted, l1) => (Faulted, l1)
  end.

Notation "'let*' x ':=' c1 'in' c2" := (bind c1 (λ x, c2))
  (at level 10, x name, c1 at level 100, c2 at level 200).
Notation "c1 ';;' c2" := (bind c1 (λ _, c2))
  (at level 100, c2 at level 200, right associativity).

Definition emit {E} (e : E) : M E unit := (Returned (), [e]).
Definition exit {E A} (code : Z) : M E A := (Exited code, []).
Definition fault {E A} : M E A := (Faulted, []).

(** [VTR_ASSERT(b)] *)
Definition VTR_ASSERT {E} (b : bool) : M E unit :=
  if b then ret () else fault.

(** An accessor applied to an id: invalid ids are an assertion failure. *)
Definition lift {E A} (o : option A) : M E A :=
  match o with Some a => ret a | None => fault end.

(** Range-based [for (const auto& x : xs)] with the mutable locals of the
    enclosing function threaded as [s]; [continue] is an early [ret s]. *)
Fixpoint for_each {E X S} (body : X → S → M E S) (xs : list X) (s : S) : M E S :=
  match xs with
  | [] => ret s
  | x :: xs' => let* s' := body x s in for_each body xs' s'
  end.

(** [for (size_t i = lo; i < hi; ++i)].  The increment cannot wrap: it is
    only executed when [i < hi], and [hi] is itself a [size_t]. *)
Definition for_range {E S} (lo hi : Z) (body : Z → S → M E S) (s : S) : M E S :=
  for_each body (seqZ lo (hi - lo)) s.

(** [size_t] is 64 bits wide; arithmetic on it wraps around. *)
Definition SIZE_MOD : Z := 2 ^ 64.
Definition wrap64 (z : Z) : Z := z `mod` SIZE_MOD.

(** * Part I: [check_circuit_library.cpp] *)

(** ** The circuit library

    [CircuitLibrary] itself (circuit_library.h) is not part of the two files
    embedded here; only the queries that the checker makes are visible.  The
    data below follows the data model of the specification. *)

Inductive e_spice_model_type : Type :=
| SPICE_MODEL_CHAN_WIRE | SPICE_MODEL_WIRE | SPICE_MODEL_MUX | SPICE_MODEL_LUT
| SPICE_MODEL_FF | SPICE_MODEL_SRAM | SPICE_MODEL_HARDLOGIC | SPICE_MODEL_SCFF
| SPICE_MODEL_IOPAD | SPICE_MODEL_INVBUF | SPICE_MODEL_PASSGATE | SPICE_MODEL_GATE.

Inductive e_spice_model_port_type : Type :=
| SPICE_MODEL_PORT_INPUT | SPICE_MODEL_PORT_OUTPUT | SPICE_MODEL_PORT_INOUT
| SPICE_MODEL_PORT_CLOCK | SPICE_MODEL_PORT_SRAM | SPICE_MODEL_PORT_BL
| SPICE_MODEL_PORT_BLB | SPICE_MODEL_PORT_WL | SPICE_MODEL_PORT_WLB.

#[global] Instance e_spice_model_type_eq_dec : EqDecision e_spice_model_type.
Proof. solve_decision. Defined.

#[global] Instance e_spice_model_port_type_eq_dec : EqDecision e_spice_model_port_type.
Proof. solve_decision. Defined.

(** Modelled from the spec: the [CircuitPort] of the data model: port-type
    tag, width, boolean attributes, default value and library-scope name. *)
Record CircuitPort : Type := {
  cp_type : e_spice_model_port_type;
  cp_size : Z;
  cp_lib_name : string;
  cp_is_global : bool;
  cp_is_set : bool;
  cp_is_reset : bool;
  cp_is_config_enable : bool;
  cp_is_prog : bool;
  cp_default_value : Z
}.

(** Modelled from the spec: the [CircuitModel] of the data model: name,
    prefix, type tag, the ordered ports it owns, and the default flag. *)
Record CircuitModel : Type := {
  cm_name : string;
  cm_prefix : string;
  cm_type : e_spice_model_type;
  cm_is_default : bool;
  cm_ports : list CircuitPort
}.

(** Modelled from the spec: the [CircuitModelCatalog], an immutable registry
    of circuit models in insertion order. *)
Record CircuitLibrary : Type := { models : list CircuitModel }.

(** [CircuitModelId] wraps a [size_t]; the checker builds ids with
    [CircuitModelId(i)].  A port is identified by its owning model and its
    position among that model's ports. *)
Abbreviation CircuitModelId := Z (only parsing).
Abbreviation CircuitPortId := (Z * Z)%type (only parsing).

(** [l[i]] for a [size_t] index. *)
Definition at_index {A} (l : list A) (i : Z) : option A :=
  if bool_decide (0 ≤ i) then l !! Z.to_nat i else None.

(** The ids [0 .. size-1] paired with the elements they name. *)
Definition enumerate {A} (l : list A) : list (Z * A) :=
  zip (seqZ 0 (Z.of_nat (length l))) l.

Definition find_model (lib : CircuitLibrary) (id : CircuitModelId) : option CircuitModel :=
  at_index (models lib) id.

Definition find_port (lib : CircuitLibrary) (id : CircuitPortId) : option CircuitPort :=
  m ← find_model lib id.1; at_index (cm_ports m) id.2.

(** Modelled from the spec: the catalog query surface (model and port lookup
    by id, by type and by attribute) of [CircuitLibrary], which is declared
    in circuit_library.h.  Accessors applied to an id that names nothing
    trip the library's own assertion. *)
Definition num_models (lib : CircuitLibrary) : Z := Z.of_nat (length (models lib)).

Definition model_name {E} (lib : CircuitLibrary) (id : CircuitModelId) : M E string :=
  lift (cm_name <$> find_model lib id).
Definition model_prefix {E} (lib : CircuitLibrary) (id : CircuitModelId) : M E string :=
  lift (cm_prefix <$> find_model lib id).
Definition model_type {E} (lib : CircuitLibrary) (id : CircuitModelId) : M E e_spice_model_type :=
  lift (cm_type <$> find_model lib id).

Definition port_type {E} (lib : CircuitLibrary) (id : CircuitPortId) : M E e_spice_model_port_type :=
  lift (cp_type <$> find_port lib id).
Definition port_size {E} (lib : CircuitLibrary) (id : CircuitPortId) : M E Z :=
  lift (cp_size <$> find_port lib id).
Definition port_lib_name {E} (lib : CircuitLibrary) (id : CircuitPortId) : M E string :=
  lift (cp_lib_name <$> find_port lib id).
Definition port_is_global {E} (lib : CircuitLibrary) (id : CircuitPortId) : M E bool :=
  lift (cp_is_global <$> find_port lib id).
Definition port_is_set {E} (lib : CircuitLibrary) (id : CircuitPortId) : M E bool :=
  lift (cp_is_set <$> find_port lib id).
Definition port_is_reset {E} (lib : CircuitLibrary) (id : CircuitPortId) : M E bool :=
  lift (cp_is_reset <$> find_port lib id).
Definition port_is_config_enable {E} (lib : CircuitLibrary) (id : CircuitPortId) : M E bool :=
  lift (cp_is_config_enable <$> find_port lib id).
Definition port_is_prog {E} (lib : CircuitLibrary) (id : CircuitPortId) : M E bool :=
  lift (cp_is_prog <$> find_port lib id).
Definition port_default_value {E} (lib : CircuitLibrary) (id : CircuitPortId) : M E Z :=
  lift (cp_default_value <$> find_port lib id).

(** [circuit_lib.model_name(port)]: the name of the model owning the port. *)
Definition port_model_name {E} (lib : CircuitLibrary) (id : CircuitPortId) : M E string :=
  model_name lib id.1.

(** Modelled from the spec: [is_input_port], after the invariant "every port
    with is_global = true has port-type INPUT". *)
Definition is_input_port {E} (lib : CircuitLibrary) (id : CircuitPortId) : M E bool :=
  let* t := port_type lib id in
  ret (bool_decide (t = SPICE_MODEL_PORT_INPUT)).

(** [circuit_lib.models_by_type(t)]: ids of the models of type [t], in order. *)
Definition models_by_type (lib : CircuitLibrary) (t : e_spice_model_type) : list CircuitModelId :=
  (enumerate (models lib)) ≫= (λ im, if bool_decide (cm_type im.2 = t) then [im.1] else []).

(** [circuit_lib.ports()]: every port of every model. *)
Definition ports (lib : CircuitLibrary) : list CircuitPortId :=
  (enumerate (models lib)) ≫= (λ im, (λ ip, (im.1, ip.1)) <$> enumerate (cm_ports im.2)).

(** [circuit_lib.model_ports_by_type(model, type, ignore_global_port)]: the
    ports of [model] with the given type, skipping global ports on demand. *)
Definition model_ports_by_type (lib : CircuitLibrary) (model : CircuitModelId)
    (t : e_spice_model_port_type) (ignore_global_port : bool) : list CircuitPortId :=
  match find_model lib model with
  | None => []
  | Some m =>
      (enumerate (cm_ports m)) ≫= (λ ip,
        if bool_decide (cp_type ip.2 = t) && negb (ignore_global_port && cp_is_global ip.2)
        then [(model, ip.1)] else [])
  end.

(** [circuit_lib.default_model(type)]: the model flagged as the default of
    its type, [CircuitModelId::INVALID()] (here [None]) when there is none. *)
Definition default_model (lib : CircuitLibrary) (t : e_spice_model_type) : option CircuitModelId :=
  head ((enumerate (models lib)) ≫= (λ im,
    if bool_decide (cm_type im.2 = t) && cm_is_default im.2 then [im.1] else [])).

(** ** Diagnostics

    One constructor per [vpr_printf] call of the checker, carrying the
    arguments passed to it. *)
Inductive message : Type :=
| INFO_checking_circuit_models
| ERROR_same_name (i j : Z) (name : string)
| ERROR_same_prefix (i_name j_name prefix : string)
| ERROR_model_required (t : e_spice_model_type)
| ERROR_no_port (mt : e_spice_model_type) (name : string) (pt : e_spice_model_port_type)
| ERROR_port_size (name : string) (pt : e_spice_model_port_type) (size : Z)
| ERROR_port_count (expected : Z) (pt : e_spice_model_port_type)
    (mt : e_spice_model_type) (found : Z)
| ERROR_global_not_input (pt : e_spice_model_port_type) (name : string)
| ERROR_not_global (pt : e_spice_model_port_type) (name : string)
| ERROR_sram_or_scff_required
| ERROR_no_default_model (t : e_spice_model_type)
| INFO_finished_checking (num_err : Z).

#[global] Instance message_eq_dec : EqDecision message.
Proof. solve_decision. Defined.

(** [num_err++] and [num_err += ...] on a [size_t]. *)
Definition incr (num_err : Z) : Z := wrap64 (num_err + 1).
Definition add_errors {E} (num_err : Z) (m : M E Z) : M E Z :=
  let* r := m in ret (wrap64 (num_err + r)).

(** [vector::size()] as a [size_t]. *)
Definition size {A} (l : list A) : Z := Z.of_nat (length l).

(** ** The checks *)

Definition check_circuit_library_unique_names (lib : CircuitLibrary) : M message Z :=
  for_range 0 (num_models lib) (λ i num_err,
    (* Skip for the last element, because the inner loop will access it *)
    if bool_decide (i = wrap64 (num_models lib - 1)) then ret num_err else
    let* i_name := model_name lib i in
    for_range (i + 1) (num_models lib) (λ j num_err,
      let* j_name := model_name lib j in
      if bool_decide (i_name ≠ j_name) then ret num_err else
      (emit (ERROR_same_name i j i_name);;
       ret (incr num_err))) num_err) 0.

Definition check_circuit_library_unique_prefix (lib : CircuitLibrary) : M message Z :=
  for_range 0 (num_models lib) (λ i num_err,
    if bool_decide (i = wrap64 (num_models lib - 1)) then ret num_err else
    let* i_prefix := model_prefix lib i in
    for_range (i + 1) (num_models lib) (λ j num_err,
      let* j_prefix := model_prefix lib j in
      if bool_decide (i_prefix ≠ j_prefix) then ret num_err else
      (let* i_name := model_name lib i in
       let* j_name := model_name lib j in
       emit (ERROR_same_prefix i_name j_name i_prefix);;
       ret (incr num_err))) num_err) 0.

Definition check_circuit_model_required (lib : CircuitLibrary)
    (circuit_model_type_to_check : e_spice_model_type) : M message Z :=
  let num_err := 0 in
  if bool_decide (0 = size (models_by_type lib circuit_model_type_to_check)) then
    (emit (ERROR_model_required circuit_model_type_to_check);;
     ret (incr num_err))
  else ret num_err.

Definition check_one_circuit_model_port_required (lib : CircuitLibrary)
    (circuit_model : CircuitModelId)
    (port_types_to_check : list e_spice_model_port_type) : M message Z :=
  for_each (λ port_type num_err,
    if bool_decide (0 = size (model_ports_by_type lib circuit_model port_type false)) then
      (let* mt := model_type lib circuit_model in
       let* name := model_name lib circuit_model in
       emit (ERROR_no_port mt name port_type);;
       ret (incr num_err))
    else ret num_err) port_types_to_check 0.

Definition check_one_circuit_model_port_size_required (lib : CircuitLibrary)
    (circuit_model : CircuitModelId) (circuit_port : CircuitPortId)
    (port_size_to_check : Z) : M message Z :=
  let num_err := 0 in
  let* sz := port_size lib circuit_port in
  if bool_decide (port_size_to_check ≠ sz) then
    (let* name := model_name lib circuit_model in
     let* pt := port_type lib circuit_port in
     emit (ERROR_port_size name pt port_size_to_check);;
     ret (incr num_err))
  else ret num_err.

Definition check_one_circuit_model_port_type_and_size_required (lib : CircuitLibrary)
    (circuit_model : CircuitModelId) (port_type_to_check : e_spice_model_port_type)
    (num_ports_to_check port_size_to_check : Z) (include_global_ports : bool)
    : M message Z :=
  let num_err := 0 in
  let ports := model_ports_by_type lib circuit_model port_type_to_check
                 (bool_decide (false = include_global_ports)) in
  let* num_err :=
    if bool_decide (num_ports_to_check ≠ size ports) then
      (let* mt := model_type lib circuit_model in
       (* The format "Expect %d %s ports for a %s circuit model, but only have
          %d %s ports!" is given (size_t, char*, char*, char*, size_t): its
          last conversion, %s, receives [ports.size()].  With no port found
          that is a null pointer, which the C library prints as "(null)";
          with a port found, the library reads a string at the address
          [ports.size()] and the process dies before the line is written. *)
       if bool_decide (0 = size ports) then
         (emit (ERROR_port_count num_ports_to_check port_type_to_check mt (size ports));;
          ret (incr num_err))
       else fault)
    else ret num_err in
  for_each (λ port num_err,
    add_errors num_err
      (check_one_circuit_model_port_size_required lib circuit_model port port_size_to_check))
    ports num_err.

Definition check_circuit_model_port_required (lib : CircuitLibrary)
    (circuit_model_type_to_check : e_spice_model_type)
    (port_types_to_check : list e_spice_model_port_type) : M message Z :=
  for_each (λ id num_err,
    add_errors num_err (check_one_circuit_model_port_required lib id port_types_to_check))
    (models_by_type lib circuit_model_type_to_check) 0.

Definition check_required_default_circuit_model (lib : CircuitLibrary)
    (circuit_model_type : e_spice_model_type) : M message Z :=
  let num_err := 0 in
  match default_model lib circuit_model_type with
  | None =>
      emit (ERROR_no_default_model circuit_model_type);;
      exit 1
  | Some _ => ret num_err
  end.

Definition check_model_type {E} (lib : CircuitLibrary) (circuit_model : CircuitModelId)
    (expected : e_spice_model_type) : M E unit :=
  let* mt := model_type lib circuit_model in
  VTR_ASSERT (bool_decide (expected = mt)).

Definition check_ff_circuit_model_ports (lib : CircuitLibrary)
    (circuit_model : CircuitModelId) : M message Z :=
  let num_err := 0 in
  check_model_type lib circuit_model SPICE_MODEL_FF;;
  let* num_err := add_errors num_err
    (check_one_circuit_model_port_type_and_size_required lib circuit_model
       SPICE_MODEL_PORT_INPUT 3 1 false) in
  let* num_err := add_errors num_err
    (check_one_circuit_model_port_type_and_size_required lib circuit_model
       SPICE_MODEL_PORT_CLOCK 1 1 false) in
  let* num_err := add_errors num_err
    (check_one_circuit_model_port_type_and_size_required lib circuit_model
       SPICE_MODEL_PORT_OUTPUT 1 1 false) in
  ret num_err.

Definition check_scff_circuit_model_ports (lib : CircuitLibrary)
    (circuit_model : CircuitModelId) : M message Z :=
  let num_err := 0 in
  check_model_type lib circuit_model SPICE_MODEL_SCFF;;
  let* num_err := add_errors num_err
    (check_one_circuit_model_port_type_and_size_required lib circuit_model
       SPICE_MODEL_PORT_INPUT 1 1 false) in
  let* num_err := add_errors num_err
    (check_one_circuit_model_port_type_and_size_required lib circuit_model
       SPICE_MODEL_PORT_CLOCK 1 1 true) in
  let* num_err := add_errors num_err
    (check_one_circuit_model_port_type_and_size_required lib circuit_model
       SPICE_MODEL_PORT_OUTPUT 2 1 false) in
  ret num_err.

Definition check_sram_circuit_model_ports (lib : CircuitLibrary)
    (circuit_model : CircuitModelId) (check_blwl : bool) : M message Z :=
  let num_err := 0 in
  check_model_type lib circuit_model SPICE_MODEL_SRAM;;
  (* Check if we has 1 output with size 2 *)
  let* num_err := add_errors num_err
    (check_one_circuit_model_port_type_and_size_required lib circuit_model
       SPICE_MODEL_PORT_OUTPUT 1 2 false) in
  (* basic check finished here *)
  if bool_decide (false = check_blwl) then ret num_err else
  let* num_err := add_errors num_err
    (check_one_circuit_model_port_type_and_size_required lib circuit_model
       SPICE_MODEL_PORT_BL 1 1 false) in
  let* num_err := add_errors num_err
    (check_one_circuit_model_port_type_and_size_required lib circuit_model
       SPICE_MODEL_PORT_WL 1 1 false) in
  ret num_err.

Definition check_circuit_library_ports (lib : CircuitLibrary) : M message Z :=
  let num_err := 0 in
  (* Check global ports: make sure all the global ports are input ports *)
  let* num_err :=
    for_each (λ port num_err,
      let* is_global := port_is_global lib port in
      let* is_input := is_input_port lib port in
      if is_global && negb is_input then
        (let* pt := port_type lib port in
         let* name := port_model_name lib port in
         emit (ERROR_global_not_input pt name);;
         ret (incr num_err))
      else ret num_err) (ports lib) num_err in
  (* Check set/reset/config_enable ports: make sure they are all global ports *)
  for_each (λ port num_err,
    let* is_set := port_is_set lib port in
    let* is_reset := port_is_reset lib port in
    let* is_config_enable := port_is_config_enable lib port in
    let* is_global := port_is_global lib port in
    if (is_set || is_reset || is_config_enable) && negb is_global then
      (let* pt := port_type lib port in
       let* name := port_model_name lib port in
       emit (ERROR_not_global pt name);;
       ret (incr num_err))
    else ret num_err) (ports lib) num_err.

Definition iopad_port_types_required : list e_spice_model_port_type :=
  [SPICE_MODEL_PORT_INPUT; SPICE_MODEL_PORT_OUTPUT; SPICE_MODEL_PORT_INOUT; SPICE_MODEL_PORT_SRAM].
Definition mux_port_types_required : list e_spice_model_port_type :=
  [SPICE_MODEL_PORT_INPUT; SPICE_MODEL_PORT_OUTPUT; SPICE_MODEL_PORT_SRAM].
Definition sram_port_types_required : list e_spice_model_port_type :=
  [SPICE_MODEL_PORT_INPUT; SPICE_MODEL_PORT_OUTPUT].
Definition scff_port_types_required : list e_spice_model_port_type :=
  [SPICE_MODEL_PORT_CLOCK; SPICE_MODEL_PORT_INPUT; SPICE_MODEL_PORT_OUTPUT].
Definition ff_port_types_required : list e_spice_model_port_type :=
  [SPICE_MODEL_PORT_CLOCK; SPICE_MODEL_PORT_INPUT; SPICE_MODEL_PORT_OUTPUT].
Definition lut_port_types_required : list e_spice_model_port_type :=
  [SPICE_MODEL_PORT_SRAM; SPICE_MODEL_PORT_INPUT; SPICE_MODEL_PORT_OUTPUT].

Definition check_circuit_library (lib : CircuitLibrary) : M message unit :=
  let num_err := 0 in
  emit INFO_checking_circuit_models;;
  (* 1. Circuit models have unique names *)
  let* num_err := add_errors num_err (check_circuit_library_unique_names lib) in
  (* 2. Circuit models have unique prefix *)
  let* num_err := add_errors num_err (check_circuit_library_unique_prefix lib) in
  (* Check global ports *)
  let* num_err := add_errors num_err (check_circuit_library_ports lib) in
  (* 3. Check io has been defined and has input and output ports *)
  let* num_err := add_errors num_err (check_circuit_model_required lib SPICE_MODEL_IOPAD) in
  let* num_err := add_errors num_err
    (check_circuit_model_port_required lib SPICE_MODEL_IOPAD iopad_port_types_required) in
  (* 4. Check mux has been defined and has input and output ports *)
  let* num_err := add_errors num_err (check_circuit_model_required lib SPICE_MODEL_MUX) in
  let* num_err := add_errors num_err
    (check_circuit_model_port_required lib SPICE_MODEL_MUX mux_port_types_required) in
  (* 5. We must have at least one SRAM or SCFF *)
  let* num_err :=
    if bool_decide (0 = size (models_by_type lib SPICE_MODEL_SRAM))
       && bool_decide (0 = size (models_by_type lib SPICE_MODEL_SCFF)) then
      (emit ERROR_sram_or_scff_required;; ret (incr num_err))
    else ret num_err in
  (* 6. SRAM must have at least an input and an output ports *)
  let* num_err := add_errors num_err
    (check_circuit_model_port_required lib SPICE_MODEL_SRAM sram_port_types_required) in
  (* 7. SCFF must have at least a clock, an input and an output ports *)
  let* num_err := add_errors num_err
    (check_circuit_model_port_required lib SPICE_MODEL_SCFF scff_port_types_required) in
  (* 8. FF must have at least a clock, an input and an output ports *)
  let* num_err := add_errors num_err
    (check_circuit_model_port_required lib SPICE_MODEL_FF ff_port_types_required) in
  (* 9. LUT must have at least an input, an output and a SRAM ports *)
  let* num_err := add_errors num_err
    (check_circuit_model_port_required lib SPICE_MODEL_LUT lut_port_types_required) in
  (* 10. We must have default circuit models for these types:
     MUX, channel wires and wires *)
  let* num_err := add_errors num_err
    (check_required_default_circuit_model lib SPICE_MODEL_MUX) in
  let* num_err := add_errors num_err
    (check_required_default_circuit_model lib SPICE_MODEL_CHAN_WIRE) in
  let* num_err := add_errors num_err
    (check_required_default_circuit_model lib SPICE_MODEL_WIRE) in
  (* If we have any errors, exit *)
  emit (INFO_finished_checking num_err);;
  if bool_decide (0 < num_err) then exit 1 else ret ().

(** * Part II: [verilog_preconfig_top_module.cpp] *)

(** ** Ports, modules, bitstream

    [BasicPort] (device_port.h), [ModuleManager] and [BitstreamManager] are
    declared outside the two embedded files. *)

(** Modelled from the spec: the [ModulePort] of the data model (name, bit
    width, pin range), i.e. the [BasicPort] class of device_port.h: a name
    and the pin range [lsb..msb]; a range with [msb < lsb] is invalid and
    has width 0. *)
Record BasicPort : Type := { bp_name : string; bp_lsb : Z; bp_msb : Z }.

#[global] Instance BasicPort_eq_dec : EqDecision BasicPort.
Proof. solve_decision. Defined.

Definition get_name (p : BasicPort) : string := bp_name p.
Definition is_valid (p : BasicPort) : bool := bool_decide (bp_lsb p ≤ bp_msb p).
Definition get_width (p : BasicPort) : Z :=
  if is_valid p then bp_msb p - bp_lsb p + 1 else 0.
Definition pins (p : BasicPort) : list Z := seqZ (bp_lsb p) (get_width p).
(** [port.set_width(lsb, msb)] *)
Definition set_width (p : BasicPort) (lsb msb : Z) : BasicPort :=
  if bool_decide (msb < lsb) then {| bp_name := bp_name p; bp_lsb := 1; bp_msb := 0 |}
  else {| bp_name := bp_name p; bp_lsb := lsb; bp_msb := msb |}.
(** [BasicPort(name, lsb, msb)] *)
Definition BasicPort_range (name : string) (lsb msb : Z) : BasicPort :=
  set_width {| bp_name := name; bp_lsb := 1; bp_msb := 0 |} lsb msb.
(** [BasicPort(name, width)] *)
Definition BasicPort_width (name : string) (width : Z) : BasicPort :=
  if bool_decide (width = 0) then {| bp_name := name; bp_lsb := 1; bp_msb := 0 |}
  else {| bp_name := name; bp_lsb := 0; bp_msb := width - 1 |}.

Inductive e_module_port_type : Type :=
| MODULE_GLOBAL_PORT | MODULE_GPIO_PORT | MODULE_INOUT_PORT
| MODULE_INPUT_PORT | MODULE_OUTPUT_PORT | MODULE_CLOCK_PORT.

#[global] Instance e_module_port_type_eq_dec : EqDecision e_module_port_type.
Proof. solve_decision. Defined.

(** Modelled from the spec: a [ModuleHierarchyNode] as far as this writer
    looks at it: its name and its ordered ports, each in exactly one role. *)
Record Module : Type := {
  md_name : string;
  md_ports : list (e_module_port_type * BasicPort)
}.

Record ModuleManager : Type := { modules : list Module }.
Abbreviation ModuleId := nat (only parsing).

(** Modelled from the spec: the hierarchy query surface (module and port
    lookup by id and role) of [ModuleManager]. *)
Definition module_name {E} (mm : ModuleManager) (id : ModuleId) : M E string :=
  lift (md_name <$> modules mm !! id).
Definition module_ports_by_type {E} (mm : ModuleManager) (id : ModuleId)
    (t : e_module_port_type) : M E (list BasicPort) :=
  let* m := lift (modules mm !! id) in
  ret ((md_ports m) ≫= (λ tp, if bool_decide (tp.1 = t) then [tp.2] else [])).

(** Modelled from the spec: [ConfigBit] and its owning blocks.  Blocks live
    in an arena indexed by id; each stores its parent, absent for the root.
    [ConfigBlockId::INVALID()] is [None]. *)
Record ConfigBlock : Type := { cb_name : string; cb_parent : option nat }.
Record ConfigBit : Type := { cbit_parent : option nat; cbit_index : Z; cbit_value : bool }.
Record BitstreamManager : Type := { blocks : list ConfigBlock; bits : list ConfigBit }.
Abbreviation ConfigBlockId := (option nat) (only parsing).
Abbreviation ConfigBitId := nat (only parsing).

Definition find_block (bm : BitstreamManager) (id : ConfigBlockId) : option ConfigBlock :=
  b ← id; blocks bm !! b.

Definition block_name {E} (bm : BitstreamManager) (id : nat) : M E string :=
  lift (cb_name <$> blocks bm !! id).
Definition bit_parent_block {E} (bm : BitstreamManager) (id : ConfigBitId) : M E ConfigBlockId :=
  lift (cbit_parent <$> bits bm !! id).
Definition bit_index_in_parent_block {E} (bm : BitstreamManager) (id : ConfigBitId) : M E Z :=
  lift (cbit_index <$> bits bm !! id).
Definition bit_value {E} (bm : BitstreamManager) (id : ConfigBitId) : M E bool :=
  lift (cbit_value <$> bits bm !! id).

(** Modelled from the spec: [find_bitstream_manager_block_hierarchy]
    (bitstream_manager_utils.h), which walks owning-block, parent, ..., root
    and returns the chain ordered from the root to the given block.  The walk
    is a loop over parent links; [fuel] bounds its iterations and [None]
    stands for a walk that has not reached the root within the bound. *)
Fixpoint walk_to_root (fuel : nat) (bm : BitstreamManager) (temp_block : ConfigBlockId)
    : option (list nat) :=
  match fuel with
  | O => None
  | S fuel' =>
      match temp_block with
      | None => Some []
      | Some b =>
          match blocks bm !! b with
          | None => Some []
          | Some blk => (b ::.) <$> walk_to_root fuel' bm (cb_parent blk)
          end
      end
  end.

(** A walk that visits more blocks than exist has entered a cycle; one more
    step than there are blocks is therefore all a terminating walk needs
    (see [walk_to_root_enough]). *)
Definition find_bitstream_manager_block_hierarchy {E} (bm : BitstreamManager)
    (block : ConfigBlockId) : M E (list nat) :=
  lift (reverse <$> walk_to_root (S (length (blocks bm))) bm block).

Inductive logical_block_types : Type :=
| VPACK_INPAD | VPACK_OUTPAD | VPACK_COMB | VPACK_LATCH | VPACK_EMPTY.

#[global] Instance logical_block_types_eq_dec : EqDecision logical_block_types.
Proof. solve_decision. Defined.

Record t_logical_block : Type := { lb_name : string; lb_type : logical_block_types }.

(** ** Output

    One constructor per primitive of verilog_writer_utils.h that the writer
    calls on the file stream, carrying the arguments of the call. *)
Inductive verilog : Type :=
| print_verilog_comment (comment : string)
| print_verilog_wire_connection (output_port input_port : BasicPort) (inverted : bool)
| print_verilog_wire_constant_values (output_port : BasicPort) (const_values : list Z)
| endl.

#[global] Instance verilog_eq_dec : EqDecision verilog.
Proof. solve_decision. Defined.

(** [std::vector<size_t>(n, v)] *)
Definition vector_of (n v : Z) : list Z := replicate (Z.to_nat n) v.

Section writer.
(** Constants of verilog_global.h and fpga_x2p_naming.h, and the placement
    lookup of fpga_x2p_benchmark_utils.h with the device geometry, grid and
    blocks already supplied. *)
Context (formal_verification_top_module_port_postfix : string).
Context (formal_verification_top_module_uut_name : string).
Context (generate_configuration_chain_data_out_name : string).
Context (verilog_default_signal_init_value : Z).
Context (find_benchmark_io_index : t_logical_block → Z).

(** The search loop of [print_verilog_preconfig_top_module_connect_global_ports]:
    the first circuit port carrying the name of the module port. *)
Fixpoint find_linked_circuit_port (lib : CircuitLibrary) (name : string)
    (global_ports : list CircuitPortId) : M verilog (option CircuitPortId) :=
  match global_ports with
  | [] => ret None
  | circuit_port_id :: rest =>
      let* lib_name := port_lib_name lib circuit_port_id in
      if bool_decide (name ≠ lib_name) then find_linked_circuit_port lib name rest
      else ret (Some circuit_port_id)
  end.

(** One iteration of the loop over the global ports of the top module. *)
Definition connect_global_port (lib : CircuitLibrary) (global_ports : list CircuitPortId)
    (benchmark_clock_port_names : list string) (module_global_port : BasicPort)
    : M verilog unit :=
  let* linked_circuit_port_id :=
    find_linked_circuit_port lib (get_name module_global_port) global_ports in
  match linked_circuit_port_id with
  | None => fault (* Must find one valid circuit port *)
  | Some linked_circuit_port_id =>
      (* Port size should match! *)
      let* sz := port_size lib linked_circuit_port_id in
      VTR_ASSERT (bool_decide (get_width module_global_port = sz));;
      let* pt := port_type lib linked_circuit_port_id in
      let* is_prog := port_is_prog lib linked_circuit_port_id in
      if bool_decide (SPICE_MODEL_PORT_CLOCK = pt) && bool_decide (false = is_prog) then
        (* Wiring to each pin of the global port: benchmark clock is always 1-bit *)
        for_each (λ pin _,
          for_each (λ clock_port_name _,
            let module_clock_pin := BasicPort_range (get_name module_global_port) pin pin in
            let benchmark_clock_pin :=
              BasicPort_width
                (clock_port_name +:+ formal_verification_top_module_port_postfix) 1 in
            emit (print_verilog_wire_connection module_clock_pin benchmark_clock_pin false))
            benchmark_clock_port_names ())
          (pins module_global_port) ()
      else
        (* For other ports, give an default value *)
        let* dv := port_default_value lib linked_circuit_port_id in
        let default_values := vector_of (get_width module_global_port) dv in
        emit (print_verilog_wire_constant_values module_global_port default_values)
  end.

Definition print_verilog_preconfig_top_module_connect_global_ports
    (mm : ModuleManager) (top_module : ModuleId) (lib : CircuitLibrary)
    (global_ports : list CircuitPortId) (benchmark_clock_port_names : list string)
    : M verilog unit :=
  emit (print_verilog_comment "----- Begin Connect Global ports of FPGA top module -----");;
  let* module_global_ports := module_ports_by_type mm top_module MODULE_GLOBAL_PORT in
  for_each (λ module_global_port _,
    connect_global_port lib global_ports benchmark_clock_port_names module_global_port)
    module_global_ports ();;
  emit (print_verilog_comment "----- End Connect Global ports of FPGA top module -----");;
  emit endl.

Definition is_io_block (lb : t_logical_block) : bool :=
  negb (bool_decide (VPACK_INPAD ≠ lb_type lb) && bool_decide (VPACK_OUTPAD ≠ lb_type lb)).

Definition print_verilog_preconfig_top_module_connect_ios
    (mm : ModuleManager) (top_module : ModuleId) (L_logical_blocks : list t_logical_block)
    : M verilog unit :=
  (* In this function, we support only 1 type of I/Os *)
  let* gpio_ports := module_ports_by_type mm top_module MODULE_GPIO_PORT in
  VTR_ASSERT (bool_decide (1 = size gpio_ports));;
  let* module_io_port := lift (gpio_ports !! 0%nat) in
  (* Keep tracking which I/Os have been used *)
  let io_used := replicate (Z.to_nat (get_width module_io_port)) false in
  emit (print_verilog_comment "----- Link BLIF Benchmark I/Os to FPGA I/Os -----");;
  let* io_used :=
    for_each (λ io_lb io_used,
      (* We only care I/O logical blocks !*)
      if negb (is_io_block io_lb) then ret io_used else
      (* Find the index of the mapped GPIO in top-level FPGA fabric *)
      let io_index := find_benchmark_io_index io_lb in
      (* Ensure that IO index is in range *)
      let module_mapped_io_port := module_io_port in
      VTR_ASSERT (bool_decide (io_index < get_width module_mapped_io_port));;
      let module_mapped_io_port := set_width module_mapped_io_port io_index io_index in
      let benchmark_io_port :=
        BasicPort_width (lb_name io_lb +:+ formal_verification_top_module_port_postfix) 1 in
      emit (print_verilog_comment
              ("----- Blif Benchmark inout " +:+ lb_name io_lb
               +:+ " is mapped to FPGA IOPAD " +:+ get_name module_mapped_io_port
               +:+ "[" +:+ pretty io_index +:+ "] -----"));;
      emit (print_verilog_wire_connection module_mapped_io_port benchmark_io_port false);;
      (* Mark this I/O has been used/wired *)
      ret (<[Z.to_nat io_index := true]> io_used))
      L_logical_blocks io_used in
  emit endl;;
  (* Wire the unused iopads to a constant *)
  emit (print_verilog_comment "----- Wire unused FPGA I/Os to constants -----");;
  for_range 0 (size io_used) (λ io_index _,
    let* used := lift (at_index io_used io_index) in
    (* Bypass used iopads *)
    if used then ret () else
    let module_unused_io_port := set_width module_io_port io_index io_index in
    let default_values :=
      vector_of (get_width module_unused_io_port) verilog_default_signal_init_value in
    emit (print_verilog_wire_constant_values module_unused_io_port default_values)) ();;
  emit endl.

(** The hierarchical path of a configuration bit: the body of the loop of
    [print_verilog_preconfig_top_module_load_bitstream] up to the point where
    [config_port] is built. *)
Definition bit_hierarchy_path (mm : ModuleManager) (top_module : ModuleId)
    (bm : BitstreamManager) (config_bit_id : ConfigBitId) : M verilog string :=
  let* bit_parent_block := bit_parent_block bm config_bit_id in
  (* Build the hierarchical path of the configuration bit in modules *)
  let* block_hierarchy := find_bitstream_manager_block_hierarchy bm bit_parent_block in
  (* Ensure that this is the module we want to drop! *)
  let* first_block := lift (block_hierarchy !! 0%nat) in
  let* top_name := module_name mm top_module in
  let* first_name := block_name bm first_block in
  VTR_ASSERT (bool_decide (top_name = first_name));;
  (* Drop the first block, which is the top module *)
  let block_hierarchy := drop 1 block_hierarchy in
  (* Build the full hierarchy path *)
  let* bit_hierarchy_path :=
    for_each (λ temp_block bit_hierarchy_path,
      let bit_hierarchy_path := bit_hierarchy_path +:+ "." in
      let* temp_name := block_name bm temp_block in
      ret (bit_hierarchy_path +:+ temp_name))
      block_hierarchy formal_verification_top_module_uut_name in
  let bit_hierarchy_path := bit_hierarchy_path +:+ "." in
  ret (bit_hierarchy_path +:+ generate_configuration_chain_data_out_name).

(** One iteration of the loop over the fabric bitstream. *)
Definition load_config_bit (mm : ModuleManager) (top_module : ModuleId)
    (bm : BitstreamManager) (config_bit_id : ConfigBitId) : M verilog unit :=
  let* bit_hierarchy_path := bit_hierarchy_path mm top_module bm config_bit_id in
  (* Find the bit index in the parent block *)
  let* index := bit_index_in_parent_block bm config_bit_id in
  let config_port := BasicPort_range bit_hierarchy_path index index in
  (* Wire it to the configuration bit *)
  let* value := bit_value bm config_bit_id in
  let default_values := vector_of (get_width config_port) (Z.b2z value) in
  emit (print_verilog_wire_constant_values config_port default_values).

Definition print_verilog_preconfig_top_module_load_bitstream
    (mm : ModuleManager) (top_module : ModuleId) (bm : BitstreamManager)
    (fabric_bitstream : list ConfigBitId) : M verilog unit :=
  emit (print_verilog_comment "----- Begin load bitstream to configuration memories -----");;
  for_each (λ config_bit_id _, load_config_bit mm top_module bm config_bit_id)
    fabric_bitstream ();;
  emit (print_verilog_comment "----- End load bitstream to configuration memories -----").

End writer.

(** * Part III: notions used to state the properties *)

(** The diagnostics of checks 1 to 9: errors that are counted. *)
Definition counted_error (msg : message) : bool :=
  match msg with
  | INFO_checking_circuit_models | INFO_finished_checking _ | ERROR_no_default_model _ => false
  | _ => true
  end.

(** [steps m s b]: the check [m], entered with [s] errors counted so far,
    returns to its caller with at most [b] more, having printed counted
    errors only; the counter does not fall back unless it wrapped. *)
Definition steps (m : M message Z) (s b : Z) : Prop :=
  ∃ v log, m = (Returned v, log) ∧ 0 ≤ v ≤ s + b ∧ (s + b < SIZE_MOD → s ≤ v) ∧
           Forall (λ msg, counted_error msg = true) log.

(** The body of [check_circuit_library] in two blocks.  Checks 1 to 9: every
    one of them only counts and reports. *)
Definition accumulated_checks (lib : CircuitLibrary) (num_err : Z) : M message Z :=
  let* num_err := add_errors num_err (check_circuit_library_unique_names lib) in
  let* num_err := add_errors num_err (check_circuit_library_unique_prefix lib) in
  let* num_err := add_errors num_err (check_circuit_library_ports lib) in
  let* num_err := add_errors num_err (check_circuit_model_required lib SPICE_MODEL_IOPAD) in
  let* num_err := add_errors num_err
    (check_circuit_model_port_required lib SPICE_MODEL_IOPAD iopad_port_types_required) in
  let* num_err := add_errors num_err (check_circuit_model_required lib SPICE_MODEL_MUX) in
  let* num_err := add_errors num_err
    (check_circuit_model_port_required lib SPICE_MODEL_MUX mux_port_types_required) in
  let* num_err :=
    if bool_decide (0 = size (models_by_type lib SPICE_MODEL_SRAM))
       && bool_decide (0 = size (models_by_type lib SPICE_MODEL_SCFF)) then
      (emit ERROR_sram_or_scff_required;; ret (incr num_err))
    else ret num_err in
  let* num_err := add_errors num_err
    (check_circuit_model_port_required lib SPICE_MODEL_SRAM sram_port_types_required) in
  let* num_err := add_errors num_err
    (check_circuit_model_port_required lib SPICE_MODEL_SCFF scff_port_types_required) in
  let* num_err := add_errors num_err
    (check_circuit_model_port_required lib SPICE_MODEL_FF ff_port_types_required) in
  add_errors num_err
    (check_circuit_model_port_required lib SPICE_MODEL_LUT lut_port_types_required).

(** Check 10: the default models of MUX, channel wires and wires. *)
Definition default_model_checks (lib : CircuitLibrary) (num_err : Z) : M message Z :=
  let* num_err := add_errors num_err
    (check_required_default_circuit_model lib SPICE_MODEL_MUX) in
  let* num_err := add_errors num_err
    (check_required_default_circuit_model lib SPICE_MODEL_CHAN_WIRE) in
  add_errors num_err (check_required_default_circuit_model lib SPICE_MODEL_WIRE).

(** Positions [j, j+1, ...] of [l] that hold [a]. *)
Fixpoint same_from (a : string) (j : Z) (l : list string) : list Z :=
  match l with
  | [] => []
  | b :: l' => if decide (a = b) then j :: same_from a (j + 1) l' else same_from a (j + 1) l'
  end.

(** The pairs [i < j] of positions of [l] (numbered from [i]) that hold the
    same string, in the order in which the two nested loops meet them. *)
Fixpoint duplicate_pairs (i : Z) (l : list string) : list (Z * Z * string) :=
  match l with
  | [] => []
  | a :: l' => ((λ j, (i, j, a)) <$> same_from a (i + 1) l') ++ duplicate_pairs (i + 1) l'
  end.

Definition same_name_error (e : Z * Z * string) : message :=
  ERROR_same_name e.1.1 e.1.2 e.2.

(** The types that need a default model, in the order they are checked. *)
Definition required_default_types : list e_spice_model_type :=
  [SPICE_MODEL_MUX; SPICE_MODEL_CHAN_WIRE; SPICE_MODEL_WIRE].

(** A catalog small enough for its error counter not to wrap. *)
Definition fits_size_t (lib : CircuitLibrary) : Prop :=
  num_models lib < 2 ^ 30 ∧ size (ports lib) < 2 ^ 60.

(** The number of unordered pairs among [k] things. *)
Definition choose2 (k : nat) : nat := (k * (k - 1) / 2)%nat.

(** How many models of the catalog carry the name [name]. *)
Definition models_named (lib : CircuitLibrary) (name : string) : nat :=
  length (filter (λ m, cm_name m = name) (models lib)).

(** The ports of a model that have type [t]; global ports are left out when
    [ignore_global] is set. *)
Definition ports_of_type (m : CircuitModel) (t : e_spice_model_port_type)
    (ignore_global : bool) : list CircuitPort :=
  filter (λ p, cp_type p = t ∧ (ignore_global = true → cp_is_global p = false)) (cm_ports m).



(** ** Example catalogs *)

Definition plain_port (t : e_spice_model_port_type) (width : Z) (name : string) : CircuitPort :=
  {| cp_type := t; cp_size := width; cp_lib_name := name;
     cp_is_global := false; cp_is_set := false; cp_is_reset := false;
     cp_is_config_enable := false; cp_is_prog := false; cp_default_value := 0 |}.

(** An SRAM cell whose only OUTPUT port is 1 bit wide. *)
Definition narrow_sram : CircuitModel :=
  {| cm_name := "sram6T"; cm_prefix := "sram"; cm_type := SPICE_MODEL_SRAM;
     cm_is_default := false;
     cm_ports := [plain_port SPICE_MODEL_PORT_INPUT 1 "in";
                  plain_port SPICE_MODEL_PORT_OUTPUT 1 "out"] |}.

(** A catalog that passes every check of [check_circuit_library]. *)
Definition passing_catalog : CircuitLibrary :=
  {| models :=
       [ {| cm_name := "iopad"; cm_prefix := "io"; cm_type := SPICE_MODEL_IOPAD;
            cm_is_default := false;
            cm_ports := [plain_port SPICE_MODEL_PORT_INPUT 1 "outpad";
                         plain_port SPICE_MODEL_PORT_OUTPUT 1 "inpad";
                         plain_port SPICE_MODEL_PORT_INOUT 1 "pad";
                         plain_port SPICE_MODEL_PORT_SRAM 1 "en"] |};
         {| cm_name := "mux_2level"; cm_prefix := "mux"; cm_type := SPICE_MODEL_MUX;
            cm_is_default := true;
            cm_ports := [plain_port SPICE_MODEL_PORT_INPUT 1 "in";
                         plain_port SPICE_MODEL_PORT_OUTPUT 1 "out";
                         plain_port SPICE_MODEL_PORT_SRAM 1 "sram"] |};
         narrow_sram;
         {| cm_name := "chan_segment"; cm_prefix := "track"; cm_type := SPICE_MODEL_CHAN_WIRE;
            cm_is_default := true; cm_ports := [] |};
         {| cm_name := "direct"; cm_prefix := "wire"; cm_type := SPICE_MODEL_WIRE;
            cm_is_default := true; cm_ports := [] |} ] |}.

(** The same catalog with its wire model no longer the default. *)
Definition catalog_without_default_wire : CircuitLibrary :=
  {| models := take 4 (models passing_catalog) ++
       [ {| cm_name := "direct"; cm_prefix := "wire"; cm_type := SPICE_MODEL_WIRE;
            cm_is_default := false; cm_ports := [] |} ] |}.

(** The same catalog with three models called "mux_2level". *)
Definition catalog_with_three_namesakes : CircuitLibrary :=
  {| models := models passing_catalog ++
       [ {| cm_name := "mux_2level"; cm_prefix := "mux_b"; cm_type := SPICE_MODEL_MUX;
            cm_is_default := false;
            cm_ports := [plain_port SPICE_MODEL_PORT_INPUT 1 "in";
                         plain_port SPICE_MODEL_PORT_OUTPUT 1 "out";
                         plain_port SPICE_MODEL_PORT_SRAM 1 "sram"] |};
         {| cm_name := "mux_2level"; cm_prefix := "mux_c"; cm_type := SPICE_MODEL_MUX;
            cm_is_default := false;
            cm_ports := [plain_port SPICE_MODEL_PORT_INPUT 1 "in";
                         plain_port SPICE_MODEL_PORT_OUTPUT 1 "out";
                         plain_port SPICE_MODEL_PORT_SRAM 1 "sram"] |} ] |}.

(** A catalog holding a single model. *)
Definition single_model_catalog : CircuitLibrary := {| models := [narrow_sram] |}.

(** ** Notions for the writer *)

(** [parent_chain bm b l]: following the parent links from block [b] ends at
    a block that has no parent; [l] lists the blocks met, [b] first and the
    root last. *)
Inductive parent_chain (bm : BitstreamManager) : nat → list nat → Prop :=
| parent_chain_root b blk :
    blocks bm !! b = Some blk → find_block bm (cb_parent blk) = None →
    parent_chain bm b [b]
| parent_chain_step b blk p l :
    blocks bm !! b = Some blk → cb_parent blk = Some p → parent_chain bm p l →
    parent_chain bm b (b :: l).

(** A dotted wire name. *)
Definition dotted (components : list string) : string := String.concat "." components.

(** Bit [i] of a port. *)
Definition port_bit (p : BasicPort) (i : Z) : BasicPort :=
  {| bp_name := bp_name p; bp_lsb := i; bp_msb := i |}.

(** The statement drives the wire(s) [p]: it is a connection or a constant
    assignment with [p] on its left-hand side. *)
Definition drives (p : BasicPort) (stmt : verilog) : bool :=
  match stmt with
  | print_verilog_wire_connection o _ _ => bool_decide (o = p)
  | print_verilog_wire_constant_values o _ => bool_decide (o = p)
  | _ => false
  end.

Definition is_constant_assignment (stmt : verilog) : bool :=
  match stmt with print_verilog_wire_constant_values _ _ => true | _ => false end.

(** A constant assignment to a single bit. *)
Definition is_one_bit_constant_assignment (stmt : verilog) : bool :=
  match stmt with
  | print_verilog_wire_constant_values o vs =>
      bool_decide (get_width o = 1) && bool_decide (length vs = 1%nat)
  | _ => false
  end.

(** The wire connections of a clock port: one per pin and benchmark clock. *)
Definition clock_connections (postfix : string) (clocks : list string) (p : BasicPort)
    : list verilog :=
  pins p ≫= (λ pin, clocks ≫= (λ clk,
    [print_verilog_wire_connection
       {| bp_name := get_name p; bp_lsb := pin; bp_msb := pin |}
       {| bp_name := clk +:+ postfix; bp_lsb := 0; bp_msb := 0 |} false])).

(** ** Example fabric *)

(** A top module with a 1-bit clock, a 4-bit reset and 8 pads. *)
Definition example_top : Module :=
  {| md_name := "fpga_top";
     md_ports := [ (MODULE_GLOBAL_PORT, BasicPort_width "clk" 1);
                   (MODULE_GLOBAL_PORT, BasicPort_width "reset" 4);
                   (MODULE_GPIO_PORT, BasicPort_width "gfpga_pad" 8) ] |}.

Definition example_modules : ModuleManager := {| modules := [example_top] |}.

(** Its global ports. *)
Definition example_clock_port : CircuitPort :=
  {| cp_type := SPICE_MODEL_PORT_CLOCK; cp_size := 1; cp_lib_name := "clk";
     cp_is_global := true; cp_is_set := false; cp_is_reset := false;
     cp_is_config_enable := false; cp_is_prog := false; cp_default_value := 0 |}.

Definition example_reset_port : CircuitPort :=
  {| cp_type := SPICE_MODEL_PORT_INPUT; cp_size := 4; cp_lib_name := "reset";
     cp_is_global := true; cp_is_set := false; cp_is_reset := true;
     cp_is_config_enable := false; cp_is_prog := false; cp_default_value := 1 |}.

(** A flip-flop with a global operating clock and a global 4-bit reset whose
    default value is 1. *)
Definition example_global_catalog : CircuitLibrary :=
  {| models :=
       [ {| cm_name := "dff"; cm_prefix := "dff"; cm_type := SPICE_MODEL_FF;
            cm_is_default := false;
            cm_ports := [example_clock_port; example_reset_port] |} ] |}.

Definition example_global_ports : list (Z * Z) := [(0, 0); (0, 1)].

(** Two benchmark pads and a LUT; the pads are placed on pads 2 and 5. *)
Definition example_logical_blocks : list t_logical_block :=
  [ {| lb_name := "a"; lb_type := VPACK_INPAD |};
    {| lb_name := "n1"; lb_type := VPACK_COMB |};
    {| lb_name := "out_b"; lb_type := VPACK_OUTPAD |} ].

Definition example_placement (lb : t_logical_block) : Z :=
  if bool_decide (lb_name lb = "a") then 2 else 5.

(** A placement that puts every block on pad 2. *)
Definition clashing_placement (lb : t_logical_block) : Z := 2.

(** Blocks [fpga_top > grid > lut] and [fpga_top > sb], with one bit owned
    by the LUT, one by the top block and one by the switch block. *)
Definition example_bitstream : BitstreamManager :=
  {| blocks := [ {| cb_name := "fpga_top"; cb_parent := None |};
                 {| cb_name := "grid_1_1"; cb_parent := Some 0%nat |};
                 {| cb_name := "lut4"; cb_parent := Some 1%nat |};
                 {| cb_name := "sb_0_0"; cb_parent := Some 0%nat |} ];
     bits := [ {| cbit_parent := Some 2%nat; cbit_index := 3; cbit_value := true |};
               {| cbit_parent := Some 0%nat; cbit_index := 0; cbit_value := false |};
               {| cbit_parent := Some 3%nat; cbit_index := 1; cbit_value := true |} ] |}.

(** What the I/O binder is expected to print. *)
Section io_statements.
Context (postfix : string) (init : Z) (place : t_logical_block → Z) (port : BasicPort).

Definition io_comment (lb : t_logical_block) : verilog :=
  print_verilog_comment
    ("----- Blif Benchmark inout " +:+ lb_name lb
     +:+ " is mapped to FPGA IOPAD " +:+ get_name port
     +:+ "[" +:+ pretty (place lb) +:+ "] -----").

(** The 1-bit connection of the pad of [lb] to its benchmark signal. *)
Definition io_connection (lb : t_logical_block) : verilog :=
  print_verilog_wire_connection (port_bit port (place lb))
    {| bp_name := lb_name lb +:+ postfix; bp_lsb := 0; bp_msb := 0 |} false.

(** The 1-bit tie-off of pad [i]. *)
Definition tie_off (i : Z) : verilog :=
  print_verilog_wire_constant_values (port_bit port i) [init].

(** The pads no block of [ios] is placed on, in increasing order. *)
Definition unused_pads (ios : list t_logical_block) : list Z :=
  filter (λ i, i ∉ place <$> ios) (seqZ 0 (get_width port)).

Definition connect_ios_output (ios : list t_logical_block) : list verilog :=
  [print_verilog_comment "----- Link BLIF Benchmark I/Os to FPGA I/Os -----"]
  ++ (ios ≫= (λ lb, [io_comment lb; io_connection lb]))
  ++ [endl; print_verilog_comment "----- Wire unused FPGA I/Os to constants -----"]
  ++ (tie_off <$> unused_pads ios)
  ++ [endl].
End io_statements.

Definition is_wire_connection (stmt : verilog) : bool :=
  match stmt with print_verilog_wire_connection _ _ _ => true | _ => false end.

(** A top module whose only global port is the reset. *)
Definition example_modules_reset_only : ModuleManager :=
  {| modules :=
       [ {| md_name := "fpga_top";
            md_ports := [ (MODULE_GLOBAL_PORT, BasicPort_width "reset" 4) ] |} ] |}.

(** Two input pads, to be placed on the same pad by [clashing_placement]. *)
Definition two_inpads : list t_logical_block :=
  [ {| lb_name := "a"; lb_type := VPACK_INPAD |};
    {| lb_name := "b"; lb_type := VPACK_INPAD |} ].

(** * Part III, continued: notions for the further properties of the checker *)

(** [tallies m s b]: the check [m], entered with [s] errors counted so far,
    returns [s] plus the number of diagnostics it printed, all of them
    counted errors and at most [b]. *)
Definition tallies (m : M message Z) (s b : Z) : Prop :=
  ∃ log, m = (Returned (wrap64 (s + size log)), log) ∧ size log ≤ b ∧
         Forall (λ msg, counted_error msg = true) log.

(** The name of model [id], for a diagnostic. *)
Definition name_of (lib : CircuitLibrary) (id : Z) : string :=
  default "" (cm_name <$> find_model lib id).

Definition same_prefix_error (lib : CircuitLibrary) (e : Z * Z * string) : message :=
  ERROR_same_prefix (name_of lib e.1.1) (name_of lib e.1.2) e.2.

(** [prints m s log]: the check [m], entered with [s] errors counted so far,
    prints exactly [log] and returns [s] plus one for every line of it. *)
Definition prints (m : M message Z) (s : Z) (log : list message) : Prop :=
  m = (Returned (wrap64 (s + size log)), log).

(** Every port of the catalog with the model that owns it, in the order of
    [circuit_lib.ports()]. *)
Definition owned_ports (lib : CircuitLibrary) : list (CircuitModel * CircuitPort) :=
  models lib ≫= (λ m, (λ p, (m, p)) <$> cm_ports m).

(** A global port that is not an input port. *)
Definition global_not_input (p : CircuitPort) : bool :=
  cp_is_global p && negb (bool_decide (cp_type p = SPICE_MODEL_PORT_INPUT)).

(** A port flagged set, reset or config-enable that is not global. *)
Definition local_set_reset (p : CircuitPort) : bool :=
  (cp_is_set p || cp_is_reset p || cp_is_config_enable p) && negb (cp_is_global p).

(** The diagnostics of the two rules of [check_circuit_library_ports]. *)
Definition global_not_input_errors (lib : CircuitLibrary) : list message :=
  owned_ports lib ≫= (λ mp,
    if global_not_input mp.2 then [ERROR_global_not_input (cp_type mp.2) (cm_name mp.1)]
    else []).

Definition not_global_errors (lib : CircuitLibrary) : list message :=
  owned_ports lib ≫= (λ mp,
    if local_set_reset mp.2 then [ERROR_not_global (cp_type mp.2) (cm_name mp.1)] else []).

(** The models of the catalog that have type [t], in order. *)
Definition models_of_type (lib : CircuitLibrary) (t : e_spice_model_type) : list CircuitModel :=
  filter (λ m, cm_type m = t) (models lib).

(** The required port types that model [m] has no port of. *)
Definition missing_port_types (m : CircuitModel) (types : list e_spice_model_port_type)
    : list e_spice_model_port_type :=
  filter (λ t, ports_of_type m t false = []) types.

Definition no_port_errors (types : list e_spice_model_port_type) (m : CircuitModel)
    : list message :=
  ERROR_no_port (cm_type m) (cm_name m) <$> missing_port_types m types.

Definition port_required_errors (lib : CircuitLibrary) (t : e_spice_model_type)
    (types : list e_spice_model_port_type) : list message :=
  models_of_type lib t ≫= no_port_errors types.

Definition model_required_errors (lib : CircuitLibrary) (t : e_spice_model_type)
    : list message :=
  if decide (models_of_type lib t = []) then [ERROR_model_required t] else [].

Definition sram_or_scff_errors (lib : CircuitLibrary) : list message :=
  if decide (models_of_type lib SPICE_MODEL_SRAM = [] ∧
             models_of_type lib SPICE_MODEL_SCFF = [])
  then [ERROR_sram_or_scff_required] else [].

Definition name_errors (lib : CircuitLibrary) : list message :=
  same_name_error <$> duplicate_pairs 0 (cm_name <$> models lib).

Definition prefix_errors (lib : CircuitLibrary) : list message :=
  same_prefix_error lib <$> duplicate_pairs 0 (cm_prefix <$> models lib).

(** Every diagnostic of checks 1 to 9, in the order of the checks. *)
Definition validate_errors (lib : CircuitLibrary) : list message :=
  name_errors lib ++ prefix_errors lib
  ++ (global_not_input_errors lib ++ not_global_errors lib)
  ++ model_required_errors lib SPICE_MODEL_IOPAD
  ++ port_required_errors lib SPICE_MODEL_IOPAD iopad_port_types_required
  ++ model_required_errors lib SPICE_MODEL_MUX
  ++ port_required_errors lib SPICE_MODEL_MUX mux_port_types_required
  ++ sram_or_scff_errors lib
  ++ port_required_errors lib SPICE_MODEL_SRAM sram_port_types_required
  ++ port_required_errors lib SPICE_MODEL_SCFF scff_port_types_required
  ++ port_required_errors lib SPICE_MODEL_FF ff_port_types_required
  ++ port_required_errors lib SPICE_MODEL_LUT lut_port_types_required.

(** "Every model of type [t] has a port of each of the types [types]". *)
Definition has_port_types (lib : CircuitLibrary) (t : e_spice_model_type)
    (types : list e_spice_model_port_type) : Prop :=
  ∀ m, m ∈ models lib → cm_type m = t →
    ∀ pt, pt ∈ types → ∃ p, p ∈ cm_ports m ∧ cp_type p = pt.

Definition has_model (lib : CircuitLibrary) (t : e_spice_model_type) : Prop :=
  ∃ m, m ∈ models lib ∧ cm_type m = t.

(** What [check_circuit_library] asks of a catalog. *)
Definition valid_catalog (lib : CircuitLibrary) : Prop :=
  NoDup (cm_name <$> models lib) ∧
  NoDup (cm_prefix <$> models lib) ∧
  (∀ m p, m ∈ models lib → p ∈ cm_ports m →
     global_not_input p = false ∧ local_set_reset p = false) ∧
  has_model lib SPICE_MODEL_IOPAD ∧
  has_port_types lib SPICE_MODEL_IOPAD iopad_port_types_required ∧
  has_model lib SPICE_MODEL_MUX ∧
  has_port_types lib SPICE_MODEL_MUX mux_port_types_required ∧
  (has_model lib SPICE_MODEL_SRAM ∨ has_model lib SPICE_MODEL_SCFF) ∧
  has_port_types lib SPICE_MODEL_SRAM sram_port_types_required ∧
  has_port_types lib SPICE_MODEL_SCFF scff_port_types_required ∧
  has_port_types lib SPICE_MODEL_FF ff_port_types_required ∧
  has_port_types lib SPICE_MODEL_LUT lut_port_types_required ∧
  Forall (λ t, is_Some (default_model lib t)) required_default_types.

(** The diagnostics of one port-count-and-width check of model [m] when its
    count report can be printed ([count_readable]). *)
Definition count_and_width_trace (m : CircuitModel) (t : e_spice_model_port_type)
    (ignore_global : bool) (count width : Z) : list message :=
  (if bool_decide (count ≠ size (ports_of_type m t ignore_global))
   then [ERROR_port_count count t (cm_type m) (size (ports_of_type m t ignore_global))]
   else [])
  ++ ((λ p, ERROR_port_size (cm_name m) (cp_type p) width)
        <$> filter (λ p, cp_size p ≠ width) (ports_of_type m t ignore_global)).

(** The count report of a port-count-and-width check can be printed: there
    is none to print (the count is right), or no port was found, so that the
    number of ports found, which the report hands to a %s conversion, is the
    null pointer. *)
Definition count_readable (m : CircuitModel) (t : e_spice_model_port_type)
    (ignore_global : bool) (count : Z) : Prop :=
  size (ports_of_type m t ignore_global) = count ∨ ports_of_type m t ignore_global = [].

#[global] Instance count_readable_dec m t ignore_global count :
  Decision (count_readable m t ignore_global count).
Proof. unfold count_readable. apply _. Defined.

(** A diagnostic about IOPAD models. *)
Definition about_iopad (msg : message) : bool :=
  match msg with
  | ERROR_model_required SPICE_MODEL_IOPAD
  | ERROR_no_port SPICE_MODEL_IOPAD _ _
  | ERROR_port_count _ _ SPICE_MODEL_IOPAD _ => true
  | _ => false
  end.

(** "The model has exactly [count] ports of type [t], each [width] wide". *)
Definition has_ports (m : CircuitModel) (t : e_spice_model_port_type)
    (ignore_global : bool) (count width : Z) : Prop :=
  size (ports_of_type m t ignore_global) = count ∧
  Forall (λ p, cp_size p = width) (ports_of_type m t ignore_global).

(** A D flip-flop with D, set and reset inputs. *)
Definition example_ff : CircuitModel :=
  {| cm_name := "static_dff"; cm_prefix := "dff"; cm_type := SPICE_MODEL_FF;
     cm_is_default := false;
     cm_ports := [plain_port SPICE_MODEL_PORT_INPUT 1 "D";
                  plain_port SPICE_MODEL_PORT_INPUT 1 "set";
                  plain_port SPICE_MODEL_PORT_INPUT 1 "reset";
                  plain_port SPICE_MODEL_PORT_OUTPUT 1 "Q";
                  plain_port SPICE_MODEL_PORT_CLOCK 1 "clk"] |}.

(** A scan-chain flip-flop whose clock is a global port. *)
Definition example_scff : CircuitModel :=
  {| cm_name := "sc_dff"; cm_prefix := "scff"; cm_type := SPICE_MODEL_SCFF;
     cm_is_default := false;
     cm_ports := [plain_port SPICE_MODEL_PORT_INPUT 1 "D";
                  plain_port SPICE_MODEL_PORT_OUTPUT 1 "Q";
                  plain_port SPICE_MODEL_PORT_OUTPUT 1 "Qb";
                  example_clock_port] |}.

(** An SRAM cell with two OUTPUT ports, and a flip-flop with two INPUT
    ports. *)
Definition two_output_sram : CircuitModel :=
  {| cm_name := "sram_dual"; cm_prefix := "sramd"; cm_type := SPICE_MODEL_SRAM;
     cm_is_default := false;
     cm_ports := [plain_port SPICE_MODEL_PORT_INPUT 1 "in";
                  plain_port SPICE_MODEL_PORT_OUTPUT 1 "out";
                  plain_port SPICE_MODEL_PORT_OUTPUT 1 "outb"] |}.

Definition two_input_ff : CircuitModel :=
  {| cm_name := "dff2"; cm_prefix := "dff2"; cm_type := SPICE_MODEL_FF;
     cm_is_default := false;
     cm_ports := [plain_port SPICE_MODEL_PORT_INPUT 1 "D";
                  plain_port SPICE_MODEL_PORT_INPUT 1 "reset";
                  plain_port SPICE_MODEL_PORT_OUTPUT 1 "Q";
                  plain_port SPICE_MODEL_PORT_CLOCK 1 "clk"] |}.

Definition example_ff_catalog : CircuitLibrary :=
  {| models := [example_ff; example_scff; narrow_sram; two_output_sram; two_input_ff] |}.

(** The passing catalog without its IOPAD model. *)
Definition catalog_without_iopad : CircuitLibrary :=
  {| models := drop 1 (models passing_catalog) |}.

(** The passing catalog with a second multiplexer that reuses the prefix
    "mux". *)
Definition catalog_with_shared_prefix : CircuitLibrary :=
  {| models := models passing_catalog ++
       [ {| cm_name := "mux_tree"; cm_prefix := "mux"; cm_type := SPICE_MODEL_MUX;
            cm_is_default := false;
            cm_ports := [plain_port SPICE_MODEL_PORT_INPUT 1 "in";
                         plain_port SPICE_MODEL_PORT_OUTPUT 1 "out";
                         plain_port SPICE_MODEL_PORT_SRAM 1 "sram"] |} ] |}.

(** * Part II, continued: the rest of [verilog_preconfig_top_module.cpp] *)

(** Modelled from the spec: the kinds of declaration the emitter renders
    (input port, output port, wire), [e_dump_verilog_port_type] of
    verilog_global.h as far as this file names it. *)
Inductive e_dump_verilog_port_type : Type :=
| VERILOG_PORT_INPUT | VERILOG_PORT_OUTPUT | VERILOG_PORT_WIRE.

#[global] Instance e_dump_verilog_port_type_eq_dec : EqDecision e_dump_verilog_port_type.
Proof. solve_decision. Defined.

#[global] Instance logical_block_types_countable : Countable logical_block_types.
Proof.
  refine (inj_countable'
    (λ t, match t with
          | VPACK_INPAD => 0 | VPACK_OUTPAD => 1 | VPACK_COMB => 2
          | VPACK_LATCH => 3 | VPACK_EMPTY => 4
          end%nat)
    (λ n, match n with
          | 0 => VPACK_INPAD | 1 => VPACK_OUTPAD | 2 => VPACK_COMB
          | 3 => VPACK_LATCH | _ => VPACK_EMPTY
          end%nat) _).
  by intros [].
Defined.

(** What the top-level function writes: the primitives of Part II, text
    streamed into the file with [fp << ...], and the remaining calls on the
    file stream and on the log, each carrying its arguments. *)
Inductive netlist : Type :=
| statement (stmt : verilog)
| text (s : string)
| print_verilog_file_header (title : string)
| print_verilog_include_defines_preproc_file (verilog_dir : string)
| print_verilog_include_netlist (netlist_name : string)
| print_verilog_module_instance (top_module : nat) (instance_name : string)
    (port2port_name_map : list (string * BasicPort)) (explicit_port_map : bool)
| print_verilog_module_end (module_name : string)
| fp_open (verilog_fname : string)
| fp_close
| INFO_writing (circuit_name : string)
| INFO_took (clock_ticks : Z).

#[global] Instance netlist_eq_dec : EqDecision netlist.
Proof. solve_decision. Defined.

(** A function of Part II called on the same file stream. *)
Definition statements {A} (m : M verilog A) : M netlist A := (m.1, statement <$> m.2).

(** Modelled from the spec: module lookup by name of the module hierarchy,
    [ModuleManager::find_module]; [None] is [ModuleId::INVALID()]. *)
Definition find_module (mm : ModuleManager) (name : string) : option nat :=
  fst <$> list_find (λ m, md_name m = name) (modules mm).

(** Modelled from the spec: [ModuleManager::valid_module_id], whether the id
    names a module of the hierarchy. *)
Definition valid_module_id (mm : ModuleManager) (id : option nat) : bool :=
  match id with Some i => bool_decide (i < length (modules mm))%nat | None => false end.

Section preconfig_top_module.
(** Constants of verilog_global.h and fpga_x2p_naming.h, the helpers of
    fpga_x2p_benchmark_utils.h and verilog_writer_utils.h that compute a
    value, the enumerator a [std::map] yields for a key it does not hold, and
    the two readings of [clock()].  The file stream is taken to be open and
    good, so that [check_file_handler] returns. *)
Context (formal_verification_top_module_postfix : string).
Context (formal_verification_top_module_port_postfix : string).
Context (formal_verification_top_module_uut_name : string).
Context (generate_configuration_chain_data_out_name : string).
Context (verilog_default_signal_init_value : Z).
Context (defines_verilog_simulation_file_name : string).
Context (generate_fpga_top_module_name : string).
Context (find_benchmark_io_index : t_logical_block → Z).
Context (find_benchmark_clock_port_name : list t_logical_block → list string).
Context (generate_verilog_port : e_dump_verilog_port_type → BasicPort → string).
Context (value_initialized_port_type : e_dump_verilog_port_type).
Context (t_start t_end : Z).

Definition print_verilog_preconfig_top_module_ports (circuit_name : string)
    (L_logical_blocks : list t_logical_block) : M netlist unit :=
  (* Module declaration *)
  emit (text "module ");;
  emit (text circuit_name);;
  emit (text formal_verification_top_module_postfix);;
  emit (text " (");;
  emit (statement endl);;
  (* Add module ports *)
  let port_counter := 0 in
  (* Port type-to-type mapping *)
  let port_type2type_map : gmap logical_block_types e_dump_verilog_port_type :=
    <[VPACK_OUTPAD := VERILOG_PORT_OUTPUT]> (<[VPACK_INPAD := VERILOG_PORT_INPUT]> ∅) in
  (* Print all the I/Os of the circuit implementation to be tested *)
  let* port_counter :=
    for_each (λ lb port_counter,
      (* We only care I/O logical blocks !*)
      if bool_decide (VPACK_INPAD ≠ lb_type lb) && bool_decide (VPACK_OUTPAD ≠ lb_type lb)
      then ret port_counter else
      (if bool_decide (0 < port_counter)
       then (emit (text ",");; emit (statement endl))
       else ret ());;
      (* Both input and output ports have only size of 1 *)
      let module_port :=
        BasicPort_width (lb_name lb +:+ formal_verification_top_module_port_postfix) 1 in
      emit (text (generate_verilog_port
                    (default value_initialized_port_type (port_type2type_map !! lb_type lb))
                    module_port));;
      (* Update port counter *)
      ret (incr port_counter))
      L_logical_blocks port_counter in
  emit (text ");");;
  emit (statement endl);;
  (* Add an empty line as a splitter *)
  emit (statement endl).

Definition print_verilog_preconfig_top_module_internal_wires
    (mm : ModuleManager) (top_module : nat) : M netlist unit :=
  (* Global ports of top-level module *)
  emit (statement (print_verilog_comment "----- Global ports of FPGA fabric -----"));;
  let* global_ports := module_ports_by_type mm top_module MODULE_GLOBAL_PORT in
  for_each (λ global_port _,
    emit (text (generate_verilog_port VERILOG_PORT_WIRE global_port));;
    emit (text ";");;
    emit (statement endl)) global_ports ();;
  (* Add an empty line as a splitter *)
  emit (statement endl);;
  (* Datapath I/Os of FPGA fabric *)
  emit (statement (print_verilog_comment "----- I/Os of FPGA fabric -----"));;
  let* gpio_ports := module_ports_by_type mm top_module MODULE_GPIO_PORT in
  for_each (λ gpio_port _,
    emit (text (generate_verilog_port VERILOG_PORT_WIRE gpio_port));;
    emit (text ";");;
    emit (statement endl)) gpio_ports ();;
  (* Add an empty line as a splitter *)
  emit (statement endl);;
  (* Datapath I/Os of FPGA fabric *)
  emit (statement
          (print_verilog_comment "----- Configuration protocols of FPGA fabric -----"));;
  let* input_ports := module_ports_by_type mm top_module MODULE_INPUT_PORT in
  for_each (λ input_port _,
    emit (text (generate_verilog_port VERILOG_PORT_WIRE input_port));;
    emit (text ";");;
    emit (statement endl)) input_ports ();;
  (* Add an empty line as a splitter *)
  emit (statement endl).

Definition print_verilog_preconfig_top_instance
    (mm : ModuleManager) (top_module : nat) : M netlist unit :=
  (* Include defined top-level module *)
  emit (statement
          (print_verilog_comment "----- FPGA top-level module to be capsulated -----"));;
  (* Create an empty port-to-port name mapping, because we use default names *)
  let port2port_name_map : list (string * BasicPort) := [] in
  (* Use explicit port mapping for a clean instanciation *)
  emit (print_verilog_module_instance top_module formal_verification_top_module_uut_name
          port2port_name_map true);;
  (* Add an empty line as a splitter *)
  emit (statement endl).

Definition print_verilog_preconfig_top_module
    (mm : ModuleManager) (bm : BitstreamManager) (fabric_bitstream : list nat)
    (lib : CircuitLibrary) (global_ports : list (Z * Z))
    (L_logical_blocks : list t_logical_block)
    (circuit_name verilog_fname verilog_dir : string) : M netlist unit :=
  emit (INFO_writing circuit_name);;
  (* Create the file stream *)
  emit (fp_open verilog_fname);;
  (* Generate a brief description on the Verilog file *)
  let title :=
    "Verilog netlist for pre-configured FPGA fabric by design: " +:+ circuit_name in
  emit (print_verilog_file_header title);;
  (* Print preprocessing flags and external netlists *)
  emit (print_verilog_include_defines_preproc_file verilog_dir);;
  emit (print_verilog_include_netlist
          (verilog_dir +:+ defines_verilog_simulation_file_name));;
  (* Print module declaration and ports *)
  print_verilog_preconfig_top_module_ports circuit_name L_logical_blocks;;
  (* Find the top_module *)
  let top_module := find_module mm generate_fpga_top_module_name in
  VTR_ASSERT (bool_decide (true = valid_module_id mm top_module));;
  let* top_module := lift top_module in
  (* Print internal wires *)
  print_verilog_preconfig_top_module_internal_wires mm top_module;;
  (* Instanciate FPGA top-level module *)
  print_verilog_preconfig_top_instance mm top_module;;
  (* Find clock ports in benchmark *)
  let benchmark_clock_port_names := find_benchmark_clock_port_name L_logical_blocks in
  (* Connect FPGA top module global ports to constant or benchmark global signals! *)
  statements (print_verilog_preconfig_top_module_connect_global_ports
                formal_verification_top_module_port_postfix mm top_module lib
                global_ports benchmark_clock_port_names);;
  (* Connect I/Os to benchmark I/Os or constant driver *)
  statements (print_verilog_preconfig_top_module_connect_ios
                formal_verification_top_module_port_postfix
                verilog_default_signal_init_value find_benchmark_io_index
                mm top_module L_logical_blocks);;
  (* Assign FPGA internal SRAM/Memory ports to bitstream values *)
  statements (print_verilog_preconfig_top_module_load_bitstream
                formal_verification_top_module_uut_name
                generate_configuration_chain_data_out_name
                mm top_module bm fabric_bitstream);;
  (* Testbench ends *)
  emit (print_verilog_module_end
          (circuit_name +:+ formal_verification_top_module_postfix));;
  (* Close the file stream *)
  emit fp_close;;
  emit (INFO_took (t_end - t_start)).

End preconfig_top_module.

(** ** Notions for the rest of the writer *)

(** The global-port binder links the module port [q] to the circuit port
    [cp]: the search by name ends on one of [global_ports] that names [cp],
    and [cp] has the width of [q]. *)
Definition linked_port (lib : CircuitLibrary) (global_ports : list (Z * Z))
    (q : BasicPort) : Prop :=
  ∃ id cp, find_linked_circuit_port lib (get_name q) global_ports = ret (Some id) ∧
           find_port lib id = Some cp ∧ get_width q = cp_size cp.

(** The declaration of the benchmark signal of an I/O block: an input for an
    input pad, an output for an output pad, 1 bit wide. *)
Definition module_port_declaration (port_postfix : string) (lb : t_logical_block)
    : e_dump_verilog_port_type * BasicPort :=
  (if bool_decide (lb_type lb = VPACK_INPAD) then VERILOG_PORT_INPUT else VERILOG_PORT_OUTPUT,
   {| bp_name := lb_name lb +:+ port_postfix; bp_lsb := 0; bp_msb := 0 |}).

(** Items separated by a comma and a line end. *)
Definition comma_separated (items : list netlist) : list netlist :=
  match items with
  | [] => []
  | item :: items' => item :: (items' ≫= (λ item', [text ","; statement endl; item']))
  end.

(** A group of wire declarations under its banner, closed by an empty line. *)
Definition wire_group (generate_verilog_port : e_dump_verilog_port_type → BasicPort → string)
    (banner : string) (wires : list BasicPort) : list netlist :=
  statement (print_verilog_comment banner)
    :: (wires ≫= (λ p, [text (generate_verilog_port VERILOG_PORT_WIRE p);
                        text ";"; statement endl]))
    ++ [statement endl].

(** The ports of a module that have the role [t]. *)
Definition ports_of_role (m : Module) (t : e_module_port_type) : list BasicPort :=
  (filter (λ tp, tp.1 = t) (md_ports m)).*2.

(** The benchmark-side port of a wire connection. *)
Definition connection_source (stmt : verilog) : option BasicPort :=
  match stmt with
  | print_verilog_wire_connection _ input_port _ => Some input_port
  | _ => None
  end.

Definition closes_module (item : netlist) : bool :=
  match item with print_verilog_module_end _ | fp_close => true | _ => false end.

(** ** Further examples for the writer *)

(** A bitstream with a second root that is not the top module: bit 0 lives
    under [fpga_top], bit 1 under [testbench]. *)
Definition two_rooted_bitstream : BitstreamManager :=
  {| blocks := [ {| cb_name := "fpga_top"; cb_parent := None |};
                 {| cb_name := "testbench"; cb_parent := None |};
                 {| cb_name := "sb_0_0"; cb_parent := Some 1%nat |} ];
     bits := [ {| cbit_parent := Some 0%nat; cbit_index := 0; cbit_value := true |};
               {| cbit_parent := Some 2%nat; cbit_index := 1; cbit_value := true |} ] |}.

(** A top module whose reset is 2 bits wide, against the 4 bits of the
    catalog. *)
Definition example_modules_narrow_reset : ModuleManager :=
  {| modules :=
       [ {| md_name := "fpga_top";
            md_ports := [ (MODULE_GLOBAL_PORT, BasicPort_width "clk" 1);
                          (MODULE_GLOBAL_PORT, BasicPort_width "reset" 2);
                          (MODULE_GPIO_PORT, BasicPort_width "gfpga_pad" 8) ] |} ] |}.

(** A placement that puts block "a" on pad 2 and every other block on pad 9. *)
Definition overflowing_placement (lb : t_logical_block) : Z :=
  if bool_decide (lb_name lb = "a") then 2 else 9.

(** The wire a statement drives. *)
Definition driven_wire (stmt : verilog) : option BasicPort :=
  match stmt with
  | print_verilog_wire_connection output_port _ _ => Some output_port
  | print_verilog_wire_constant_values output_port _ => Some output_port
  | _ => None
  end.

(** [tame P m]: the computation [m] does not call [exit], and whatever it
    prints, also when an assertion stops it, satisfies [P]. *)
Definition tame {E A} (P : E → Prop) (m : M E A) : Prop :=
  (∀ c, m.1 ≠ Exited c) ∧ Forall P m.2.

(** [closes_on_return P closing r]: if the run [r] returned, its output ends
    with [closing] and satisfies [P] before that; if it did not return, an
    assertion failed and the output satisfies [P] throughout. *)
Definition closes_on_return {E} (P : E → Prop) (closing : list E) (r : M E unit) : Prop :=
  (r.1 = Returned () → ∃ body, r.2 = body ++ closing ∧ Forall P body) ∧
  (r.1 ≠ Returned () → r.1 = Faulted ∧ Forall P r.2).

(** The example benchmark: input "a" and output "out_b" around a LUT, with
    clock "clk". *)
Definition example_clock_names (lbs : list t_logical_block) : list string := ["clk"].

(** A stand-in for the port renderer. *)
Definition example_generate_verilog_port (t : e_dump_verilog_port_type) (p : BasicPort)
    : string :=
  match t with
  | VERILOG_PORT_INPUT => "input "
  | VERILOG_PORT_OUTPUT => "output "
  | VERILOG_PORT_WIRE => "wire "
  end +:+ bp_name p.
(** ** Generic facts about the monad and its loops *)

Section monad_facts.
Context {E : Type}.

Lemma bind_ret_l {A B} (a : A) (f : A → M E B) : bind (ret a) f = f a.
Proof. unfold bind, ret. by destruct (f a). Qed.

Lemma bind_returned {A B} (a : A) l (f : A → M E B) :
  bind (Returned a, l) f = (fst (f a), l ++ snd (f a)).
Proof. unfold bind. by destruct (f a). Qed.

Lemma bind_assoc {A B C} (m : M E A) (f : A → M E B) (g : B → M E C) :
  bind (bind m f) g = bind m (λ x, bind (f x) g).
Proof.
  destruct m as [[a| |] l]; simpl; [|done..].
  destruct (f a) as [[b| |] l']; simpl; [|done..].
  destruct (g b) as [r l'']. by rewrite (assoc_L (++)).
Qed.

Lemma bind_ext {A B} (m : M E A) (f g : A → M E B) :
  (∀ x, f x = g x) → bind m f = bind m g.
Proof. intros Hfg. destruct m as [[a| |] l]; simpl; [|done..]. by rewrite Hfg. Qed.

Lemma bind_emit {B} (e : E) (f : unit → M E B) :
  bind (emit e) f = ((f ()).1, e :: (f ()).2).
Proof. unfold bind, emit. by destruct (f ()). Qed.

Lemma lift_Some {A} (a : A) : lift (E:=E) (Some a) = ret a.
Proof. done. Qed.

Lemma VTR_ASSERT_true : VTR_ASSERT (E:=E) true = ret ().
Proof. done. Qed.

Lemma for_each_app {X S} (body : X → S → M E S) xs ys s :
  for_each body (xs ++ ys) s =
  (let* s' := for_each body xs s in for_each body ys s').
Proof.
  revert s. induction xs as [|x xs IH]; intros s; simpl.
  - by destruct (for_each body ys s).
  - destruct (body x s) as [[s'| |] l]; simpl; [|done..].
    rewrite IH. destruct (for_each body xs s') as [[s''| |] l']; simpl; [|done..].
    destruct (for_each body ys s'') as [r l'']. by rewrite (assoc_L (++)).
Qed.

Lemma for_range_nil {S} lo hi (body : Z → S → M E S) s :
  hi ≤ lo → for_range lo hi body s = ret s.
Proof. intros. unfold for_range. by rewrite seqZ_nil by lia. Qed.

(** The loop unfolds as the C loop does: test, body, increment. *)
Lemma for_range_step {S} lo hi (body : Z → S → M E S) s :
  lo < hi →
  for_range lo hi body s = (let* s' := body lo s in for_range (lo + 1) hi body s').
Proof.
  intros. unfold for_range. rewrite seqZ_cons by lia. simpl.
  by replace (Z.pred (hi - lo)) with (hi - (lo + 1)) by lia.
Qed.
End monad_facts.

(** Runs the binds whose first computation has returned. *)
Ltac run_binds := repeat (progress (cbn [fst snd]; rewrite ?bind_returned)).

Lemma wrap64_range z : 0 ≤ wrap64 z < SIZE_MOD.
Proof. unfold wrap64. apply Z.mod_pos_bound. by compute. Qed.

Lemma wrap64_small z : 0 ≤ z < SIZE_MOD → wrap64 z = z.
Proof. unfold wrap64. apply Z.mod_small. Qed.

Lemma wrap64_le z : 0 ≤ z → wrap64 z ≤ z.
Proof. intros. unfold wrap64. apply Z.mod_le; [done | by compute]. Qed.

Lemma wrap64_add_l a b : wrap64 (wrap64 a + b) = wrap64 (a + b).
Proof. unfold wrap64. apply Zplus_mod_idemp_l. Qed.

Lemma wrap64_add_r a b : wrap64 (a + wrap64 b) = wrap64 (a + b).
Proof. unfold wrap64. apply Zplus_mod_idemp_r. Qed.

(** * Part IV: properties of the circuit-library checker *)

(** ** Ids and lookups *)

Lemma at_index_nat {A} (l : list A) (i : nat) : at_index l (Z.of_nat i) = l !! i.
Proof. unfold at_index. rewrite bool_decide_true by lia. by rewrite Nat2Z.id. Qed.

Lemma at_index_Some {A} (l : list A) i x :
  at_index l i = Some x → 0 ≤ i < size l.
Proof.
  unfold at_index, size. case_bool_decide; [|done].
  intros ?%lookup_lt_Some. lia.
Qed.

Lemma at_index_is_Some {A} (l : list A) i :
  0 ≤ i < size l → is_Some (at_index l i).
Proof.
  unfold at_index, size. intros. rewrite bool_decide_true by lia.
  apply lookup_lt_is_Some. lia.
Qed.

Lemma at_index_app_r {A} (l1 l2 : list A) :
  at_index (l1 ++ l2) (size l1) = head l2.
Proof.
  unfold size. rewrite at_index_nat, lookup_app_r by lia.
  rewrite Nat.sub_diag. by destruct l2.
Qed.

Lemma zip_seqZ_cons {A} k (x : A) l :
  zip (seqZ k (Z.of_nat (S (length l)))) (x :: l)
  = (k, x) :: zip (seqZ (k + 1) (Z.of_nat (length l))) l.
Proof.
  rewrite seqZ_cons by lia. simpl. do 3 f_equal; lia.
Qed.

Lemma elem_of_zip_seqZ {A} k (l : list A) i x :
  (i, x) ∈ zip (seqZ k (Z.of_nat (length l))) l ↔ k ≤ i ∧ l !! Z.to_nat (i - k) = Some x.
Proof.
  revert k. induction l as [|y l IH]; intros k.
  - simpl. split; [by intros ?%elem_of_nil | by intros [_ ?]].
  - change (length (y :: l)) with (S (length l)). rewrite zip_seqZ_cons, elem_of_cons, IH.
    split.
    + intros [[= -> ->]|[? Hl]].
      * split; [lia|]. by rewrite Z.sub_diag.
      * split; [lia|]. replace (Z.to_nat (i - k)) with (S (Z.to_nat (i - (k + 1)))) by lia.
        done.
    + intros [? Hl]. destruct (decide (i = k)) as [->|].
      * left. rewrite Z.sub_diag in Hl. simpl in Hl. congruence.
      * right. split; [lia|].
        replace (Z.to_nat (i - k)) with (S (Z.to_nat (i - (k + 1)))) in Hl by lia. done.
Qed.

Lemma elem_of_enumerate {A} (l : list A) i x :
  (i, x) ∈ enumerate l ↔ at_index l i = Some x.
Proof.
  unfold enumerate, at_index. rewrite elem_of_zip_seqZ, Z.sub_0_r.
  case_bool_decide; [tauto|]. split; [intros [? _]; lia | done].
Qed.

Lemma length_enumerate {A} (l : list A) : length (enumerate l) = length l.
Proof.
  unfold enumerate. rewrite length_zip_with, length_seqZ. lia.
Qed.

Lemma length_bind_le {A B} (f : A → list B) (l : list A) (c : nat) :
  (∀ x, x ∈ l → (length (f x) ≤ c)%nat) → (length (l ≫= f) ≤ c * length l)%nat.
Proof.
  induction l as [|x l IH]; intros Hf; [simpl; lia|].
  rewrite bind_cons, length_app, length_cons.
  assert (length (f x) ≤ c)%nat by (apply Hf; left).
  assert (length (l ≫= f) ≤ c * length l)%nat by (apply IH; intros; apply Hf; by right).
  lia.
Qed.

Lemma elem_of_models_by_type lib t id :
  id ∈ models_by_type lib t ↔ ∃ m, find_model lib id = Some m ∧ cm_type m = t.
Proof.
  unfold models_by_type, find_model. rewrite list_elem_of_bind. split.
  - intros [[i m] [Hi Hin]]. simpl in Hi. apply elem_of_enumerate in Hin.
    case_bool_decide; [|by apply elem_of_nil in Hi].
    apply list_elem_of_singleton in Hi as ->. eauto.
  - intros (m & Hm & Ht). exists (id, m). simpl. rewrite bool_decide_true by done.
    split; [by apply list_elem_of_singleton | by apply elem_of_enumerate].
Qed.

Lemma size_models_by_type lib t : size (models_by_type lib t) ≤ num_models lib.
Proof.
  unfold size, num_models, models_by_type. apply Nat2Z.inj_le.
  etransitivity; [apply (length_bind_le _ _ 1%nat)|rewrite length_enumerate; lia].
  intros x _. case_bool_decide; simpl; lia.
Qed.

Lemma models_by_type_nil lib t :
  Forall (λ m, cm_type m ≠ t) (models lib) → models_by_type lib t = [].
Proof.
  intros Hall. destruct (models_by_type lib t) as [|id l] eqn:E; [done|].
  assert (id ∈ models_by_type lib t) as Hin by (rewrite E; left).
  apply elem_of_models_by_type in Hin as (m & Hm & Ht).
  unfold find_model, at_index in Hm. case_bool_decide; [|done].
  apply list_elem_of_lookup_2 in Hm. rewrite Forall_forall in Hall.
  by apply Hall in Hm.
Qed.

Lemma elem_of_ports lib id :
  id ∈ ports lib ↔ is_Some (find_port lib id).
Proof.
  unfold ports, find_port, find_model. rewrite list_elem_of_bind. split.
  - intros [[i m] [Hi Hin]]. simpl in Hi. apply elem_of_enumerate in Hin.
    apply list_elem_of_fmap in Hi as [[k p] [-> Hk]]. apply elem_of_enumerate in Hk.
    simpl. rewrite Hin. simpl. eauto.
  - intros [p Hp]. destruct id as [i k]. simpl in Hp.
    destruct (at_index (models lib) i) as [m|] eqn:Hm; [|done]. simpl in Hp.
    exists (i, m). split; [|by apply elem_of_enumerate].
    apply list_elem_of_fmap. exists (k, p). split; [done | by apply elem_of_enumerate].
Qed.

Lemma elem_of_model_ports_by_type lib model t ig id :
  id ∈ model_ports_by_type lib model t ig ↔
  id.1 = model ∧ ∃ p, find_port lib id = Some p ∧ cp_type p = t
                      ∧ (ig = true → cp_is_global p = false).
Proof.
  unfold model_ports_by_type, find_port.
  destruct (find_model lib model) as [m|] eqn:Hm.
  - rewrite list_elem_of_bind. split.
    + intros [[k p] [Hi Hin]]. simpl in Hi. apply elem_of_enumerate in Hin.
      destruct (bool_decide (cp_type p = t) && negb (ig && cp_is_global p)) eqn:Hc;
        [|by apply elem_of_nil in Hi].
      apply list_elem_of_singleton in Hi as ->. simpl. split; [done|].
      rewrite Hm. simpl. exists p. apply andb_true_iff in Hc as [Ht Hg].
      apply bool_decide_eq_true in Ht. split_and!; [done..|].
      intros ->. simpl in Hg. by destruct (cp_is_global p).
    + intros [<- (p & Hp & Ht & Hg)]. destruct id as [i k]. simpl in *.
      rewrite Hm in Hp. simpl in Hp. exists (k, p). simpl.
      split; [|by apply elem_of_enumerate].
      rewrite bool_decide_true by done. simpl.
      destruct ig; simpl; [rewrite Hg by done|]; simpl; by apply list_elem_of_singleton.
  - split; [by intros ?%elem_of_nil|].
    intros [<- (p & Hp & _)]. by rewrite Hm in Hp.
Qed.

Lemma find_model_is_Some lib i : 0 ≤ i < num_models lib → is_Some (find_model lib i).
Proof. apply at_index_is_Some. Qed.

Section accessors.
Context {E : Type} (lib : CircuitLibrary).

Lemma model_name_ret id m :
  find_model lib id = Some m → model_name (E:=E) lib id = ret (cm_name m).
Proof. unfold model_name. by intros ->. Qed.

Lemma model_prefix_ret id m :
  find_model lib id = Some m → model_prefix (E:=E) lib id = ret (cm_prefix m).
Proof. unfold model_prefix. by intros ->. Qed.

Lemma model_type_ret id m :
  find_model lib id = Some m → model_type (E:=E) lib id = ret (cm_type m).
Proof. unfold model_type. by intros ->. Qed.

Lemma find_port_model id p :
  find_port lib id = Some p → ∃ m, find_model lib id.1 = Some m.
Proof. unfold find_port. destruct (find_model lib id.1); [eauto | done]. Qed.
End accessors.

(** ** Counting checks return, and count no more than there is to count *)

Lemma steps_ret s b : 0 ≤ s → 0 ≤ b → steps (ret s) s b.
Proof. intros. exists s, []. split_and!; [done | lia.. | constructor]. Qed.

Lemma steps_weaken m s b b' : steps m s b → b ≤ b' → steps m s b'.
Proof.
  intros (v & log & -> & ? & ? & ?) ?. exists v, log. split_and!; [done | lia.. | done].
Qed.

Lemma steps_bind m f s b1 b2 :
  0 ≤ b2 → steps m s b1 → (∀ v, 0 ≤ v → steps (f v) v b2) →
  steps (bind m f) s (b1 + b2).
Proof.
  intros ? (v1 & l1 & -> & ? & ? & ?) Hf.
  destruct (Hf v1) as (v2 & l2 & Hv2 & ? & ? & ?); [lia|].
  exists v2, (l1 ++ l2). unfold bind. rewrite Hv2.
  split_and!; [done | lia.. | by apply Forall_app].
Qed.

Lemma steps_report e s :
  0 ≤ s → counted_error e = true → steps (emit e;; ret (incr s)) s 1.
Proof.
  intros. exists (incr s), [e]. unfold incr.
  pose proof (wrap64_range (s + 1)). pose proof (wrap64_le (s + 1)).
  split_and!; [done | lia.. | | by repeat constructor].
  intros. rewrite wrap64_small; unfold SIZE_MOD in *; lia.
Qed.

Lemma steps_add_errors s m b :
  0 ≤ s → steps m 0 b → steps (add_errors s m) s b.
Proof.
  intros ? (v & log & -> & ? & ? & ?). exists (wrap64 (s + v)), log.
  pose proof (wrap64_range (s + v)). pose proof (wrap64_le (s + v)).
  unfold add_errors. simpl. rewrite (right_id_L [] (++)).
  split_and!; [done | lia.. | | done].
  intros. rewrite wrap64_small; unfold SIZE_MOD in *; lia.
Qed.

Lemma steps_for_each {X} (body : X → Z → M message Z) xs s c :
  0 ≤ s → 0 ≤ c →
  (∀ x s', x ∈ xs → 0 ≤ s' → steps (body x s') s' c) →
  steps (for_each body xs s) s (c * size xs).
Proof.
  intros Hs Hc. revert s Hs. induction xs as [|x xs IH]; intros s Hs Hbody.
  - simpl. apply steps_ret; unfold size; simpl; lia.
  - simpl for_each. replace (c * size (x :: xs)) with (c + c * size xs)
      by (unfold size; simpl length; lia).
    apply steps_bind.
    + unfold size. lia.
    + apply Hbody; [left | done].
    + intros v Hv. apply IH; [done|]. intros. apply Hbody; [by right | done].
Qed.

Lemma steps_for_range (body : Z → Z → M message Z) lo hi s c :
  0 ≤ s → 0 ≤ c → lo ≤ hi →
  (∀ i s', lo ≤ i < hi → 0 ≤ s' → steps (body i s') s' c) →
  steps (for_range lo hi body s) s (c * (hi - lo)).
Proof.
  intros ??? Hbody. unfold for_range.
  replace (hi - lo) with (size (seqZ lo (hi - lo))) at 2
    by (unfold size; rewrite length_seqZ; lia).
  apply steps_for_each; [done..|].
  intros i s' Hi ?. apply Hbody; [|done]. apply elem_of_seqZ in Hi. lia.
Qed.

Lemma check_circuit_library_unique_names_steps lib :
  steps (check_circuit_library_unique_names lib) 0 (num_models lib * num_models lib).
Proof.
  assert (0 ≤ num_models lib) by (unfold num_models; lia).
  unfold check_circuit_library_unique_names.
  replace (num_models lib * num_models lib) with (num_models lib * (num_models lib - 0)) by lia.
  apply steps_for_range; [lia..|]. intros i s Hi Hs.
  case_bool_decide; [apply steps_ret; lia|].
  destruct (find_model_is_Some lib i) as [mi Hmi]; [lia|].
  rewrite (model_name_ret _ _ _ Hmi), bind_ret_l.
  eapply steps_weaken; [apply (steps_for_range _ _ _ _ 1); [lia..|]|lia].
  intros j s' Hj Hs'. destruct (find_model_is_Some lib j) as [mj Hmj]; [lia|].
  rewrite (model_name_ret _ _ _ Hmj), bind_ret_l.
  case_bool_decide; [apply steps_ret; lia | by apply steps_report].
Qed.

Lemma check_circuit_library_unique_prefix_steps lib :
  steps (check_circuit_library_unique_prefix lib) 0 (num_models lib * num_models lib).
Proof.
  assert (0 ≤ num_models lib) by (unfold num_models; lia).
  unfold check_circuit_library_unique_prefix.
  replace (num_models lib * num_models lib) with (num_models lib * (num_models lib - 0)) by lia.
  apply steps_for_range; [lia..|]. intros i s Hi Hs.
  case_bool_decide; [apply steps_ret; lia|].
  destruct (find_model_is_Some lib i) as [mi Hmi]; [lia|].
  rewrite (model_prefix_ret _ _ _ Hmi), bind_ret_l.
  eapply steps_weaken; [apply (steps_for_range _ _ _ _ 1); [lia..|]|lia].
  intros j s' Hj Hs'. destruct (find_model_is_Some lib j) as [mj Hmj]; [lia|].
  rewrite (model_prefix_ret _ _ _ Hmj), bind_ret_l.
  case_bool_decide; [apply steps_ret; lia|].
  rewrite (model_name_ret _ _ _ Hmi), bind_ret_l.
  rewrite (model_name_ret _ _ _ Hmj), bind_ret_l.
  by apply steps_report.
Qed.

Lemma check_circuit_library_ports_steps lib :
  steps (check_circuit_library_ports lib) 0 (2 * size (ports lib)).
Proof.
  assert (0 ≤ size (ports lib)) by (unfold size; lia).
  unfold check_circuit_library_ports.
  replace (2 * size (ports lib)) with (1 * size (ports lib) + 1 * size (ports lib)) by lia.
  apply steps_bind; [lia| |intros v Hv]; (apply steps_for_each; [lia..|]);
    intros port s Hport Hs; apply elem_of_ports in Hport as [p Hp];
    destruct (find_port_model _ _ _ Hp) as [m Hm];
    unfold port_is_global, is_input_port, port_is_set, port_is_reset,
      port_is_config_enable, port_type, port_model_name, model_name;
    rewrite Hp, Hm; simpl.
  - destruct (cp_is_global p), (bool_decide (cp_type p = SPICE_MODEL_PORT_INPUT)); simpl;
      first [by apply steps_ret | by apply (steps_report _ s)].
  - destruct (cp_is_set p), (cp_is_reset p), (cp_is_config_enable p), (cp_is_global p); simpl;
      first [by apply steps_ret | by apply (steps_report _ s)].
Qed.

Lemma check_circuit_model_required_steps lib t :
  steps (check_circuit_model_required lib t) 0 1.
Proof.
  unfold check_circuit_model_required.
  case_bool_decide; [by apply steps_report | by apply steps_ret].
Qed.

Lemma check_one_circuit_model_port_required_steps lib id m types :
  find_model lib id = Some m →
  steps (check_one_circuit_model_port_required lib id types) 0 (1 * size types).
Proof.
  intros Hm. unfold check_one_circuit_model_port_required.
  apply steps_for_each; [lia..|]. intros pt s _ Hs.
  case_bool_decide; [|by apply steps_ret].
  rewrite (model_type_ret _ _ _ Hm), bind_ret_l, (model_name_ret _ _ _ Hm), bind_ret_l.
  by apply steps_report.
Qed.

Lemma check_circuit_model_port_required_steps lib t types :
  steps (check_circuit_model_port_required lib t types) 0 (size types * num_models lib).
Proof.
  assert (0 ≤ size types) by (unfold size; lia).
  pose proof (size_models_by_type lib t).
  unfold check_circuit_model_port_required.
  eapply steps_weaken; [apply (steps_for_each _ _ _ (size types)); [lia..|]|nia].
  intros id s Hid Hs. apply elem_of_models_by_type in Hid as (m & Hm & _).
  apply steps_add_errors; [done|].
  eapply steps_weaken; [by eapply check_one_circuit_model_port_required_steps | lia].
Qed.

(** Splits a chain of [num_err += check(...)] statements. *)
Ltac steps_chain :=
  lazymatch goal with
  | |- steps (add_errors _ _) _ _ => apply steps_add_errors; [done|]
  | |- steps (if _ then _ else _) _ _ =>
      destruct (_ && _); [by apply steps_report | apply steps_ret; [done|]]
  | |- steps (bind _ _) _ _ => apply steps_bind; [ | steps_chain | intros ? ?; steps_chain]
  end.

(** [check_circuit_library] is its two blocks, one after the other. *)
Lemma check_circuit_library_blocks lib :
  check_circuit_library lib
  = (emit INFO_checking_circuit_models;;
     let* num_err := accumulated_checks lib 0 in
     let* num_err := default_model_checks lib num_err in
     emit (INFO_finished_checking num_err);;
     if bool_decide (0 < num_err) then exit 1 else ret ()).
Proof.
  unfold check_circuit_library, accumulated_checks, default_model_checks.
  apply bind_ext. intros _.
  repeat (rewrite ?bind_assoc; apply bind_ext; intros ?).
  done.
Qed.

(** The checks that follow the name check, and how much they can add. *)
Lemma accumulated_checks_after_names lib :
  ∃ rest : Z → M message Z,
    (∀ s, accumulated_checks lib s
          = (let* s' := add_errors s (check_circuit_library_unique_names lib) in rest s')) ∧
    (∀ s, 0 ≤ s →
       steps (rest s) s
         (num_models lib * num_models lib + 18 * num_models lib + 2 * size (ports lib) + 3)).
Proof.
  eexists. split; [intros s; unfold accumulated_checks; reflexivity|].
  intros s Hs. assert (0 ≤ num_models lib) by (unfold num_models; lia).
  assert (0 ≤ size (ports lib)) by (unfold size; lia).
  eapply steps_weaken.
  - steps_chain.
    all: first [ apply check_circuit_library_unique_prefix_steps
               | apply check_circuit_library_ports_steps
               | apply check_circuit_model_required_steps
               | apply check_circuit_model_port_required_steps
               | idtac ].
    all: unfold size, iopad_port_types_required, mux_port_types_required,
           sram_port_types_required, scff_port_types_required, ff_port_types_required,
           lut_port_types_required; simpl length; lia.
  - unfold size, iopad_port_types_required, mux_port_types_required,
      sram_port_types_required, scff_port_types_required, ff_port_types_required,
      lut_port_types_required. simpl length. lia.
Qed.

Lemma accumulated_checks_steps lib s :
  0 ≤ s →
  steps (accumulated_checks lib s) s
    (2 * (num_models lib * num_models lib) + 18 * num_models lib + 2 * size (ports lib) + 3).
Proof.
  intros Hs. destruct (accumulated_checks_after_names lib) as (rest & -> & Hrest).
  assert (0 ≤ num_models lib) by (unfold num_models; lia).
  assert (0 ≤ size (ports lib)) by (unfold size; lia).
  eapply steps_weaken.
  - apply steps_bind; [|apply steps_add_errors;
      [done | apply check_circuit_library_unique_names_steps]|apply Hrest]. nia.
  - lia.
Qed.

(** ** Check 10: a missing default model is fatal *)

(** C1.  If one of the types MUX, CHAN_WIRE, WIRE (checked in that order)
    has no default circuit model, then at the first such type [t] the pass
    calls [exit(1)] on the spot: whatever checks 1 to 9 counted and printed
    ([errs], possibly nothing), the trace ends with the diagnostic for [t];
    the default-model checks of the later types do not run, and the final
    "Finished checking" line is never printed. *)
Theorem missing_default_model_is_fatal lib pre t post :
  required_default_types = pre ++ t :: post →
  Forall (λ t', is_Some (default_model lib t')) pre →
  default_model lib t = None →
  ∃ errs,
    let trace := INFO_checking_circuit_models :: errs ++ [ERROR_no_default_model t] in
    check_circuit_library lib = (Exited 1, trace) ∧
    Forall (λ msg, counted_error msg = true) errs ∧
    (∀ t', ERROR_no_default_model t' ∈ trace → t' = t) ∧
    (∀ n, INFO_finished_checking n ∉ trace).
Proof.
  intros Hreq Hpre Ht.
  destruct (accumulated_checks_steps lib 0) as (v & errs & Hacc & _ & _ & Herrs); [done|].
  assert (default_model_checks lib v = (Exited 1, [ERROR_no_default_model t])) as Hdef.
  { unfold default_model_checks, check_required_default_circuit_model, add_errors.
    unfold required_default_types in Hreq.
    destruct pre as [|a [|b [|c pre]]]; simplify_eq/=.
    - by rewrite Ht.
    - apply Forall_cons in Hpre as [[? ->] _]. simpl. by rewrite Ht.
    - apply Forall_cons in Hpre as [[? ->] Hpre].
      apply Forall_cons in Hpre as [[? ->] _]. simpl. by rewrite Ht.
    - by destruct pre. }
  exists errs. simpl. split_and!.
  - rewrite check_circuit_library_blocks, Hacc. simpl. by rewrite Hdef.
  - done.
  - intros t' [?|Hin]%elem_of_cons; [done|].
    apply elem_of_app in Hin as [Hin|Hin].
    + rewrite Forall_forall in Herrs. by apply Herrs in Hin.
    + apply list_elem_of_singleton in Hin. congruence.
  - intros n [?|Hin]%elem_of_cons; [done|].
    apply elem_of_app in Hin as [Hin|Hin].
    + rewrite Forall_forall in Herrs. by apply Herrs in Hin.
    + by apply list_elem_of_singleton in Hin.
Qed.

(** ** Checks 1 and 2 on catalogs with fewer than two models *)

(** C10.  On a catalog with fewer than two models the unique-name and the
    unique-prefix checks return 0 and print nothing.  Looking up a model id
    that is out of range is a fault in this model, so returning shows that no
    such lookup happened.  For the empty catalog [num_models() - 1] wraps to
    the largest [size_t] and every lookup would be out of range: the checks
    return all the same, because no loop body runs. *)
Theorem unique_checks_on_small_catalogs lib :
  num_models lib < 2 →
  check_circuit_library_unique_names lib = (Returned 0, []) ∧
  check_circuit_library_unique_prefix lib = (Returned 0, []) ∧
  (num_models lib = 0 →
     wrap64 (num_models lib - 1) = SIZE_MOD - 1 ∧
     ∀ i, model_name (E:=message) lib i = fault ∧ model_prefix (E:=message) lib i = fault).
Proof.
  destruct lib as [[|m [|m' ms]]]; unfold num_models; simpl; intros Hn.
  - split_and!; [done..|]. intros _. split; [done|].
    intros i. unfold model_name, model_prefix, find_model, at_index. simpl.
    by case_bool_decide.
  - split_and!; [done..|]. lia.
  - lia.
Qed.

(** ** Check 1: duplicate names *)

Lemma size_app {A} (l1 l2 : list A) : size (l1 ++ l2) = size l1 + size l2.
Proof. unfold size. rewrite length_app. lia. Qed.

Lemma size_nonneg {A} (l : list A) : 0 ≤ size l.
Proof. unfold size. lia. Qed.

Lemma find_model_middle lib pre m t :
  models lib = pre ++ m :: t → find_model lib (size pre) = Some m.
Proof. intros Hl. unfold find_model. by rewrite Hl, at_index_app_r. Qed.

Lemma bind_report {E A B} (e : E) (v : A) (f : A → M E B) :
  (let* x := (emit e;; ret v) in f x) = ((f v).1, e :: (f v).2).
Proof. unfold bind, emit, ret. simpl. by destruct (f v). Qed.

(** The inner loop, entered at [j0] with the remaining models [t]. *)
Lemma unique_names_inner lib i a pre t j0 s :
  models lib = pre ++ t → j0 = size pre → 0 ≤ s < SIZE_MOD →
  for_range j0 (num_models lib) (λ j num_err,
    let* j_name := model_name lib j in
    if bool_decide (a ≠ j_name) then ret num_err else
    (emit (ERROR_same_name i j a);; ret (incr num_err))) s
  = (Returned (wrap64 (s + size (same_from a j0 (cm_name <$> t)))),
     (λ j, ERROR_same_name i j a) <$> same_from a j0 (cm_name <$> t)).
Proof.
  revert pre j0 s. induction t as [|m t IH]; intros pre j0 s Hl -> Hs.
  - rewrite for_range_nil.
    + simpl. unfold size. simpl. by rewrite Z.add_0_r, wrap64_small.
    + unfold num_models. rewrite Hl, (right_id_L [] (++)). done.
  - rewrite for_range_step
      by (unfold num_models, size; rewrite Hl, length_app; simpl; lia).
    rewrite (model_name_ret _ _ _ (find_model_middle _ _ _ _ Hl)), bind_ret_l.
    assert (models lib = (pre ++ [m]) ++ t) as Hl' by (by rewrite <-(assoc_L (++))).
    assert (size pre + 1 = size (pre ++ [m])) as Hsz by (by rewrite size_app).
    rewrite fmap_cons. simpl same_from. destruct (decide (a = cm_name m)) as [Heq|Hne].
    + rewrite bool_decide_false by (by intros ?).
      rewrite Hsz, bind_report.
      rewrite (IH (pre ++ [m]) _ (incr s) Hl' eq_refl) by apply wrap64_range.
      unfold incr. rewrite wrap64_add_l, fmap_cons. cbn [fst snd].
      do 3 f_equal. unfold size. simpl length. lia.
    + rewrite bool_decide_true by done. rewrite bind_ret_l, Hsz.
      by rewrite (IH (pre ++ [m]) _ s Hl' eq_refl).
Qed.

(** The outer loop, entered at [i0] with the remaining models [t]. *)
Lemma unique_names_outer lib pre t i0 s :
  models lib = pre ++ t → i0 = size pre → num_models lib < SIZE_MOD → 0 ≤ s < SIZE_MOD →
  for_range i0 (num_models lib) (λ i num_err,
    if bool_decide (i = wrap64 (num_models lib - 1)) then ret num_err else
    let* i_name := model_name lib i in
    for_range (i + 1) (num_models lib) (λ j num_err,
      let* j_name := model_name lib j in
      if bool_decide (i_name ≠ j_name) then ret num_err else
      (emit (ERROR_same_name i j i_name);;
       ret (incr num_err))) num_err) s
  = (Returned (wrap64 (s + size (duplicate_pairs i0 (cm_name <$> t)))),
     same_name_error <$> duplicate_pairs i0 (cm_name <$> t)).
Proof.
  intros Hl Hi0 Hn. revert pre i0 s Hl Hi0.
  induction t as [|m t IH]; intros pre i0 s Hl -> Hs.
  - rewrite for_range_nil.
    + simpl. unfold size. simpl. by rewrite Z.add_0_r, wrap64_small.
    + unfold num_models. rewrite Hl, (right_id_L [] (++)). done.
  - assert (num_models lib = size pre + 1 + size t) as Hnum
      by (unfold num_models, size; rewrite Hl, length_app; simpl; lia).
    pose proof (size_nonneg pre). pose proof (size_nonneg t).
    rewrite for_range_step by lia.
    assert (models lib = (pre ++ [m]) ++ t) as Hl' by (by rewrite <-(assoc_L (++))).
    assert (size pre + 1 = size (pre ++ [m])) as Hsz by (by rewrite size_app).
    rewrite fmap_cons. simpl duplicate_pairs. case_bool_decide as Hlast.
    + (* the last model: nothing is left to compare it with *)
      rewrite wrap64_small in Hlast by lia.
      assert (t = []) as -> by (destruct t; [done | unfold size in *; simpl in *; lia]).
      rewrite bind_ret_l, for_range_nil by lia. simpl.
      unfold size. simpl. by rewrite Z.add_0_r, wrap64_small.
    + rewrite (model_name_ret _ _ _ (find_model_middle _ _ _ _ Hl)), bind_ret_l.
      rewrite Hsz. rewrite (unique_names_inner _ _ _ _ _ _ _ Hl' eq_refl Hs).
      rewrite bind_returned.
      rewrite (IH (pre ++ [m]) _ _ Hl' eq_refl) by apply wrap64_range.
      cbn [fst snd]. rewrite wrap64_add_l, fmap_app, <-list_fmap_compose.
      f_equal. do 2 f_equal. unfold size. rewrite !length_app, length_fmap. lia.
Qed.

Lemma length_same_from a j l : (length (same_from a j l) ≤ length l)%nat.
Proof.
  revert j. induction l as [|b l IH]; intros j; simpl; [lia|].
  specialize (IH (j + 1)). case_decide; simpl; lia.
Qed.

Lemma length_duplicate_pairs i l :
  (length (duplicate_pairs i l) ≤ length l * length l)%nat.
Proof.
  revert i. induction l as [|a l IH]; intros i; simpl; [lia|].
  rewrite length_app, length_fmap.
  pose proof (length_same_from a (i + 1) l). specialize (IH (i + 1)). nia.
Qed.

(** What check 1 returns and prints. *)
Lemma check_circuit_library_unique_names_exact lib :
  num_models lib < 2 ^ 31 →
  check_circuit_library_unique_names lib
  = (Returned (size (duplicate_pairs 0 (cm_name <$> models lib))),
     same_name_error <$> duplicate_pairs 0 (cm_name <$> models lib)).
Proof.
  intros Hn. unfold check_circuit_library_unique_names.
  rewrite (unique_names_outer lib [] (models lib) 0 0); [|done|done|unfold SIZE_MOD; lia|done].
  rewrite Z.add_0_l, wrap64_small; [done|].
  pose proof (length_duplicate_pairs 0 (cm_name <$> models lib)) as Hlen.
  rewrite length_fmap in Hlen. unfold size, num_models, SIZE_MOD in *. nia.
Qed.

(** Which pairs are reported: every pair of positions with equal names,
    once. *)
Lemma elem_of_same_from a j0 l j :
  j ∈ same_from a j0 l ↔ ∃ k : nat, j = j0 + Z.of_nat k ∧ l !! k = Some a.
Proof.
  revert j0. induction l as [|b l IH]; intros j0; simpl.
  - split; [by intros ?%elem_of_nil | by intros (k & _ & ?)].
  - assert (j ∈ same_from a (j0 + 1) l ↔
            ∃ k : nat, j = j0 + Z.of_nat (S k) ∧ (b :: l) !! S k = Some a) as IH'.
    { rewrite IH. simpl. split; intros (k & -> & ?); exists k; split; [lia|done|lia|done]. }
    case_decide as Hab.
    + rewrite elem_of_cons, IH'. split.
      * intros [->|(k & ? & ?)]; [exists 0%nat|exists (S k)]; subst; split; simpl; try done; lia.
      * intros ([|k] & -> & Hk); [left; lia | right; eauto].
    + rewrite IH'. split.
      * intros (k & ? & ?). eauto.
      * intros ([|k] & -> & Hk); [simpl in Hk; congruence | eauto].
Qed.

Lemma elem_of_duplicate_pairs i0 l i j a :
  (i, j, a) ∈ duplicate_pairs i0 l ↔
  ∃ x y : nat, i = i0 + Z.of_nat x ∧ j = i0 + Z.of_nat y ∧ (x < y)%nat ∧
               l !! x = Some a ∧ l !! y = Some a.
Proof.
  revert i0. induction l as [|b l IH]; intros i0; simpl.
  - split; [by intros ?%elem_of_nil | by intros (x & y & _ & _ & _ & ? & _)].
  - rewrite elem_of_app, list_elem_of_fmap, IH. split.
    + intros [(j' & [= -> -> ->] & Hj)|(x & y & -> & -> & ? & ? & ?)].
      * apply elem_of_same_from in Hj as (k & -> & Hk).
        exists 0%nat, (S k). split_and!; simpl; try done; lia.
      * exists (S x), (S y). split_and!; simpl; try done; lia.
    + intros ([|x] & [|y] & -> & -> & Hxy & Hx & Hy); try lia; simpl in Hx, Hy.
      * left. exists (i0 + Z.of_nat (S y)). simplify_eq. split; [do 2 f_equal; lia|].
        apply elem_of_same_from. exists y. split; [lia | done].
      * right. exists x, y. split_and!; try done; lia.
Qed.

Lemma same_from_lower a j0 l j : j ∈ same_from a j0 l → j0 ≤ j.
Proof. intros (k & -> & _)%elem_of_same_from. lia. Qed.

Lemma NoDup_same_from a j0 l : NoDup (same_from a j0 l).
Proof.
  revert j0. induction l as [|b l IH]; intros j0; simpl; [constructor|].
  case_decide; [|done]. constructor; [|done].
  intros ?%same_from_lower. lia.
Qed.

Lemma NoDup_duplicate_pairs i0 l : NoDup (duplicate_pairs i0 l).
Proof.
  revert i0. induction l as [|b l IH]; intros i0; simpl; [constructor|].
  apply NoDup_app. split_and!; [| |done].
  - apply NoDup_fmap_2; [|apply NoDup_same_from]. by intros ?? [= ->].
  - intros [[i j] a] (j' & [= -> -> ->] & _)%list_elem_of_fmap
      (x & y & ? & _)%elem_of_duplicate_pairs. lia.
Qed.

Lemma choose2_S k : choose2 (S k) = (k + choose2 k)%nat.
Proof.
  unfold choose2. replace (S k * (S k - 1))%nat with (k * (k - 1) + k * 2)%nat.
  - rewrite Nat.div_add by done. lia.
  - destruct k; simpl; lia.
Qed.

Lemma length_same_from_filter a j0 l :
  length (same_from a j0 l) = length (filter (λ b, b = a) l).
Proof.
  revert j0. induction l as [|b l IH]; intros j0; [done|].
  simpl. rewrite filter_cons. case_decide; case_decide; simpl; try congruence; by rewrite IH.
Qed.

Lemma filter_pairs_of_name a i b (js : list Z) :
  filter (λ e : Z * Z * string, e.2 = a) ((λ j, (i, j, b)) <$> js)
  = if decide (b = a) then (λ j, (i, j, b)) <$> js else [].
Proof.
  induction js as [|j js IH]; [by case_decide|].
  rewrite fmap_cons, filter_cons, IH. simpl. by case_decide.
Qed.

(** Among the reported pairs, those for one name are as many as there are
    unordered pairs of models carrying it. *)
Lemma duplicate_pairs_of_name a i0 l :
  length (filter (λ e : Z * Z * string, e.2 = a) (duplicate_pairs i0 l))
  = choose2 (length (filter (λ b, b = a) l)).
Proof.
  revert i0. induction l as [|b l IH]; intros i0; [done|].
  simpl. rewrite filter_app, length_app, IH, filter_cons, filter_pairs_of_name.
  case_decide as Hb.
  - subst b. simpl. rewrite choose2_S, length_fmap. f_equal.
    apply length_same_from_filter.
  - done.
Qed.

Lemma default_model_checks_registered lib v :
  Forall (λ t, is_Some (default_model lib t)) required_default_types →
  0 ≤ v < SIZE_MOD →
  default_model_checks lib v = ret v.
Proof.
  intros Hall Hv. unfold required_default_types in Hall.
  apply Forall_cons in Hall as [[? Hmux] Hall].
  apply Forall_cons in Hall as [[? Hchan] Hall].
  apply Forall_cons in Hall as [[? Hwire] _].
  unfold default_model_checks, check_required_default_circuit_model, add_errors.
  rewrite Hmux, Hchan, Hwire. simpl.
  by rewrite !Z.add_0_r, !(wrap64_small v) by done.
Qed.

Lemma choose2_pos k : (2 ≤ k)%nat → (1 ≤ choose2 k)%nat.
Proof.
  intros. destruct k as [|[|k]]; [lia..|]. rewrite choose2_S. lia.
Qed.

(** C2.  Take a catalog in which [k >= 2] models share the name [name].  The
    name check reports the pairs [i < j] of models with equal names, each
    pair once ([pairs] has no duplicates and holds exactly those pairs), and
    returns their number; [C(k,2) = k(k-1)/2] of them are for [name].  With
    the required default models registered, the pass prints these errors,
    those of the later checks ([rest]), the final count, and exits with 1. *)
Theorem duplicate_names_counted_per_pair lib name k :
  fits_size_t lib →
  models_named lib name = k → (2 ≤ k)%nat →
  Forall (λ t, is_Some (default_model lib t)) required_default_types →
  ∃ pairs rest total,
    check_circuit_library_unique_names lib
      = (Returned (size pairs), same_name_error <$> pairs) ∧
    NoDup pairs ∧
    (∀ i j a, (i, j, a) ∈ pairs ↔
       0 ≤ i < j ∧ cm_name <$> find_model lib i = Some a
                 ∧ cm_name <$> find_model lib j = Some a) ∧
    length (filter (λ e : Z * Z * string, e.2 = name) pairs) = choose2 k ∧
    choose2 k = (k * (k - 1) / 2)%nat ∧
    check_circuit_library lib
      = (Exited 1, INFO_checking_circuit_models :: (same_name_error <$> pairs)
                     ++ rest ++ [INFO_finished_checking total]) ∧
    size pairs ≤ total.
Proof.
  intros [Hn Hp] Hk Hk2 Hdef.
  set (pairs := duplicate_pairs 0 (cm_name <$> models lib)).
  assert (0 ≤ num_models lib) by (unfold num_models; lia).
  assert (0 ≤ size (ports lib)) by apply size_nonneg.
  assert (check_circuit_library_unique_names lib
          = (Returned (size pairs), same_name_error <$> pairs)) as Hnames
    by (apply check_circuit_library_unique_names_exact; lia).
  assert (length (filter (λ e : Z * Z * string, e.2 = name) pairs) = choose2 k) as Hcount.
  { unfold pairs. rewrite duplicate_pairs_of_name. f_equal. rewrite <-Hk.
    unfold models_named. clear. induction (models lib) as [|m l IH]; [done|].
    rewrite fmap_cons, !filter_cons. simpl. case_decide; simpl; by rewrite IH. }
  assert (1 ≤ size pairs ≤ num_models lib * num_models lib) as Hsize.
  { pose proof (choose2_pos k Hk2).
    pose proof (length_filter (λ e : Z * Z * string, e.2 = name) pairs).
    pose proof (length_duplicate_pairs 0 (cm_name <$> models lib)) as Hlen.
    rewrite length_fmap in Hlen. fold pairs in Hlen. unfold size, num_models. nia. }
  destruct (accumulated_checks_after_names lib) as (after & Hacc & Hafter).
  destruct (Hafter (size pairs)) as (total & rest & Hrest & Htotal & Hmono & _); [lia|].
  assert (size pairs + (num_models lib * num_models lib + 18 * num_models lib
                        + 2 * size (ports lib) + 3) < SIZE_MOD) as Hfit
    by (unfold SIZE_MOD; nia).
  exists pairs, rest, total. split_and!; [done| |  |done|done| |lia].
  - apply NoDup_duplicate_pairs.
  - intros i j a. unfold pairs. rewrite elem_of_duplicate_pairs. unfold find_model. split.
    + intros (x & y & -> & -> & ? & Hx & Hy). rewrite !Z.add_0_l, !at_index_nat.
      rewrite !list_lookup_fmap in Hx, Hy. split_and!; [lia..|done|done].
    + intros ([? ?] & Hi & Hj). exists (Z.to_nat i), (Z.to_nat j).
      rewrite !list_lookup_fmap. unfold at_index in Hi, Hj.
      rewrite !bool_decide_true in Hi, Hj by lia. split_and!; [lia..|done|done].
  - rewrite check_circuit_library_blocks. unfold emit. rewrite Hacc, Hnames.
    unfold add_errors, ret.
    rewrite !bind_returned. cbn [fst snd]. rewrite Z.add_0_l.
    rewrite (wrap64_small (size pairs)) by lia.
    run_binds. rewrite Hrest. run_binds.
    rewrite (default_model_checks_registered lib total Hdef) by lia.
    unfold ret. run_binds.
    rewrite bool_decide_true by lia. unfold exit. run_binds.
    simpl. by rewrite !(right_id_L [] (++)), <-(assoc_L (++)).
Qed.

(** ** The ports a port-count-and-width check looks at *)

Lemma find_port_at lib model m k :
  find_model lib model = Some m → find_port lib (model, k) = at_index (cm_ports m) k.
Proof. unfold find_port. simpl. by intros ->. Qed.

(** The ids returned by [model_ports_by_type] name, in order, the ports of
    the model that have the type asked for. *)
Lemma model_ports_by_type_ports lib model m t ig :
  find_model lib model = Some m →
  Forall2 (λ pid p, find_port lib pid = Some p)
    (model_ports_by_type lib model t ig) (ports_of_type m t ig).
Proof.
  intros Hm. unfold model_ports_by_type, ports_of_type, enumerate. rewrite Hm.
  assert (∀ pre l k, cm_ports m = pre ++ l → k = size pre →
    Forall2 (λ pid p, find_port lib pid = Some p)
      (zip (seqZ k (Z.of_nat (length l))) l ≫= (λ ip : Z * CircuitPort,
         if bool_decide (cp_type ip.2 = t) && negb (ig && cp_is_global ip.2)
         then [(model, ip.1)] else []))
      (filter (λ p, cp_type p = t ∧ (ig = true → cp_is_global p = false)) l)) as Hgen.
  { intros pre l. revert pre. induction l as [|x l IH]; intros pre k Hl ->.
    - constructor.
    - change (length (x :: l)) with (S (length l)).
      rewrite zip_seqZ_cons, bind_cons, filter_cons. cbn [fst snd].
      assert (Forall2 (λ pid p, find_port lib pid = Some p)
        (zip (seqZ (size pre + 1) (Z.of_nat (length l))) l ≫= (λ ip : Z * CircuitPort,
           if bool_decide (cp_type ip.2 = t) && negb (ig && cp_is_global ip.2)
           then [(model, ip.1)] else []))
        (filter (λ p, cp_type p = t ∧ (ig = true → cp_is_global p = false)) l)) as Htl.
      { apply (IH (pre ++ [x])); [by rewrite <-(assoc_L (++)) | by rewrite size_app]. }
      destruct (decide (cp_type x = t ∧ (ig = true → cp_is_global x = false))) as [HP|HP].
      + destruct HP as [Ht Hg]. rewrite bool_decide_true by done.
        replace (negb (ig && cp_is_global x)) with true
          by (destruct ig; [rewrite Hg by done|]; done).
        simpl. constructor; [|done].
        by rewrite (find_port_at _ _ _ _ Hm), Hl, at_index_app_r.
      + replace (bool_decide (cp_type x = t) && negb (ig && cp_is_global x)) with false; [done|].
        symmetry. apply not_true_iff_false. intros [Ht Hg]%andb_true_iff.
        apply HP. apply bool_decide_eq_true in Ht. split; [done|].
        intros ->. by destruct (cp_is_global x). }
  by apply (Hgen [] (cm_ports m) 0).
Qed.

Lemma size_ports_of_type m t ig : size (ports_of_type m t ig) ≤ size (cm_ports m).
Proof.
  unfold size, ports_of_type. apply Nat2Z.inj_le, length_filter.
Qed.

(** ** The checker on the example catalogs *)

Lemma missing_default_model_is_fatal_witness :
  ∃ errs,
    let trace := INFO_checking_circuit_models :: errs
                   ++ [ERROR_no_default_model SPICE_MODEL_WIRE] in
    check_circuit_library catalog_without_default_wire = (Exited 1, trace) ∧
    Forall (λ msg, counted_error msg = true) errs ∧
    (∀ t', ERROR_no_default_model t' ∈ trace → t' = SPICE_MODEL_WIRE) ∧
    (∀ n, INFO_finished_checking n ∉ trace).
Proof.
  apply (missing_default_model_is_fatal catalog_without_default_wire
           [SPICE_MODEL_MUX; SPICE_MODEL_CHAN_WIRE] SPICE_MODEL_WIRE []).
  - reflexivity.
  - repeat constructor; vm_compute; eauto.
  - reflexivity.
Defined.

Lemma unique_checks_on_small_catalogs_witness :
  check_circuit_library_unique_names single_model_catalog = (Returned 0, []) ∧
  check_circuit_library_unique_prefix single_model_catalog = (Returned 0, []) ∧
  (num_models single_model_catalog = 0 →
     wrap64 (num_models single_model_catalog - 1) = SIZE_MOD - 1 ∧
     ∀ i, model_name (E:=message) single_model_catalog i = fault
          ∧ model_prefix (E:=message) single_model_catalog i = fault).
Proof.
  apply (unique_checks_on_small_catalogs single_model_catalog). vm_compute. reflexivity.
Defined.

Lemma duplicate_names_counted_per_pair_witness :
  ∃ pairs rest total,
    check_circuit_library_unique_names catalog_with_three_namesakes
      = (Returned (size pairs), same_name_error <$> pairs) ∧
    NoDup pairs ∧
    (∀ i j a, (i, j, a) ∈ pairs ↔
       0 ≤ i < j ∧ cm_name <$> find_model catalog_with_three_namesakes i = Some a
                 ∧ cm_name <$> find_model catalog_with_three_namesakes j = Some a) ∧
    length (filter (λ e : Z * Z * string, e.2 = "mux_2level") pairs) = choose2 3 ∧
    choose2 3 = (3 * (3 - 1) / 2)%nat ∧
    check_circuit_library catalog_with_three_namesakes
      = (Exited 1, INFO_checking_circuit_models :: (same_name_error <$> pairs)
                     ++ rest ++ [INFO_finished_checking total]) ∧
    size pairs ≤ total.
Proof.
  apply (duplicate_names_counted_per_pair catalog_with_three_namesakes "mux_2level" 3).
  - split; vm_compute; reflexivity.
  - vm_compute. reflexivity.
  - lia.
  - repeat constructor; vm_compute; eauto.
Defined.


(** * Part V: properties of the pre-configured top module writer *)

(** ** Loops that only print *)

Lemma for_each_prints {E X} (body : X → unit → M E unit) (g : X → list E) xs :
  (∀ x, x ∈ xs → body x () = (Returned (), g x)) →
  for_each body xs () = (Returned (), xs ≫= g).
Proof.
  induction xs as [|x xs IH]; intros Hbody; [done|].
  simpl for_each. rewrite Hbody by left. run_binds.
  rewrite IH by (intros; apply Hbody; by right). by rewrite bind_cons.
Qed.

Lemma for_each_returns {E X} (body : X → unit → M E unit) xs :
  Forall (λ x, (body x ()).1 = Returned ()) xs →
  for_each body xs () = (Returned (), xs ≫= (λ x, (body x ()).2)).
Proof.
  intros Hall. apply for_each_prints. intros x Hx.
  rewrite Forall_forall in Hall. specialize (Hall x Hx).
  destruct (body x ()) as [r l]. simpl in *. by subst.
Qed.

Lemma length_bind_const {A B} (f : A → list B) (l : list A) (c : nat) :
  (∀ x, x ∈ l → length (f x) = c) → length (l ≫= f) = (length l * c)%nat.
Proof.
  induction l as [|x l IH]; intros Hf; [done|].
  rewrite bind_cons, length_app, length_cons, IH, Hf;
    [lia | left | intros; apply Hf; by right].
Qed.

(** ** Ports *)

Lemma BasicPort_range_bit name i :
  BasicPort_range name i i = {| bp_name := name; bp_lsb := i; bp_msb := i |}.
Proof. unfold BasicPort_range, set_width. by rewrite bool_decide_false by lia. Qed.

Lemma set_width_bit p i : set_width p i i = port_bit p i.
Proof. unfold set_width, port_bit. by rewrite bool_decide_false by lia. Qed.

Lemma get_width_bit name i :
  get_width {| bp_name := name; bp_lsb := i; bp_msb := i |} = 1.
Proof. unfold get_width, is_valid. simpl. rewrite bool_decide_true by lia. lia. Qed.

Lemma get_width_nonneg p : 0 ≤ get_width p.
Proof. unfold get_width, is_valid. case_bool_decide; lia. Qed.

Lemma length_pins p : length (pins p) = Z.to_nat (get_width p).
Proof. unfold pins. apply length_seqZ. Qed.

(** ** Global ports *)

Section global_ports.
Context (postfix : string) (lib : CircuitLibrary).
Context (global_ports : list (Z * Z)) (clocks : list string).

(** The whole pass prints, between its two banners, what each global port
    of the top module prints, in the order of the ports. *)
Lemma connect_global_ports_trace mm top module_global_ports :
  module_ports_by_type (E:=verilog) mm top MODULE_GLOBAL_PORT = ret module_global_ports →
  Forall (λ q, (connect_global_port postfix lib global_ports clocks q).1 = Returned ()) module_global_ports →
  print_verilog_preconfig_top_module_connect_global_ports
    postfix mm top lib global_ports clocks
  = (Returned (),
     print_verilog_comment "----- Begin Connect Global ports of FPGA top module -----"
       :: (module_global_ports ≫= (λ q, (connect_global_port postfix lib global_ports clocks q).2))
       ++ [print_verilog_comment "----- End Connect Global ports of FPGA top module -----";
           endl]).
Proof.
  intros Hports Hall. unfold print_verilog_preconfig_top_module_connect_global_ports.
  rewrite Hports. unfold emit, ret. run_binds.
  rewrite (for_each_returns _ _ Hall). run_binds. simpl.
  by rewrite ?(right_id_L [] (++)).
Qed.

Lemma connect_global_port_clock p id cp :
  find_linked_circuit_port lib (get_name p) global_ports = ret (Some id) →
  find_port lib id = Some cp →
  get_width p = cp_size cp →
  cp_type cp = SPICE_MODEL_PORT_CLOCK → cp_is_prog cp = false →
  connect_global_port postfix lib global_ports clocks p = (Returned (), clock_connections postfix clocks p).
Proof.
  intros Hlinked Hcp Hw Ht Hprog. unfold connect_global_port.
  rewrite Hlinked, bind_ret_l. unfold port_size, port_type, port_is_prog.
  rewrite Hcp. simpl fmap. unfold lift. rewrite !bind_ret_l.
  rewrite bool_decide_true by done. unfold VTR_ASSERT. rewrite !bind_ret_l.
  rewrite Ht, Hprog. simpl andb. cbn iota.
  apply for_each_prints. intros pin _.
  apply for_each_prints. intros clk _.
  by rewrite BasicPort_range_bit.
Qed.

Lemma connect_global_port_constant p id cp :
  find_linked_circuit_port lib (get_name p) global_ports = ret (Some id) →
  find_port lib id = Some cp →
  get_width p = cp_size cp →
  ¬ (cp_type cp = SPICE_MODEL_PORT_CLOCK ∧ cp_is_prog cp = false) →
  connect_global_port postfix lib global_ports clocks p
  = (Returned (),
     [print_verilog_wire_constant_values p
        (replicate (Z.to_nat (get_width p)) (cp_default_value cp))]).
Proof.
  intros Hlinked Hcp Hw Hnot. unfold connect_global_port.
  rewrite Hlinked, bind_ret_l. unfold port_size, port_type, port_is_prog, port_default_value.
  rewrite Hcp. simpl fmap. unfold lift. rewrite !bind_ret_l.
  rewrite bool_decide_true by done. unfold VTR_ASSERT. rewrite !bind_ret_l.
  replace (bool_decide (SPICE_MODEL_PORT_CLOCK = cp_type cp)
           && bool_decide (false = cp_is_prog cp)) with false; [done|].
  symmetry. apply not_true_iff_false. intros [Ht Hp]%andb_true_iff.
  apply bool_decide_eq_true in Ht, Hp. by apply Hnot.
Qed.

Lemma length_clock_connections p :
  length (clock_connections postfix clocks p)
  = (Z.to_nat (get_width p) * length clocks)%nat.
Proof.
  unfold clock_connections. rewrite <-length_pins.
  apply length_bind_const. intros pin _.
  rewrite (length_bind_const _ _ 1%nat); [lia | done].
Qed.

(** C4.  Take a global port [p] of the top module whose circuit port,
    matched by name, is a CLOCK port that is not a programming clock (the
    binder's assertions hold: every global port finds its match, with equal
    width).  For [p] the binder prints exactly the connections
    [clock_connections]: one 1-bit wire connection per pin of [p] and
    benchmark clock name, pin by pin, [W * N] in all, and they appear as one
    block in the output of the pass.  With width 1 and two clock names, both
    connections start from the same bit. *)
Theorem clock_port_wired_to_every_benchmark_clock mm top module_global_ports p id cp :
  module_ports_by_type (E:=verilog) mm top MODULE_GLOBAL_PORT = ret module_global_ports →
  Forall (λ q, (connect_global_port postfix lib global_ports clocks q).1 = Returned ()) module_global_ports →
  p ∈ module_global_ports →
  find_linked_circuit_port lib (get_name p) global_ports = ret (Some id) →
  find_port lib id = Some cp →
  get_width p = cp_size cp →
  cp_type cp = SPICE_MODEL_PORT_CLOCK → cp_is_prog cp = false →
  connect_global_port postfix lib global_ports clocks p = (Returned (), clock_connections postfix clocks p) ∧
  length (clock_connections postfix clocks p)
    = (Z.to_nat (get_width p) * length clocks)%nat ∧
  (∀ clk1 clk2, get_width p = 1 → clocks = [clk1; clk2] →
     clock_connections postfix clocks p
     = [print_verilog_wire_connection (port_bit p (bp_lsb p))
          {| bp_name := clk1 +:+ postfix; bp_lsb := 0; bp_msb := 0 |} false;
        print_verilog_wire_connection (port_bit p (bp_lsb p))
          {| bp_name := clk2 +:+ postfix; bp_lsb := 0; bp_msb := 0 |} false]) ∧
  ∃ before after,
    print_verilog_preconfig_top_module_connect_global_ports
      postfix mm top lib global_ports clocks
    = (Returned (), before ++ clock_connections postfix clocks p ++ after).
Proof.
  intros Hports Hall Hin Hlinked Hcp Hw Ht Hprog.
  pose proof (connect_global_port_clock p id cp Hlinked Hcp Hw Ht Hprog) as Hp.
  split_and!; [done | apply length_clock_connections | |].
  - intros clk1 clk2 Hone ->. unfold clock_connections, pins. rewrite Hone.
    by rewrite seqZ_cons, seqZ_nil by lia.
  - rewrite (connect_global_ports_trace _ _ _ Hports Hall).
    apply list_elem_of_split in Hin as (l1 & l2 & ->).
    rewrite bind_app, bind_cons, Hp. cbn [snd]. eexists (_ :: _), _.
    by rewrite <-!(assoc_L (++)), <-app_comm_cons.
Qed.

(** C3, as amended.  Take a global port [p] of the top module whose circuit
    port, matched by name and of the same width, is not an operating clock
    (it is not of type CLOCK, or it is a programming clock).  The binder
    prints one constant assignment for the whole port, carrying the default
    value of the circuit port once per bit; for width 4 and default value 1
    that is a single 4-bit assignment of the values 1,1,1,1, and no 1-bit
    assignment at all. *)
Theorem global_port_tied_to_default mm top p id cp :
  find_linked_circuit_port lib (get_name p) global_ports = ret (Some id) →
  find_port lib id = Some cp →
  get_width p = cp_size cp →
  ¬ (cp_type cp = SPICE_MODEL_PORT_CLOCK ∧ cp_is_prog cp = false) →
  connect_global_port postfix lib global_ports clocks p
    = (Returned (),
       [print_verilog_wire_constant_values p
          (replicate (Z.to_nat (get_width p)) (cp_default_value cp))]) ∧
  (get_width p = 4 → cp_default_value cp = 1 →
     connect_global_port postfix lib global_ports clocks p = (Returned (), [print_verilog_wire_constant_values p [1; 1; 1; 1]]) ∧
     filter is_one_bit_constant_assignment (connect_global_port postfix lib global_ports clocks p).2 = []) ∧
  (module_ports_by_type (E:=verilog) mm top MODULE_GLOBAL_PORT = ret [p] →
     print_verilog_preconfig_top_module_connect_global_ports
       postfix mm top lib global_ports clocks
     = (Returned (),
        [print_verilog_comment "----- Begin Connect Global ports of FPGA top module -----";
         print_verilog_wire_constant_values p
           (replicate (Z.to_nat (get_width p)) (cp_default_value cp));
         print_verilog_comment "----- End Connect Global ports of FPGA top module -----";
         endl])).
Proof.
  intros Hlinked Hcp Hw Hnot.
  pose proof (connect_global_port_constant p id cp Hlinked Hcp Hw Hnot) as Hp.
  split_and!; [done | |].
  - intros H4 H1. rewrite Hp, H4, H1. split; [done|].
    cbn [snd]. rewrite filter_cons, filter_nil. unfold is_one_bit_constant_assignment.
    rewrite H4. by case_decide.
  - intros Hports.
    rewrite (connect_global_ports_trace mm top [p] Hports)
      by (repeat constructor; by rewrite Hp).
    by rewrite bind_singleton, Hp.
Qed.

End global_ports.

(** ** Benchmark I/Os *)

Lemma bind_unless {A B} (P : A → Prop) `{∀ x, Decision (P x)} (f : A → B) (l : list A) :
  l ≫= (λ x, if bool_decide (P x) then [] else [f x]) = f <$> filter (λ x, ¬ P x) l.
Proof.
  induction l as [|x l IH]; [done|].
  rewrite bind_cons, filter_cons, IH.
  case_bool_decide; case_decide; try done; by rewrite ?fmap_cons.
Qed.

(** The bitmap after marking the pads [idxs]. *)
Lemma length_mark_used (idxs : list nat) (used : list bool) :
  length (foldl (λ u i, <[i := true]> u) used idxs) = length used.
Proof.
  revert used. induction idxs as [|i idxs IH]; intros used; [done|].
  simpl. by rewrite IH, length_insert.
Qed.

Lemma lookup_mark_used (idxs : list nat) (used : list bool) (i : nat) :
  (i < length used)%nat →
  foldl (λ u i, <[i := true]> u) used idxs !! i
  = if bool_decide (i ∈ idxs) then Some true else used !! i.
Proof.
  revert used. induction idxs as [|j idxs IH]; intros used Hi.
  - rewrite bool_decide_false; [done | by intros ?%elem_of_nil].
  - simpl foldl. rewrite IH by (by rewrite length_insert).
    destruct (decide (i ∈ idxs)) as [Hin|Hin].
    + rewrite !bool_decide_true; [done | by right | done].
    + rewrite (bool_decide_false (i ∈ idxs)) by done.
      destruct (decide (i = j)) as [->|Hne].
      * rewrite bool_decide_true by left. by apply list_lookup_insert_eq.
      * rewrite bool_decide_false by (by intros [?|?]%elem_of_cons).
        by apply list_lookup_insert_ne.
Qed.

Section benchmark_ios.
Context (postfix : string) (init : Z) (place : t_logical_block → Z).
Context (mm : ModuleManager) (top : nat) (port : BasicPort).

(** The loop over the logical blocks. *)
Lemma connect_ios_first_loop lbs (io_used : list bool) :
  Forall (λ lb, 0 ≤ place lb < get_width port) (filter is_io_block lbs) →
  for_each (λ io_lb io_used,
      if negb (is_io_block io_lb) then ret io_used else
      let io_index := place io_lb in
      let module_mapped_io_port := port in
      VTR_ASSERT (bool_decide (io_index < get_width module_mapped_io_port));;
      let module_mapped_io_port := set_width module_mapped_io_port io_index io_index in
      let benchmark_io_port := BasicPort_width (lb_name io_lb +:+ postfix) 1 in
      emit (print_verilog_comment
              ("----- Blif Benchmark inout " +:+ lb_name io_lb
               +:+ " is mapped to FPGA IOPAD " +:+ get_name module_mapped_io_port
               +:+ "[" +:+ pretty io_index +:+ "] -----"));;
      emit (print_verilog_wire_connection module_mapped_io_port benchmark_io_port false);;
      ret (<[Z.to_nat io_index := true]> io_used))
    lbs io_used
  = (Returned (foldl (λ u i, <[i := true]> u) io_used
                 (Z.to_nat ∘ place <$> filter is_io_block lbs)),
     filter is_io_block lbs ≫= (λ lb, [io_comment place port lb;
                                       io_connection postfix place port lb])).
Proof.
  revert io_used. induction lbs as [|lb lbs IH]; intros io_used Hall; [done|].
  simpl for_each. rewrite filter_cons in Hall |- *.
  destruct (decide (is_io_block lb)) as [Hio|Hio].
  - apply Forall_cons in Hall as [Hlb Hall].
    rewrite (Is_true_true_1 _ Hio). simpl negb. cbn iota. rewrite bool_decide_true by lia.
    unfold VTR_ASSERT, emit, ret. run_binds. rewrite (IH _ Hall). run_binds.
    rewrite fmap_cons, bind_cons. simpl foldl. rewrite set_width_bit.
    unfold get_name. simpl. done.
  - rewrite (Is_true_false_1 _ Hio). simpl negb. cbn iota. rewrite bind_ret_l. by apply IH.
Qed.

Lemma elem_of_to_nat_place (ios : list t_logical_block) i :
  Forall (λ lb, 0 ≤ place lb < get_width port) ios → 0 ≤ i →
  Z.to_nat i ∈ (Z.to_nat ∘ place <$> ios) ↔ i ∈ place <$> ios.
Proof.
  intros Hall Hi. rewrite !list_elem_of_fmap. rewrite Forall_forall in Hall.
  split; intros (lb & Heq & Hin); exists lb; (split; [|done]).
  - specialize (Hall _ Hin). simpl in Heq. lia.
  - simpl. by rewrite Heq.
Qed.

(** The loop over the pads. *)
Lemma connect_ios_second_loop (ios : list t_logical_block) :
  Forall (λ lb, 0 ≤ place lb < get_width port) ios →
  let io_used := foldl (λ u i, <[i := true]> u)
                   (replicate (Z.to_nat (get_width port)) false)
                   (Z.to_nat ∘ place <$> ios) in
  for_range 0 (size io_used) (λ io_index _,
    let* used := lift (at_index io_used io_index) in
    if used then ret () else
    emit (print_verilog_wire_constant_values (set_width port io_index io_index)
            (vector_of (get_width (set_width port io_index io_index)) init))) ()
  = (Returned (), tie_off init port <$> unused_pads place port ios).
Proof.
  intros Hall io_used. pose proof (get_width_nonneg port) as HW.
  assert (length io_used = Z.to_nat (get_width port)) as Hlen
    by (unfold io_used; by rewrite length_mark_used, length_replicate).
  unfold for_range, size. rewrite Hlen, Z.sub_0_r, Z2Nat.id by done.
  unfold unused_pads. rewrite <-bind_unless.
  apply for_each_prints. intros i [Hi0 Hi]%elem_of_seqZ.
  unfold at_index. rewrite bool_decide_true by done. unfold io_used.
  rewrite lookup_mark_used by (rewrite length_replicate; lia).
  rewrite lookup_replicate_2 by lia.
  destruct (decide (i ∈ place <$> ios)) as [Hin|Hin].
  - rewrite !bool_decide_true; [done | done | by apply elem_of_to_nat_place].
  - rewrite !bool_decide_false; [|done|by rewrite elem_of_to_nat_place].
    simpl. rewrite set_width_bit. unfold port_bit. by rewrite get_width_bit.
Qed.

(** The run of the binder, given its single I/O port. *)
Lemma connect_ios_run lbs :
  module_ports_by_type (E:=verilog) mm top MODULE_GPIO_PORT = ret [port] →
  Forall (λ lb, 0 ≤ place lb < get_width port) (filter is_io_block lbs) →
  print_verilog_preconfig_top_module_connect_ios postfix init place mm top lbs
  = (Returned (), connect_ios_output postfix init place port (filter is_io_block lbs)).
Proof.
  intros Hport Hall. unfold print_verilog_preconfig_top_module_connect_ios.
  rewrite Hport, bind_ret_l. simpl bool_decide. rewrite VTR_ASSERT_true, bind_ret_l.
  simpl lookup. rewrite lift_Some, bind_ret_l, bind_emit.
  rewrite (connect_ios_first_loop _ _ Hall). run_binds. rewrite !bind_emit.
  rewrite (connect_ios_second_loop _ Hall). run_binds.
  unfold connect_ios_output. simpl. by rewrite ?(right_id_L [] (++)).
Qed.

Lemma port_bit_inj i j : port_bit port i = port_bit port j → i = j.
Proof. unfold port_bit. by intros [= ->]. Qed.

Lemma filter_drives_connections (ios : list t_logical_block) i :
  filter (drives (port_bit port i))
    (ios ≫= (λ lb, [io_comment place port lb; io_connection postfix place port lb]))
  = io_connection postfix place port <$> filter (λ lb, place lb = i) ios.
Proof.
  induction ios as [|lb ios IH]; [done|].
  rewrite bind_cons, filter_app, IH, !filter_cons, filter_nil. simpl.
  destruct (decide (place lb = i)) as [->|Hne].
  - by rewrite bool_decide_true by done.
  - rewrite bool_decide_false; [done|]. by intros ?%port_bit_inj.
Qed.

Lemma filter_drives_tie_offs (l : list Z) i :
  NoDup l →
  filter (drives (port_bit port i)) (tie_off init port <$> l)
  = if bool_decide (i ∈ l) then [tie_off init port i] else [].
Proof.
  induction 1 as [|j l Hj _ IH].
  - rewrite bool_decide_false; [done | by intros ?%elem_of_nil].
  - rewrite fmap_cons, filter_cons, IH. simpl.
    destruct (decide (j = i)) as [->|Hne].
    + rewrite bool_decide_true by done. simpl.
      rewrite (bool_decide_false (i ∈ l)) by done. by rewrite bool_decide_true by left.
    + rewrite (bool_decide_false (port_bit port j = port_bit port i))
        by (by intros ?%port_bit_inj).
      simpl. destruct (decide (i ∈ l)).
      * by rewrite !bool_decide_true by (done || by right).
      * rewrite !bool_decide_false; [done| |done]. by intros [?|?]%elem_of_cons.
Qed.

Lemma filter_connections_output (ios : list t_logical_block) :
  filter is_wire_connection (connect_ios_output postfix init place port ios)
  = io_connection postfix place port <$> ios.
Proof.
  unfold connect_ios_output. rewrite !filter_app.
  assert (filter is_wire_connection (tie_off init port <$> unused_pads place port ios) = [])
    as -> by (induction (unused_pads place port ios); [done | by rewrite fmap_cons, filter_cons]).
  assert (filter is_wire_connection
            (ios ≫= (λ lb, [io_comment place port lb; io_connection postfix place port lb]))
          = io_connection postfix place port <$> ios) as ->.
  { induction ios as [|lb ios IH]; [done|]. by rewrite bind_cons, filter_app, IH. }
  rewrite ?filter_cons, ?filter_nil. simpl. by rewrite ?(right_id_L [] (++)).
Qed.

Lemma filter_constants_output (ios : list t_logical_block) :
  filter is_constant_assignment (connect_ios_output postfix init place port ios)
  = tie_off init port <$> unused_pads place port ios.
Proof.
  unfold connect_ios_output. rewrite !filter_app.
  assert (filter is_constant_assignment
            (ios ≫= (λ lb, [io_comment place port lb; io_connection postfix place port lb]))
          = []) as ->.
  { induction ios as [|lb ios IH]; [done|]. by rewrite bind_cons, filter_app, IH. }
  assert (filter is_constant_assignment (tie_off init port <$> unused_pads place port ios)
          = tie_off init port <$> unused_pads place port ios) as ->.
  { induction (unused_pads place port ios) as [|i l IH]; [done|].
    by rewrite fmap_cons, filter_cons, IH. }
  rewrite ?filter_cons, ?filter_nil. simpl. by rewrite ?(right_id_L [] (++)).
Qed.

Lemma length_filter_unique {A} (f : A → Z) (l : list A) y :
  NoDup (f <$> l) → y ∈ f <$> l → length (filter (λ x, f x = y) l) = 1%nat.
Proof.
  induction l as [|x l IH]; [by intros _ ?%elem_of_nil|].
  rewrite fmap_cons, NoDup_cons, elem_of_cons, filter_cons. intros [Hx Hnd] Hin.
  case_decide as Hxy.
  - subst y. simpl. f_equal. apply length_zero_iff_nil.
    destruct (filter (λ x0, f x0 = f x) l) as [|z l'] eqn:E; [done|].
    assert (z ∈ filter (λ x0, f x0 = f x) l) as [Hz Hzl]%list_elem_of_filter
      by (rewrite E; left).
    exfalso. apply Hx. rewrite <-Hz. by apply list_elem_of_fmap_2.
  - destruct Hin as [?|Hin]; [congruence|]. by apply IH.
Qed.

(** C7, as amended.  With exactly one datapath-I/O port of width [W] on the
    top module and every I/O block (INPAD or OUTPAD) placed on a pad below
    [W], the binder returns and prints [connect_ios_output]: one 1-bit wire
    connection per I/O block, in the order of the blocks, then one 1-bit
    tie-off per pad that no block is placed on, in increasing order.  Pad
    bit [i] therefore receives one connection per block placed on it, and
    one tie-off if there is none; when no two I/O blocks are placed on the
    same pad, every pad bit receives exactly one statement. *)
Theorem every_pad_bit_connected_or_tied lbs :
  module_ports_by_type (E:=verilog) mm top MODULE_GPIO_PORT = ret [port] →
  let ios := filter is_io_block lbs in
  Forall (λ lb, 0 ≤ place lb < get_width port) ios →
  let trace := connect_ios_output postfix init place port ios in
  print_verilog_preconfig_top_module_connect_ios postfix init place mm top lbs
    = (Returned (), trace) ∧
  filter is_wire_connection trace = io_connection postfix place port <$> ios ∧
  filter is_constant_assignment trace = tie_off init port <$> unused_pads place port ios ∧
  (∀ i, 0 ≤ i < get_width port →
     filter (drives (port_bit port i)) trace
     = (io_connection postfix place port <$> filter (λ lb, place lb = i) ios)
       ++ (if bool_decide (i ∈ place <$> ios) then [] else [tie_off init port i])) ∧
  (NoDup (place <$> ios) →
   ∀ i, 0 ≤ i < get_width port → length (filter (drives (port_bit port i)) trace) = 1%nat).
Proof.
  intros Hport ios Hall trace.
  assert (∀ i, 0 ≤ i < get_width port →
     filter (drives (port_bit port i)) trace
     = (io_connection postfix place port <$> filter (λ lb, place lb = i) ios)
       ++ (if bool_decide (i ∈ place <$> ios) then [] else [tie_off init port i])) as Hbit.
  { intros i Hi. unfold trace, connect_ios_output. rewrite !filter_app.
    rewrite filter_drives_connections.
    rewrite filter_drives_tie_offs by apply NoDup_filter, NoDup_seqZ.
    rewrite ?filter_cons, ?filter_nil. simpl. rewrite ?(right_id_L [] (++)).
    f_equal. unfold unused_pads.
    destruct (decide (i ∈ place <$> ios)) as [Hin|Hin].
    - rewrite (bool_decide_true (i ∈ place <$> ios)) by done.
      rewrite bool_decide_false; [done|]. by intros [? _]%list_elem_of_filter.
    - rewrite (bool_decide_false (i ∈ place <$> ios)) by done.
      rewrite bool_decide_true; [done|]. apply list_elem_of_filter. split; [done|]. apply elem_of_seqZ. lia. }
  split_and!.
  - by apply connect_ios_run.
  - apply filter_connections_output.
  - apply filter_constants_output.
  - done.
  - intros Hnd i Hi. rewrite (Hbit i Hi), length_app, length_fmap.
    destruct (decide (i ∈ place <$> ios)) as [Hin|Hin].
    + rewrite bool_decide_true by done. rewrite (length_filter_unique _ _ _ Hnd Hin). done.
    + rewrite bool_decide_false by done.
      replace (filter (λ lb, place lb = i) ios) with (@nil t_logical_block); [done|].
      symmetry. destruct (filter (λ lb, place lb = i) ios) as [|z l'] eqn:E; [done|].
      assert (z ∈ filter (λ lb, place lb = i) ios) as [Hz Hzl]%list_elem_of_filter
        by (rewrite E; left).
      exfalso. apply Hin. rewrite <-Hz. by apply list_elem_of_fmap_2.
Qed.

End benchmark_ios.

(** ** The block hierarchy of a configuration bit *)

Lemma string_app_assoc (s1 s2 s3 : string) : (s1 +:+ s2) +:+ s3 = s1 +:+ (s2 +:+ s3).
Proof.
  induction s1 as [|c s1 IH]; [done|].
  change (String c ((s1 +:+ s2) +:+ s3) = String c (s1 +:+ s2 +:+ s3)).
  by rewrite IH.
Qed.

Lemma dotted_cons a b l : dotted (a :: b :: l) = a +:+ "." +:+ dotted (b :: l).
Proof. done. Qed.

(** Appending the components one by one, as the loop does, builds the
    dotted name. *)
Lemma foldl_dotted acc names last :
  foldl (λ path name, (path +:+ ".") +:+ name) acc names +:+ "." +:+ last
  = acc +:+ "." +:+ dotted (names ++ [last]).
Proof.
  revert acc. induction names as [|n names IH]; intros acc; [done|].
  simpl foldl. rewrite IH. rewrite <-app_comm_cons.
  destruct names as [|n' names]; simpl app.
  - by rewrite dotted_cons, !string_app_assoc.
  - by rewrite (dotted_cons n), !string_app_assoc.
Qed.

Section hierarchy.
Context (bm : BitstreamManager).

Lemma parent_chain_valid b l : parent_chain bm b l → is_Some (blocks bm !! b).
Proof. destruct 1; eauto. Qed.

Lemma parent_chain_head b l : parent_chain bm b l → ∃ l', l = b :: l'.
Proof. destruct 1; eauto. Qed.

Lemma parent_chain_det b l1 l2 :
  parent_chain bm b l1 → parent_chain bm b l2 → l1 = l2.
Proof.
  intros H1. revert l2. induction H1 as [b blk Hb Hroot|b blk p l Hb Hp H1 IH]; intros l2 H2.
  - destruct H2 as [|b blk' p l' Hb' Hp' H2]; [done|]. simplify_eq.
    apply parent_chain_valid in H2 as [? Hv]. rewrite Hp' in Hroot. simpl in Hroot.
    congruence.
  - destruct H2 as [b blk' Hb' Hroot|b blk' p' l' Hb' Hp' H2]; simplify_eq.
    + apply parent_chain_valid in H1 as [? Hv]. rewrite Hp in Hroot. simpl in Hroot.
      congruence.
    + f_equal. by apply IH.
Qed.

(** Every block on a chain starts a chain of its own, which is no longer. *)
Lemma parent_chain_suffix b l x :
  parent_chain bm b l → x ∈ l →
  ∃ l', parent_chain bm x l' ∧ (length l' ≤ length l)%nat.
Proof.
  induction 1 as [b blk Hb Hroot|b blk p l Hb Hp H1 IH].
  - intros ->%list_elem_of_singleton. exists [b]. split; [by econstructor | done].
  - intros [->|Hin]%elem_of_cons.
    + exists (b :: l). split; [by econstructor | done].
    + destruct (IH Hin) as (l' & ? & ?). exists l'. split; [done | simpl; lia].
Qed.

Lemma parent_chain_NoDup b l : parent_chain bm b l → NoDup l.
Proof.
  induction 1 as [b blk Hb Hroot|b blk p l Hb Hp H1 IH].
  - apply NoDup_singleton.
  - constructor; [|done]. intros Hin.
    destruct (parent_chain_suffix _ _ _ H1 Hin) as (l' & Hl' & Hlen).
    assert (parent_chain bm b (b :: l)) as Hbl by (by econstructor).
    rewrite (parent_chain_det _ _ _ Hl' Hbl) in Hlen. simpl in Hlen. lia.
Qed.

Lemma parent_chain_blocks b l :
  parent_chain bm b l → Forall (λ x, is_Some (blocks bm !! x)) l.
Proof. induction 1; repeat constructor; eauto. Qed.

(** A chain visits each block at most once: it is no longer than the
    arena. *)
Lemma parent_chain_length b l :
  parent_chain bm b l → (length l ≤ length (blocks bm))%nat.
Proof.
  intros Hc. rewrite <-(length_seq (length (blocks bm)) 0).
  apply submseteq_length, NoDup_submseteq; [by eapply parent_chain_NoDup|].
  intros x Hx. pose proof (parent_chain_blocks _ _ Hc) as Hall.
  rewrite Forall_forall in Hall. apply Hall in Hx as [? Hx%lookup_lt_Some].
  apply elem_of_seq. lia.
Qed.

Lemma walk_to_root_chain b l :
  parent_chain bm b l → walk_to_root (S (length l)) bm (Some b) = Some l.
Proof.
  induction 1 as [b blk Hb Hroot|b blk p l Hb Hp H1 IH].
  - simpl. rewrite Hb. destruct (cb_parent blk) as [p|]; [|done].
    simpl in Hroot. by rewrite Hroot.
  - change (length (b :: l)) with (S (length l)).
    change (walk_to_root (S (S (length l))) bm (Some b))
      with (match blocks bm !! b with
            | None => Some []
            | Some blk => (b ::.) <$> walk_to_root (S (length l)) bm (cb_parent blk)
            end).
    by rewrite Hb, Hp, IH.
Qed.

Lemma walk_to_root_more fuel fuel' block l :
  walk_to_root fuel bm block = Some l → (fuel ≤ fuel')%nat →
  walk_to_root fuel' bm block = Some l.
Proof.
  revert fuel' block l. induction fuel as [|fuel IH]; intros fuel' block l Hw Hle; [done|].
  destruct fuel' as [|fuel']; [lia|]. simpl in *.
  destruct block as [b|]; [|done]. destruct (blocks bm !! b) as [blk|]; [|done].
  destruct (walk_to_root fuel bm (cb_parent blk)) as [l'|] eqn:Hw'; [|done].
  rewrite (IH fuel' _ _ Hw') by lia. done.
Qed.

(** The fuel given to the walk is enough whenever the parent links lead to a
    root. *)
Lemma walk_to_root_enough b l :
  parent_chain bm b l →
  walk_to_root (S (length (blocks bm))) bm (Some b) = Some l.
Proof.
  intros Hc. apply (walk_to_root_more (S (length l))); [by apply walk_to_root_chain|].
  pose proof (parent_chain_length _ _ Hc). lia.
Qed.

Lemma find_bitstream_manager_block_hierarchy_chain {E} b l :
  parent_chain bm b l →
  find_bitstream_manager_block_hierarchy (E:=E) bm (Some b) = ret (reverse l).
Proof.
  intros Hc. unfold find_bitstream_manager_block_hierarchy.
  by rewrite (walk_to_root_enough _ _ Hc).
Qed.

End hierarchy.

(** ** Loading the bitstream *)

Section load_bitstream.
Context (uut ccff : string) (mm : ModuleManager) (top : nat) (bm : BitstreamManager).

Lemma path_loop rest names acc :
  Forall2 (λ b n, cb_name <$> blocks bm !! b = Some n) rest names →
  for_each (E:=verilog) (λ temp_block bit_hierarchy_path,
      let bit_hierarchy_path := bit_hierarchy_path +:+ "." in
      let* temp_name := block_name bm temp_block in
      ret (bit_hierarchy_path +:+ temp_name)) rest acc
  = ret (foldl (λ path name, (path +:+ ".") +:+ name) acc names).
Proof.
  intros Hall. revert acc. induction Hall as [|b n rest names Hb _ IH]; intros acc; [done|].
  simpl for_each. unfold block_name at 1. rewrite Hb, lift_Some, !bind_ret_l. apply IH.
Qed.

(** C5.  Take a configuration bit owned by block [owner], whose ancestors,
    from the root down to [owner], are [root :: rest], the root carrying the
    name of the top module (asserted by the writer).  Its wire is named by
    the instance name [uut], then the names of [rest] (the chain without the
    root), then the configuration-chain data-out name [ccff], joined by
    dots, and it is indexed by the index of the bit in [owner].  Blocks that
    are not on the chain play no part.  A bit owned by the root is named
    [uut.ccff]; one three levels deep [uut.child.grandchild.ccff]. *)
Theorem config_bit_wire_name bit cbit owner root rest names md rblk :
  bits bm !! bit = Some cbit →
  cbit_parent cbit = Some owner →
  parent_chain bm owner (reverse (root :: rest)) →
  modules mm !! top = Some md →
  blocks bm !! root = Some rblk →
  md_name md = cb_name rblk →
  Forall2 (λ b n, cb_name <$> blocks bm !! b = Some n) rest names →
  bit_hierarchy_path uut ccff mm top bm bit = ret (dotted (uut :: names ++ [ccff])) ∧
  load_config_bit uut ccff mm top bm bit
    = (Returned (),
       [print_verilog_wire_constant_values
          {| bp_name := dotted (uut :: names ++ [ccff]);
             bp_lsb := cbit_index cbit; bp_msb := cbit_index cbit |}
          [Z.b2z (cbit_value cbit)]]) ∧
  (rest = [] → dotted (uut :: names ++ [ccff]) = uut +:+ "." +:+ ccff) ∧
  (∀ child grandchild, names = [child; grandchild] →
     dotted (uut :: names ++ [ccff])
     = uut +:+ "." +:+ child +:+ "." +:+ grandchild +:+ "." +:+ ccff).
Proof.
  intros Hbit Hparent Hchain Hmd Hroot Hname Hnames.
  assert (bit_hierarchy_path uut ccff mm top bm bit = ret (dotted (uut :: names ++ [ccff])))
    as Hpath.
  { unfold bit_hierarchy_path, bit_parent_block.
    rewrite Hbit. simpl fmap. rewrite lift_Some, bind_ret_l, Hparent.
    rewrite (find_bitstream_manager_block_hierarchy_chain _ _ _ Hchain), bind_ret_l.
    rewrite reverse_involutive. simpl lookup. rewrite lift_Some, bind_ret_l.
    unfold module_name, block_name at 1. rewrite Hmd, Hroot. simpl fmap.
    rewrite !lift_Some, !bind_ret_l, bool_decide_true by done.
    rewrite VTR_ASSERT_true, bind_ret_l. simpl drop.
    rewrite (path_loop _ _ _ Hnames), bind_ret_l. f_equal.
    rewrite string_app_assoc, foldl_dotted.
    destruct names; by rewrite <-?app_comm_cons, ?dotted_cons. }
  split_and!; [done| | |].
  - unfold load_config_bit, bit_index_in_parent_block, bit_value.
    rewrite Hpath, bind_ret_l, Hbit. simpl fmap. rewrite !lift_Some, !bind_ret_l.
    by rewrite BasicPort_range_bit, get_width_bit.
  - intros ->. by apply Forall2_nil_inv_l in Hnames as ->.
  - by intros child grandchild ->.
Qed.

(** C6.  If the path of every bit of the bitstream resolves, the writer
    prints, between its two banners, exactly one constant assignment per
    bit, the i-th assignment being that of the i-th bit of the input: its
    wire, its index, its value. *)
Theorem bitstream_loaded_in_input_order fabric_bitstream :
  Forall (λ bit, ∃ path, bit_hierarchy_path uut ccff mm top bm bit = ret path)
    fabric_bitstream →
  ∃ assignments,
    print_verilog_preconfig_top_module_load_bitstream uut ccff mm top bm fabric_bitstream
    = (Returned (),
       print_verilog_comment "----- Begin load bitstream to configuration memories -----"
         :: assignments
         ++ [print_verilog_comment
               "----- End load bitstream to configuration memories -----"]) ∧
    Forall2 (λ bit stmt, ∃ path cbit,
        bits bm !! bit = Some cbit ∧
        bit_hierarchy_path uut ccff mm top bm bit = ret path ∧
        stmt = print_verilog_wire_constant_values
                 {| bp_name := path; bp_lsb := cbit_index cbit; bp_msb := cbit_index cbit |}
                 [Z.b2z (cbit_value cbit)])
      fabric_bitstream assignments ∧
    length assignments = length fabric_bitstream ∧
    (∀ i bit, fabric_bitstream !! i = Some bit →
       ∃ stmt, assignments !! i = Some stmt ∧
               load_config_bit uut ccff mm top bm bit = (Returned (), [stmt])).
Proof.
  intros Hall.
  assert (∀ bit, bit ∈ fabric_bitstream → ∃ path cbit,
    bits bm !! bit = Some cbit ∧
    bit_hierarchy_path uut ccff mm top bm bit = ret path ∧
    load_config_bit uut ccff mm top bm bit
    = (Returned (),
       [print_verilog_wire_constant_values
          {| bp_name := path; bp_lsb := cbit_index cbit; bp_msb := cbit_index cbit |}
          [Z.b2z (cbit_value cbit)]])) as Hbits.
  { intros bit Hin. rewrite Forall_forall in Hall. destruct (Hall bit Hin) as [path Hpath].
    destruct (bits bm !! bit) as [cbit|] eqn:Hbit.
    - exists path, cbit. split_and!; [done..|].
      unfold load_config_bit, bit_index_in_parent_block, bit_value.
      rewrite Hpath, bind_ret_l, Hbit. simpl fmap. rewrite !lift_Some, !bind_ret_l.
      by rewrite BasicPort_range_bit, get_width_bit.
    - unfold bit_hierarchy_path, bit_parent_block in Hpath. by rewrite Hbit in Hpath. }
  exists (fabric_bitstream ≫= (λ bit, (load_config_bit uut ccff mm top bm bit).2)).
  assert (Forall2 (λ bit stmt, ∃ path cbit,
        bits bm !! bit = Some cbit ∧
        bit_hierarchy_path uut ccff mm top bm bit = ret path ∧
        stmt = print_verilog_wire_constant_values
                 {| bp_name := path; bp_lsb := cbit_index cbit; bp_msb := cbit_index cbit |}
                 [Z.b2z (cbit_value cbit)])
      fabric_bitstream
      (fabric_bitstream ≫= (λ bit, (load_config_bit uut ccff mm top bm bit).2))) as Hf2.
  { clear Hall. induction fabric_bitstream as [|bit l IH]; [constructor|].
    rewrite bind_cons. destruct (Hbits bit) as (path & cbit & Hb & Hp & Hl); [left|].
    rewrite Hl. simpl. constructor; [by eauto|].
    apply IH. intros. apply Hbits. by right. }
  split_and!.
  - unfold print_verilog_preconfig_top_module_load_bitstream. rewrite bind_emit.
    rewrite for_each_returns.
    + run_binds. unfold emit. simpl. by rewrite ?(right_id_L [] (++)).
    + apply Forall_forall. intros bit Hin.
      destruct (Hbits bit Hin) as (path & cbit & _ & _ & ->). done.
  - done.
  - symmetry. by eapply Forall2_length.
  - intros i bit Hi. destruct (Forall2_lookup_l _ _ _ _ _ Hf2 Hi) as (stmt & Hs & _).
    exists stmt. split; [done|].
    destruct (Hbits bit) as (path & cbit & Hb & Hp & Hl); [by eapply list_elem_of_lookup_2|].
    destruct (Forall2_lookup_lr _ _ _ _ _ _ Hf2 Hi Hs) as (path' & cbit' & Hb' & Hp' & ->).
    rewrite Hl. rewrite Hp in Hp'. unfold ret in Hp'. by simplify_eq.
Qed.

End load_bitstream.

(** ** The writer on the example fabric *)

Lemma clock_port_wired_to_every_benchmark_clock_witness :
  let p := BasicPort_width "clk" 1 in
  let clocks := ["clk_a"; "clk_b"] in
  connect_global_port "_fm" example_global_catalog example_global_ports clocks p
    = (Returned (), clock_connections "_fm" clocks p) ∧
  length (clock_connections "_fm" clocks p)
    = (Z.to_nat (get_width p) * length clocks)%nat ∧
  (∀ clk1 clk2, get_width p = 1 → clocks = [clk1; clk2] →
     clock_connections "_fm" clocks p
     = [print_verilog_wire_connection (port_bit p (bp_lsb p))
          {| bp_name := clk1 +:+ "_fm"; bp_lsb := 0; bp_msb := 0 |} false;
        print_verilog_wire_connection (port_bit p (bp_lsb p))
          {| bp_name := clk2 +:+ "_fm"; bp_lsb := 0; bp_msb := 0 |} false]) ∧
  ∃ before after,
    print_verilog_preconfig_top_module_connect_global_ports
      "_fm" example_modules 0%nat example_global_catalog example_global_ports clocks
    = (Returned (), before ++ clock_connections "_fm" clocks p ++ after).
Proof.
  apply (clock_port_wired_to_every_benchmark_clock "_fm" example_global_catalog
           example_global_ports ["clk_a"; "clk_b"] example_modules 0%nat
           [BasicPort_width "clk" 1; BasicPort_width "reset" 4]
           (BasicPort_width "clk" 1) (0, 0) example_clock_port).
  - reflexivity.
  - repeat constructor.
  - left.
  - reflexivity.
  - reflexivity.
  - reflexivity.
  - reflexivity.
  - reflexivity.
Defined.

Lemma global_port_tied_to_default_witness :
  let p := BasicPort_width "reset" 4 in
  connect_global_port "_fm" example_global_catalog example_global_ports ["clk_a"] p
    = (Returned (),
       [print_verilog_wire_constant_values p
          (replicate (Z.to_nat (get_width p)) (cp_default_value example_reset_port))]) ∧
  (get_width p = 4 → cp_default_value example_reset_port = 1 →
     connect_global_port "_fm" example_global_catalog example_global_ports ["clk_a"] p
       = (Returned (), [print_verilog_wire_constant_values p [1; 1; 1; 1]]) ∧
     filter is_one_bit_constant_assignment
       (connect_global_port "_fm" example_global_catalog example_global_ports ["clk_a"] p).2
       = []) ∧
  (module_ports_by_type (E:=verilog) example_modules_reset_only 0%nat MODULE_GLOBAL_PORT
     = ret [p] →
     print_verilog_preconfig_top_module_connect_global_ports
       "_fm" example_modules_reset_only 0%nat example_global_catalog example_global_ports
       ["clk_a"]
     = (Returned (),
        [print_verilog_comment "----- Begin Connect Global ports of FPGA top module -----";
         print_verilog_wire_constant_values p
           (replicate (Z.to_nat (get_width p)) (cp_default_value example_reset_port));
         print_verilog_comment "----- End Connect Global ports of FPGA top module -----";
         endl])).
Proof.
  apply (global_port_tied_to_default "_fm" example_global_catalog example_global_ports
           ["clk_a"] example_modules_reset_only 0%nat
           (BasicPort_width "reset" 4) (0, 1) example_reset_port).
  - reflexivity.
  - reflexivity.
  - reflexivity.
  - simpl. intros [? _]. discriminate.
Defined.

(** C3, as stated, fails: for the 4-bit reset port with default value 1 the
    binder prints one constant assignment, to the whole port, and none to a
    single bit. *)
Lemma global_port_not_tied_bit_by_bit :
  let trace :=
    (print_verilog_preconfig_top_module_connect_global_ports
       "_fm" example_modules 0%nat example_global_catalog example_global_ports
       ["clk_a"]).2 in
  filter is_constant_assignment trace
    = [print_verilog_wire_constant_values
         {| bp_name := "reset"; bp_lsb := 0; bp_msb := 3 |} [1; 1; 1; 1]] ∧
  length (filter is_one_bit_constant_assignment trace) ≠ 4%nat.
Proof. vm_compute. split; [reflexivity | discriminate]. Qed.

Lemma every_pad_bit_connected_or_tied_witness :
  let port := BasicPort_width "gfpga_pad" 8 in
  let ios := filter is_io_block example_logical_blocks in
  let trace := connect_ios_output "_fm" 0 example_placement port ios in
  print_verilog_preconfig_top_module_connect_ios "_fm" 0 example_placement
      example_modules 0%nat example_logical_blocks
    = (Returned (), trace) ∧
  filter is_wire_connection trace = io_connection "_fm" example_placement port <$> ios ∧
  filter is_constant_assignment trace
    = tie_off 0 port <$> unused_pads example_placement port ios ∧
  (∀ i, 0 ≤ i < get_width port →
     filter (drives (port_bit port i)) trace
     = (io_connection "_fm" example_placement port
          <$> filter (λ lb, example_placement lb = i) ios)
       ++ (if bool_decide (i ∈ example_placement <$> ios) then []
           else [tie_off 0 port i])) ∧
  (NoDup (example_placement <$> ios) →
   ∀ i, 0 ≤ i < get_width port → length (filter (drives (port_bit port i)) trace) = 1%nat).
Proof.
  apply (every_pad_bit_connected_or_tied "_fm" 0 example_placement example_modules 0%nat
           (BasicPort_width "gfpga_pad" 8) example_logical_blocks).
  - reflexivity.
  - vm_compute. repeat constructor; discriminate.
Defined.

(** The instance of C7: 8 pads, two blocks placed on pads 2 and 5. *)
Example pads_2_and_5_of_8 :
  let trace :=
    (print_verilog_preconfig_top_module_connect_ios "_fm" 0 example_placement
       example_modules 0%nat example_logical_blocks).2 in
  filter is_wire_connection trace
    = [print_verilog_wire_connection {| bp_name := "gfpga_pad"; bp_lsb := 2; bp_msb := 2 |}
         {| bp_name := "a_fm"; bp_lsb := 0; bp_msb := 0 |} false;
       print_verilog_wire_connection {| bp_name := "gfpga_pad"; bp_lsb := 5; bp_msb := 5 |}
         {| bp_name := "out_b_fm"; bp_lsb := 0; bp_msb := 0 |} false] ∧
  filter is_constant_assignment trace
    = (λ i, print_verilog_wire_constant_values
              {| bp_name := "gfpga_pad"; bp_lsb := i; bp_msb := i |} [0])
      <$> [0; 1; 3; 4; 6; 7].
Proof. vm_compute. split; reflexivity. Qed.

(** C7, as stated, fails: its preconditions hold (one I/O port of width 8,
    both pad indices below 8), yet pad bit 2 receives two wire connections,
    because both blocks are placed on it. *)
Lemma pad_bit_connected_twice :
  let port := BasicPort_width "gfpga_pad" 8 in
  let run := print_verilog_preconfig_top_module_connect_ios "_fm" 0 clashing_placement
               example_modules 0%nat two_inpads in
  module_ports_by_type (E:=verilog) example_modules 0%nat MODULE_GPIO_PORT = ret [port] ∧
  Forall (λ lb, 0 ≤ clashing_placement lb < get_width port) (filter is_io_block two_inpads) ∧
  run.1 = Returned () ∧
  length (filter (drives (port_bit port 2)) run.2) = 2%nat ∧
  length (filter (drives (port_bit port 2)) run.2) ≠ 1%nat.
Proof.
  split_and!; [reflexivity | | reflexivity | reflexivity | discriminate].
  vm_compute. repeat constructor; discriminate.
Qed.

Lemma config_bit_wire_name_witness :
  bit_hierarchy_path "U0_formal_verification" "ccff_tail" example_modules 0%nat
      example_bitstream 0%nat
    = ret (dotted ("U0_formal_verification" :: ["grid_1_1"; "lut4"] ++ ["ccff_tail"])) ∧
  load_config_bit "U0_formal_verification" "ccff_tail" example_modules 0%nat
      example_bitstream 0%nat
    = (Returned (),
       [print_verilog_wire_constant_values
          {| bp_name := dotted ("U0_formal_verification" :: ["grid_1_1"; "lut4"]
                                  ++ ["ccff_tail"]);
             bp_lsb := 3; bp_msb := 3 |}
          [Z.b2z true]]) ∧
  ([1%nat; 2%nat] = [] →
     dotted ("U0_formal_verification" :: ["grid_1_1"; "lut4"] ++ ["ccff_tail"])
     = "U0_formal_verification" +:+ "." +:+ "ccff_tail") ∧
  (∀ child grandchild, ["grid_1_1"; "lut4"] = [child; grandchild] →
     dotted ("U0_formal_verification" :: ["grid_1_1"; "lut4"] ++ ["ccff_tail"])
     = "U0_formal_verification" +:+ "." +:+ child +:+ "." +:+ grandchild
       +:+ "." +:+ "ccff_tail").
Proof.
  apply (config_bit_wire_name "U0_formal_verification" "ccff_tail" example_modules 0%nat
           example_bitstream 0%nat
           {| cbit_parent := Some 2%nat; cbit_index := 3; cbit_value := true |}
           2%nat 0%nat [1%nat; 2%nat] ["grid_1_1"; "lut4"] example_top
           {| cb_name := "fpga_top"; cb_parent := None |}).
  - reflexivity.
  - reflexivity.
  - eapply parent_chain_step; [reflexivity | reflexivity |].
    eapply parent_chain_step; [reflexivity | reflexivity |].
    eapply parent_chain_root; reflexivity.
  - reflexivity.
  - reflexivity.
  - reflexivity.
  - repeat constructor.
Defined.

Lemma bitstream_loaded_in_input_order_witness :
  ∃ assignments,
    print_verilog_preconfig_top_module_load_bitstream "U0_formal_verification" "ccff_tail"
      example_modules 0%nat example_bitstream [2%nat; 0%nat; 1%nat]
    = (Returned (),
       print_verilog_comment "----- Begin load bitstream to configuration memories -----"
         :: assignments
         ++ [print_verilog_comment
               "----- End load bitstream to configuration memories -----"]) ∧
    Forall2 (λ bit stmt, ∃ path cbit,
        bits example_bitstream !! bit = Some cbit ∧
        bit_hierarchy_path "U0_formal_verification" "ccff_tail" example_modules 0%nat
          example_bitstream bit = ret path ∧
        stmt = print_verilog_wire_constant_values
                 {| bp_name := path; bp_lsb := cbit_index cbit; bp_msb := cbit_index cbit |}
                 [Z.b2z (cbit_value cbit)])
      [2%nat; 0%nat; 1%nat] assignments ∧
    length assignments = length [2%nat; 0%nat; 1%nat] ∧
    (∀ i bit, [2%nat; 0%nat; 1%nat] !! i = Some bit →
       ∃ stmt, assignments !! i = Some stmt ∧
               load_config_bit "U0_formal_verification" "ccff_tail" example_modules 0%nat
                 example_bitstream bit = (Returned (), [stmt])).
Proof.
  apply (bitstream_loaded_in_input_order "U0_formal_verification" "ccff_tail"
           example_modules 0%nat example_bitstream [2%nat; 0%nat; 1%nat]).
  repeat constructor; eexists; vm_compute; reflexivity.
Defined.

(** The instance of C6: bits of a switch block, of a LUT two levels down and
    of the top block, in that order, are loaded in that order. *)
Example bitstream_order_example :
  print_verilog_preconfig_top_module_load_bitstream "U0_formal_verification" "ccff_tail"
    example_modules 0%nat example_bitstream [2%nat; 0%nat; 1%nat]
  = (Returned (),
     [print_verilog_comment "----- Begin load bitstream to configuration memories -----";
      print_verilog_wire_constant_values
        {| bp_name := "U0_formal_verification.sb_0_0.ccff_tail"; bp_lsb := 1; bp_msb := 1 |}
        [1];
      print_verilog_wire_constant_values
        {| bp_name := "U0_formal_verification.grid_1_1.lut4.ccff_tail";
           bp_lsb := 3; bp_msb := 3 |} [1];
      print_verilog_wire_constant_values
        {| bp_name := "U0_formal_verification.ccff_tail"; bp_lsb := 0; bp_msb := 0 |} [0];
      print_verilog_comment "----- End load bitstream to configuration memories -----"]).
Proof. vm_compute. reflexivity. Qed.

(** * Part VI: more about the circuit-library checker *)

(** ** Counts and diagnostics go together *)

Lemma tallies_ret s b : 0 ≤ s < SIZE_MOD → 0 ≤ b → tallies (ret s) s b.
Proof.
  intros. exists []. unfold size. simpl.
  rewrite Z.add_0_r, wrap64_small by done. split_and!; [done | lia | constructor].
Qed.

Lemma tallies_weaken m s b b' : tallies m s b → b ≤ b' → tallies m s b'.
Proof. intros (log & -> & ? & ?) ?. exists log. split_and!; [done | lia | done]. Qed.

Lemma tallies_bind m f s b1 b2 :
  tallies m s b1 → (∀ v, 0 ≤ v < SIZE_MOD → tallies (f v) v b2) →
  tallies (bind m f) s (b1 + b2).
Proof.
  intros (l1 & -> & ? & ?) Hf.
  destruct (Hf (wrap64 (s + size l1))) as (l2 & Hl2 & ? & ?); [apply wrap64_range|].
  exists (l1 ++ l2). unfold bind. rewrite Hl2.
  split_and!; [|rewrite size_app; lia | by apply Forall_app].
  by rewrite wrap64_add_l, size_app, (assoc_L Z.add).
Qed.

Lemma tallies_report e s :
  counted_error e = true → tallies (emit e;; ret (incr s)) s 1.
Proof. intros. exists [e]. split_and!; [done | done | by repeat constructor]. Qed.

Lemma tallies_add_errors s m b :
  tallies m 0 b → tallies (add_errors s m) s b.
Proof.
  intros (log & -> & ? & ?). exists log. unfold add_errors. simpl.
  rewrite (right_id_L [] (++)), Z.add_0_l, wrap64_add_r. done.
Qed.

Lemma tallies_for_each {X} (body : X → Z → M message Z) xs s c :
  0 ≤ s < SIZE_MOD → 0 ≤ c →
  (∀ x s', x ∈ xs → 0 ≤ s' < SIZE_MOD → tallies (body x s') s' c) →
  tallies (for_each body xs s) s (c * size xs).
Proof.
  intros Hs Hc. revert s Hs. induction xs as [|x xs IH]; intros s Hs Hbody.
  - simpl. apply tallies_ret; unfold size; simpl; lia.
  - simpl for_each. replace (c * size (x :: xs)) with (c + c * size xs)
      by (unfold size; simpl length; lia).
    apply tallies_bind.
    + apply Hbody; [left | done].
    + intros v Hv. apply IH; [done|]. intros. apply Hbody; [by right | done].
Qed.

Lemma tallies_for_range (body : Z → Z → M message Z) lo hi s c :
  0 ≤ s < SIZE_MOD → 0 ≤ c → lo ≤ hi →
  (∀ i s', lo ≤ i < hi → 0 ≤ s' < SIZE_MOD → tallies (body i s') s' c) →
  tallies (for_range lo hi body s) s (c * (hi - lo)).
Proof.
  intros ??? Hbody. unfold for_range.
  replace (hi - lo) with (size (seqZ lo (hi - lo))) at 2
    by (unfold size; rewrite length_seqZ; lia).
  apply tallies_for_each; [done..|].
  intros i s' Hi ?. apply Hbody; [|done]. apply elem_of_seqZ in Hi. lia.
Qed.

Lemma zero_in_range : 0 ≤ 0 < SIZE_MOD.
Proof. by compute. Qed.

Lemma check_circuit_library_unique_names_tallies lib :
  tallies (check_circuit_library_unique_names lib) 0 (num_models lib * num_models lib).
Proof.
  assert (0 ≤ num_models lib) by (unfold num_models; lia).
  unfold check_circuit_library_unique_names.
  replace (num_models lib * num_models lib) with (num_models lib * (num_models lib - 0)) by lia.
  apply tallies_for_range; [apply zero_in_range|lia..|]. intros i s Hi Hs.
  case_bool_decide; [apply tallies_ret; lia|].
  destruct (find_model_is_Some lib i) as [mi Hmi]; [lia|].
  rewrite (model_name_ret _ _ _ Hmi), bind_ret_l.
  eapply tallies_weaken; [apply (tallies_for_range _ _ _ _ 1); [lia..|]|lia].
  intros j s' Hj Hs'. destruct (find_model_is_Some lib j) as [mj Hmj]; [lia|].
  rewrite (model_name_ret _ _ _ Hmj), bind_ret_l.
  case_bool_decide; [apply tallies_ret; lia | by apply tallies_report].
Qed.

Lemma check_circuit_library_unique_prefix_tallies lib :
  tallies (check_circuit_library_unique_prefix lib) 0 (num_models lib * num_models lib).
Proof.
  assert (0 ≤ num_models lib) by (unfold num_models; lia).
  unfold check_circuit_library_unique_prefix.
  replace (num_models lib * num_models lib) with (num_models lib * (num_models lib - 0)) by lia.
  apply tallies_for_range; [apply zero_in_range|lia..|]. intros i s Hi Hs.
  case_bool_decide; [apply tallies_ret; lia|].
  destruct (find_model_is_Some lib i) as [mi Hmi]; [lia|].
  rewrite (model_prefix_ret _ _ _ Hmi), bind_ret_l.
  eapply tallies_weaken; [apply (tallies_for_range _ _ _ _ 1); [lia..|]|lia].
  intros j s' Hj Hs'. destruct (find_model_is_Some lib j) as [mj Hmj]; [lia|].
  rewrite (model_prefix_ret _ _ _ Hmj), bind_ret_l.
  case_bool_decide; [apply tallies_ret; lia|].
  rewrite (model_name_ret _ _ _ Hmi), bind_ret_l.
  rewrite (model_name_ret _ _ _ Hmj), bind_ret_l.
  by apply tallies_report.
Qed.

Lemma check_circuit_library_ports_tallies lib :
  tallies (check_circuit_library_ports lib) 0 (2 * size (ports lib)).
Proof.
  assert (0 ≤ size (ports lib)) by (unfold size; lia).
  unfold check_circuit_library_ports.
  replace (2 * size (ports lib)) with (1 * size (ports lib) + 1 * size (ports lib)) by lia.
  apply tallies_bind; [|intros v Hv];
    (apply tallies_for_each; [first [apply zero_in_range | done] | lia |]);
    intros port s Hport Hs; apply elem_of_ports in Hport as [p Hp];
    destruct (find_port_model _ _ _ Hp) as [m Hm];
    unfold port_is_global, is_input_port, port_is_set, port_is_reset,
      port_is_config_enable, port_type, port_model_name, model_name;
    rewrite Hp, Hm; simpl.
  - destruct (cp_is_global p), (bool_decide (cp_type p = SPICE_MODEL_PORT_INPUT)); simpl;
      first [apply tallies_ret; [done | lia] | by apply (tallies_report _ s)].
  - destruct (cp_is_set p), (cp_is_reset p), (cp_is_config_enable p), (cp_is_global p); simpl;
      first [apply tallies_ret; [done | lia] | by apply (tallies_report _ s)].
Qed.

Lemma check_circuit_model_required_tallies lib t :
  tallies (check_circuit_model_required lib t) 0 1.
Proof.
  unfold check_circuit_model_required.
  case_bool_decide; [by apply tallies_report | apply tallies_ret; [apply zero_in_range | lia]].
Qed.

Lemma check_one_circuit_model_port_required_tallies lib id m types :
  find_model lib id = Some m →
  tallies (check_one_circuit_model_port_required lib id types) 0 (1 * size types).
Proof.
  intros Hm. unfold check_one_circuit_model_port_required.
  apply tallies_for_each; [apply zero_in_range | lia |]. intros pt s _ Hs.
  case_bool_decide; [|apply tallies_ret; [done | lia]].
  rewrite (model_type_ret _ _ _ Hm), bind_ret_l, (model_name_ret _ _ _ Hm), bind_ret_l.
  by apply tallies_report.
Qed.

Lemma check_circuit_model_port_required_tallies lib t types :
  tallies (check_circuit_model_port_required lib t types) 0 (size types * num_models lib).
Proof.
  assert (0 ≤ size types) by (unfold size; lia).
  pose proof (size_models_by_type lib t).
  unfold check_circuit_model_port_required.
  eapply tallies_weaken;
    [apply (tallies_for_each _ _ _ (size types)); [apply zero_in_range | lia |]|nia].
  intros id s Hid Hs. apply elem_of_models_by_type in Hid as (m & Hm & _).
  apply tallies_add_errors.
  eapply tallies_weaken; [by eapply check_one_circuit_model_port_required_tallies | lia].
Qed.

Ltac tallies_chain :=
  lazymatch goal with
  | |- tallies (add_errors _ _) _ _ => apply tallies_add_errors
  | |- tallies (if _ then _ else _) _ _ =>
      destruct (_ && _); [by apply tallies_report | apply tallies_ret; [done|]]
  | |- tallies (bind _ _) _ _ => apply tallies_bind; [tallies_chain | intros ? ?; tallies_chain]
  end.

(** Checks 1 to 9 return the number of diagnostics they printed. *)
Lemma accumulated_checks_tallies lib :
  tallies (accumulated_checks lib 0) 0
    (2 * (num_models lib * num_models lib) + 18 * num_models lib + 2 * size (ports lib) + 3).
Proof.
  assert (0 ≤ num_models lib) by (unfold num_models; lia).
  assert (0 ≤ size (ports lib)) by (unfold size; lia).
  eapply tallies_weaken.
  - unfold accumulated_checks. tallies_chain.
    all: first [ apply check_circuit_library_unique_names_tallies
               | apply check_circuit_library_unique_prefix_tallies
               | apply check_circuit_library_ports_tallies
               | apply check_circuit_model_required_tallies
               | apply check_circuit_model_port_required_tallies
               | idtac ].
    all: unfold size; simpl length; lia.
  - unfold size, iopad_port_types_required, mux_port_types_required,
      sram_port_types_required, scff_port_types_required, ff_port_types_required,
      lut_port_types_required. simpl length. lia.
Qed.

(** ** What each check prints *)

Lemma prints_ret s : 0 ≤ s < SIZE_MOD → prints (ret s) s [].
Proof. intros. unfold prints, size. simpl. by rewrite Z.add_0_r, wrap64_small. Qed.

Lemma prints_report e s : prints (emit e;; ret (incr s)) s [e].
Proof. done. Qed.

Lemma prints_bind m f s l1 l2 :
  prints m s l1 → (∀ v, 0 ≤ v < SIZE_MOD → prints (f v) v l2) →
  prints (bind m f) s (l1 ++ l2).
Proof.
  unfold prints. intros -> Hf. unfold bind.
  rewrite (Hf (wrap64 (s + size l1))) by apply wrap64_range.
  by rewrite wrap64_add_l, size_app, (assoc_L Z.add).
Qed.

Lemma prints_add_errors s m log : prints m 0 log → prints (add_errors s m) s log.
Proof.
  unfold prints, add_errors. intros ->. simpl.
  by rewrite (right_id_L [] (++)), Z.add_0_l, wrap64_add_r.
Qed.

(** A loop over ids that name the items [ys] prints what each item asks for,
    in order. *)
Lemma prints_for_each {X Y} (R : X → Y → Prop) (body : X → Z → M message Z)
    (g : Y → list message) xs ys s :
  Forall2 R xs ys → 0 ≤ s < SIZE_MOD →
  (∀ x y s', R x y → 0 ≤ s' < SIZE_MOD → prints (body x s') s' (g y)) →
  prints (for_each body xs s) s (ys ≫= g).
Proof.
  intros Hall Hs Hbody. revert s Hs. induction Hall as [|x y xs ys HR _ IH]; intros s Hs.
  - by apply prints_ret.
  - simpl for_each. rewrite bind_cons. apply prints_bind; [by apply Hbody|].
    intros v Hv. by apply IH.
Qed.

Lemma prints_silent m s log : prints m s log → 0 ≤ s < SIZE_MOD → log = [] → m = (Returned s, []).
Proof. unfold prints. intros -> ? ->. unfold size. simpl. by rewrite Z.add_0_r, wrap64_small. Qed.

Lemma prints_log m s log v log' : prints m s log → m = (Returned v, log') → log' = log.
Proof. unfold prints. intros -> [= _ ->]. done. Qed.

(** The ids of an enumeration name the elements in order. *)
Lemma Forall2_enumerate {A} (l : list A) :
  Forall2 (λ (ix : Z * A) x, ix.2 = x ∧ at_index l ix.1 = Some x) (enumerate l) l.
Proof.
  assert (∀ pre t k, l = pre ++ t → k = size pre →
    Forall2 (λ (ix : Z * A) x, ix.2 = x ∧ at_index l ix.1 = Some x)
      (zip (seqZ k (Z.of_nat (length t))) t) t) as Hgen.
  { intros pre t. revert pre. induction t as [|x t IH]; intros pre k Hl ->; [constructor|].
    change (length (x :: t)) with (S (length t)). rewrite zip_seqZ_cons.
    constructor.
    - split; [done|]. simpl. by rewrite Hl, at_index_app_r.
    - apply (IH (pre ++ [x])); [by rewrite <-(assoc_L (++)) | by rewrite size_app]. }
  by apply (Hgen [] l 0).
Qed.

Lemma Forall2_models_by_type lib t :
  Forall2 (λ id m, find_model lib id = Some m) (models_by_type lib t) (models_of_type lib t).
Proof.
  unfold models_by_type, models_of_type.
  induction (Forall2_enumerate (models lib)) as [|[i x] m ims ms [Hx Hi] _ IH];
    [constructor|].
  simpl in Hx, Hi. subst x. rewrite bind_cons, filter_cons. cbn [fst snd].
  case_bool_decide; case_decide; try done. by constructor.
Qed.

Lemma Forall2_ports lib :
  Forall2 (λ id mp, find_model lib id.1 = Some mp.1 ∧ find_port lib id = Some mp.2)
    (ports lib) (owned_ports lib).
Proof.
  unfold ports, owned_ports. apply Forall2_bind.
  eapply Forall2_impl; [apply Forall2_enumerate|].
  intros [i x] m [Hx Hm]. simpl in Hx, Hm. subst x. cbn [fst snd].
  apply Forall2_fmap. eapply Forall2_impl; [apply Forall2_enumerate|].
  intros [k y] p [Hy Hp]. simpl in Hy, Hp. subst y. cbn [fst snd].
  split; [done|]. by rewrite (find_port_at _ _ _ _ Hm).
Qed.

Lemma ports_of_type_nil lib model m t ig :
  find_model lib model = Some m →
  0 = size (model_ports_by_type lib model t ig) ↔ ports_of_type m t ig = [].
Proof.
  intros Hm. pose proof (model_ports_by_type_ports lib model m t ig Hm) as Hall.
  apply Forall2_length in Hall. unfold size. rewrite Hall.
  destruct (ports_of_type m t ig); simpl; split; (done || lia).
Qed.

Lemma models_of_type_nil lib t :
  0 = size (models_by_type lib t) ↔ models_of_type lib t = [].
Proof.
  pose proof (Forall2_length _ _ _ (Forall2_models_by_type lib t)) as Hlen.
  unfold size. rewrite Hlen.
  destruct (models_of_type lib t); simpl; split; (done || lia).
Qed.

(** *** Check 2: prefixes *)

Lemma name_of_middle lib pre m t :
  models lib = pre ++ m :: t → name_of lib (size pre) = cm_name m.
Proof. intros Hl. unfold name_of. by rewrite (find_model_middle _ _ _ _ Hl). Qed.

Lemma unique_prefix_inner lib i a pre t j0 s :
  models lib = pre ++ t → j0 = size pre → 0 ≤ s < SIZE_MOD → is_Some (find_model lib i) →
  for_range j0 (num_models lib) (λ j num_err,
    let* j_prefix := model_prefix lib j in
    if bool_decide (a ≠ j_prefix) then ret num_err else
    (let* i_name := model_name lib i in
     let* j_name := model_name lib j in
     emit (ERROR_same_prefix i_name j_name a);;
     ret (incr num_err))) s
  = (Returned (wrap64 (s + size (same_from a j0 (cm_prefix <$> t)))),
     (λ j, ERROR_same_prefix (name_of lib i) (name_of lib j) a)
       <$> same_from a j0 (cm_prefix <$> t)).
Proof.
  intros Hl Hj0 Hs [mi Hmi]. revert pre j0 s Hl Hj0 Hs.
  induction t as [|m t IH]; intros pre j0 s Hl -> Hs.
  - rewrite for_range_nil.
    + simpl. unfold size. simpl. by rewrite Z.add_0_r, wrap64_small.
    + unfold num_models. rewrite Hl, (right_id_L [] (++)). done.
  - rewrite for_range_step
      by (unfold num_models, size; rewrite Hl, length_app; simpl; lia).
    rewrite (model_prefix_ret _ _ _ (find_model_middle _ _ _ _ Hl)), bind_ret_l.
    assert (models lib = (pre ++ [m]) ++ t) as Hl' by (by rewrite <-(assoc_L (++))).
    assert (size pre + 1 = size (pre ++ [m])) as Hsz by (by rewrite size_app).
    rewrite fmap_cons. simpl same_from. destruct (decide (a = cm_prefix m)) as [Heq|Hne].
    + rewrite bool_decide_false by (by intros ?).
      rewrite Hsz. set (tail := for_range (size (pre ++ [m])) (num_models lib) _).
      rewrite (model_name_ret _ _ _ Hmi), bind_ret_l.
      rewrite (model_name_ret _ _ _ (find_model_middle _ _ _ _ Hl)), bind_ret_l.
      rewrite bind_report. subst tail.
      rewrite (IH (pre ++ [m]) _ (incr s) Hl' eq_refl) by apply wrap64_range.
      unfold incr. rewrite wrap64_add_l, fmap_cons. cbn [fst snd].
      assert (name_of lib i = cm_name mi) as Hni by (unfold name_of; by rewrite Hmi).
      rewrite (name_of_middle _ _ _ _ Hl), ?Hni.
      f_equal. do 2 f_equal. unfold size. simpl length. lia.
    + rewrite bool_decide_true by done. rewrite bind_ret_l, Hsz.
      by rewrite (IH (pre ++ [m]) _ s Hl' eq_refl).
Qed.

Lemma unique_prefix_outer lib pre t i0 s :
  models lib = pre ++ t → i0 = size pre → num_models lib < SIZE_MOD → 0 ≤ s < SIZE_MOD →
  for_range i0 (num_models lib) (λ i num_err,
    if bool_decide (i = wrap64 (num_models lib - 1)) then ret num_err else
    let* i_prefix := model_prefix lib i in
    for_range (i + 1) (num_models lib) (λ j num_err,
      let* j_prefix := model_prefix lib j in
      if bool_decide (i_prefix ≠ j_prefix) then ret num_err else
      (let* i_name := model_name lib i in
       let* j_name := model_name lib j in
       emit (ERROR_same_prefix i_name j_name i_prefix);;
       ret (incr num_err))) num_err) s
  = (Returned (wrap64 (s + size (duplicate_pairs i0 (cm_prefix <$> t)))),
     same_prefix_error lib <$> duplicate_pairs i0 (cm_prefix <$> t)).
Proof.
  intros Hl Hi0 Hn. revert pre i0 s Hl Hi0.
  induction t as [|m t IH]; intros pre i0 s Hl -> Hs.
  - rewrite for_range_nil.
    + simpl. unfold size. simpl. by rewrite Z.add_0_r, wrap64_small.
    + unfold num_models. rewrite Hl, (right_id_L [] (++)). done.
  - assert (num_models lib = size pre + 1 + size t) as Hnum
      by (unfold num_models, size; rewrite Hl, length_app; simpl; lia).
    pose proof (size_nonneg pre). pose proof (size_nonneg t).
    rewrite for_range_step by lia.
    assert (models lib = (pre ++ [m]) ++ t) as Hl' by (by rewrite <-(assoc_L (++))).
    assert (size pre + 1 = size (pre ++ [m])) as Hsz by (by rewrite size_app).
    rewrite fmap_cons. simpl duplicate_pairs. case_bool_decide as Hlast.
    + rewrite wrap64_small in Hlast by lia.
      assert (t = []) as -> by (destruct t; [done | unfold size in *; simpl in *; lia]).
      rewrite bind_ret_l, for_range_nil by lia. simpl.
      unfold size. simpl. by rewrite Z.add_0_r, wrap64_small.
    + rewrite (model_prefix_ret _ _ _ (find_model_middle _ _ _ _ Hl)), bind_ret_l.
      rewrite Hsz. rewrite (unique_prefix_inner _ _ _ _ _ _ _ Hl' eq_refl Hs)
        by (rewrite (find_model_middle _ _ _ _ Hl); eauto).
      rewrite bind_returned.
      rewrite (IH (pre ++ [m]) _ _ Hl' eq_refl) by apply wrap64_range.
      cbn [fst snd]. rewrite wrap64_add_l, fmap_app, <-list_fmap_compose.
      f_equal. do 2 f_equal. unfold size. rewrite !length_app, length_fmap. lia.
Qed.

Lemma same_from_nil a j l : same_from a j l = [] ↔ a ∉ l.
Proof.
  revert j. induction l as [|b l IH]; intros j; simpl.
  - split; [intros _ ?%elem_of_nil; done | done].
  - rewrite not_elem_of_cons. case_decide as Hab.
    + split; [done | intros [? _]; done].
    + rewrite IH. split; [by intros ? | by intros [_ ?]].
Qed.

Lemma duplicate_pairs_nil i l : duplicate_pairs i l = [] ↔ NoDup l.
Proof.
  revert i. induction l as [|a l IH]; intros i; simpl.
  - split; [constructor | done].
  - rewrite NoDup_cons, <-(IH (i + 1)), <-(same_from_nil a (i + 1)). split.
    + intros [Hf ?]%app_eq_nil. split; [|done]. by apply fmap_nil_inv in Hf.
    + intros [-> ->]. done.
Qed.

Lemma check_circuit_library_unique_names_prints lib :
  num_models lib < SIZE_MOD →
  prints (check_circuit_library_unique_names lib) 0 (name_errors lib).
Proof.
  intros Hn. unfold prints, check_circuit_library_unique_names, name_errors.
  rewrite (unique_names_outer lib [] (models lib) 0 0);
    [|done|done|done|apply zero_in_range].
  unfold size. by rewrite length_fmap.
Qed.

Lemma check_circuit_library_unique_prefix_prints lib :
  num_models lib < SIZE_MOD →
  prints (check_circuit_library_unique_prefix lib) 0 (prefix_errors lib).
Proof.
  intros Hn. unfold prints, check_circuit_library_unique_prefix, prefix_errors.
  rewrite (unique_prefix_outer lib [] (models lib) 0 0);
    [|done|done|done|apply zero_in_range].
  unfold size. by rewrite length_fmap.
Qed.

(** X1.  On a catalog whose size fits a [size_t], the unique-name check
    returns 0 and prints nothing exactly when no two models carry the same
    name. *)
Theorem unique_names_accepts_distinct_names lib :
  num_models lib < SIZE_MOD →
  check_circuit_library_unique_names lib = (Returned 0, [])
  ↔ NoDup (cm_name <$> models lib).
Proof.
  intros Hn. pose proof (check_circuit_library_unique_names_prints lib Hn) as Hp.
  rewrite <-(duplicate_pairs_nil 0). split.
  - intros Hrun. apply (prints_log _ _ _ _ _ Hp) in Hrun.
    unfold name_errors in Hrun. symmetry in Hrun. by apply fmap_nil_inv in Hrun.
  - intros Hnil. apply (prints_silent _ _ _ Hp); [apply zero_in_range|].
    unfold name_errors. by rewrite Hnil.
Qed.

(** X2.  On a catalog whose size fits a [size_t], the unique-prefix check
    prints one diagnostic for every pair [i < j] of models with the same
    prefix, in the order of the two nested loops (by [i], then by [j]), each
    carrying the names of the two models and the shared prefix, and returns
    their number (as a [size_t]). *)
Theorem unique_prefix_reports_each_pair lib :
  num_models lib < SIZE_MOD →
  let pairs := duplicate_pairs 0 (cm_prefix <$> models lib) in
  check_circuit_library_unique_prefix lib
    = (Returned (wrap64 (size pairs)), same_prefix_error lib <$> pairs) ∧
  NoDup pairs ∧
  (∀ i j a, (i, j, a) ∈ pairs ↔
     ∃ mi mj, i < j ∧ find_model lib i = Some mi ∧ find_model lib j = Some mj ∧
              cm_prefix mi = a ∧ cm_prefix mj = a) ∧
  (∀ i j a mi mj, find_model lib i = Some mi → find_model lib j = Some mj →
     same_prefix_error lib (i, j, a) = ERROR_same_prefix (cm_name mi) (cm_name mj) a).
Proof.
  intros Hn pairs. split_and!.
  - pose proof (check_circuit_library_unique_prefix_prints lib Hn) as Hp.
    unfold prints, prefix_errors in Hp. fold pairs in Hp. rewrite Hp.
    unfold size. by rewrite length_fmap.
  - apply NoDup_duplicate_pairs.
  - intros i j a. unfold pairs. rewrite elem_of_duplicate_pairs. split.
    + intros (x & y & -> & -> & Hxy & Hx & Hy).
      rewrite list_lookup_fmap in Hx, Hy.
      destruct (models lib !! x) as [mi|] eqn:Hmi; [|done].
      destruct (models lib !! y) as [mj|] eqn:Hmj; [|done].
      exists mi, mj. unfold find_model. rewrite !Z.add_0_l, !at_index_nat.
      simplify_eq/=. split_and!; try done. lia.
    + intros (mi & mj & Hij & Hmi & Hmj & <- & Ha).
      pose proof (at_index_Some _ _ _ Hmi). pose proof (at_index_Some _ _ _ Hmj).
      unfold find_model in Hmi, Hmj.
      rewrite <-(Z2Nat.id i), at_index_nat in Hmi by lia.
      rewrite <-(Z2Nat.id j), at_index_nat in Hmj by lia.
      exists (Z.to_nat i), (Z.to_nat j). rewrite !list_lookup_fmap, Hmi, Hmj. simpl.
      split_and!; try lia; [done | by rewrite Ha].
  - intros i j a mi mj Hmi Hmj. unfold same_prefix_error, name_of. simpl.
    by rewrite Hmi, Hmj.
Qed.

(** X3.  On a catalog whose size fits a [size_t], the unique-prefix check
    returns 0 and prints nothing exactly when no two models carry the same
    prefix. *)
Theorem unique_prefix_accepts_distinct_prefixes lib :
  num_models lib < SIZE_MOD →
  check_circuit_library_unique_prefix lib = (Returned 0, [])
  ↔ NoDup (cm_prefix <$> models lib).
Proof.
  intros Hn. pose proof (check_circuit_library_unique_prefix_prints lib Hn) as Hp.
  rewrite <-(duplicate_pairs_nil 0). split.
  - intros Hrun. apply (prints_log _ _ _ _ _ Hp) in Hrun.
    unfold prefix_errors in Hrun. symmetry in Hrun. by apply fmap_nil_inv in Hrun.
  - intros Hnil. apply (prints_silent _ _ _ Hp); [apply zero_in_range|].
    unfold prefix_errors. by rewrite Hnil.
Qed.

(** *** The global-port rules *)

Lemma check_circuit_library_ports_prints lib :
  prints (check_circuit_library_ports lib) 0
    (global_not_input_errors lib ++ not_global_errors lib).
Proof.
  unfold check_circuit_library_ports. apply prints_bind; [|intros v Hv].
  - apply (prints_for_each _ _ _ _ _ _ (Forall2_ports lib) zero_in_range).
    intros id [m p] s [Hm Hp] Hs. cbn [fst snd] in *.
    unfold port_is_global, is_input_port, port_type, port_model_name, model_name,
      global_not_input.
    rewrite Hp, Hm. simpl.
    destruct (cp_is_global p), (bool_decide (cp_type p = SPICE_MODEL_PORT_INPUT)); simpl;
      first [by apply prints_ret | apply (prints_report _ s)].
  - apply (prints_for_each _ _ _ _ _ _ (Forall2_ports lib) Hv).
    intros id [m p] s [Hm Hp] Hs. cbn [fst snd] in *.
    unfold port_is_global, port_is_set, port_is_reset, port_is_config_enable, port_type,
      port_model_name, model_name, local_set_reset.
    rewrite Hp, Hm. simpl.
    destruct (cp_is_set p), (cp_is_reset p), (cp_is_config_enable p), (cp_is_global p); simpl;
      first [by apply prints_ret | apply (prints_report _ s)].
Qed.

Lemma elem_of_owned_ports lib m p :
  (m, p) ∈ owned_ports lib ↔ m ∈ models lib ∧ p ∈ cm_ports m.
Proof.
  unfold owned_ports. rewrite list_elem_of_bind. split.
  - intros (m' & (p' & [= -> ->] & Hp)%list_elem_of_fmap & Hm). done.
  - intros [Hm Hp]. exists m. split; [|done]. apply list_elem_of_fmap. eauto.
Qed.

Lemma bind_nil_iff {A B} (f : A → list B) (l : list A) :
  l ≫= f = [] ↔ ∀ x, x ∈ l → f x = [].
Proof.
  induction l as [|a l IH].
  - split; [intros _ x ?%elem_of_nil; done | done].
  - rewrite bind_cons. split.
    + intros [Ha Hl]%app_eq_nil x [->|Hx]%elem_of_cons; [done|]. by apply IH.
    + intros Hall. rewrite (Hall a) by left. simpl. apply IH.
      intros x Hx. apply Hall. by right.
Qed.

(** X4.  [check_circuit_library_ports] makes two passes over the ports of
    the catalog.  The first prints one diagnostic for each global port whose
    type is not INPUT, the second one for each port flagged set, reset or
    config-enable that is not global; each diagnostic names the port's type
    and the model that owns the port, and they come in port order within a
    pass.  The value returned is the number of diagnostics. *)
Theorem ports_check_reports_each_offending_port lib :
  let log := global_not_input_errors lib ++ not_global_errors lib in
  check_circuit_library_ports lib = (Returned (wrap64 (size log)), log) ∧
  (log = [] ↔ ∀ m p, m ∈ models lib → p ∈ cm_ports m →
                global_not_input p = false ∧ local_set_reset p = false).
Proof.
  intros log. split; [apply check_circuit_library_ports_prints|].
  unfold log, global_not_input_errors, not_global_errors. split.
  - intros [H1 H2]%app_eq_nil m p Hm Hp.
    rewrite bind_nil_iff in H1, H2.
    assert ((m, p) ∈ owned_ports lib) as Hmp by (by apply elem_of_owned_ports).
    specialize (H1 _ Hmp). specialize (H2 _ Hmp). simpl in H1, H2.
    split; [by destruct (global_not_input p) | by destruct (local_set_reset p)].
  - intros Hall.
    rewrite (proj2 (bind_nil_iff _ (owned_ports lib))), (proj2 (bind_nil_iff _ (owned_ports lib)));
      [done|..]; intros [m p] [Hm Hp]%elem_of_owned_ports;
      destruct (Hall m p Hm Hp) as [H1 H2]; simpl; by rewrite ?H1, ?H2.
Qed.

(** *** Required models and required port types *)

Lemma check_circuit_model_required_prints lib t :
  prints (check_circuit_model_required lib t) 0 (model_required_errors lib t).
Proof.
  unfold check_circuit_model_required, model_required_errors.
  pose proof (models_of_type_nil lib t) as Hnil.
  case_bool_decide; case_decide; try tauto;
    [apply prints_report | apply prints_ret, zero_in_range].
Qed.

Lemma check_one_circuit_model_port_required_prints lib id m types :
  find_model lib id = Some m →
  prints (check_one_circuit_model_port_required lib id types) 0 (no_port_errors types m).
Proof.
  intros Hm. unfold check_one_circuit_model_port_required, no_port_errors, missing_port_types.
  set (body := λ (port_type : e_spice_model_port_type) (num_err : Z), _).
  cut (∀ s, 0 ≤ s < SIZE_MOD →
         prints (for_each body types s) s
           (ERROR_no_port (cm_type m) (cm_name m)
              <$> filter (λ t, ports_of_type m t false = []) types));
    [intros Hgen; apply Hgen, zero_in_range|].
  induction types as [|pt types IH]; intros s Hs; [by apply prints_ret|].
  simpl for_each. unfold body at 1. rewrite filter_cons.
  pose proof (ports_of_type_nil lib id m pt false Hm) as Hnil.
  case_bool_decide; case_decide; try tauto.
  - rewrite (model_type_ret _ _ _ Hm), bind_ret_l, (model_name_ret _ _ _ Hm), bind_ret_l.
    rewrite fmap_cons. apply (prints_bind _ _ _ [_]); [apply prints_report|].
    intros v Hv. by apply IH.
  - rewrite bind_ret_l. by apply IH.
Qed.

Lemma check_circuit_model_port_required_prints lib t types :
  prints (check_circuit_model_port_required lib t types) 0 (port_required_errors lib t types).
Proof.
  unfold check_circuit_model_port_required, port_required_errors.
  apply (prints_for_each _ _ _ _ _ _ (Forall2_models_by_type lib t) zero_in_range).
  intros id m s Hm Hs. apply prints_add_errors.
  by apply check_one_circuit_model_port_required_prints.
Qed.

Lemma elem_of_models_of_type lib t m :
  m ∈ models_of_type lib t ↔ m ∈ models lib ∧ cm_type m = t.
Proof. unfold models_of_type. rewrite list_elem_of_filter. tauto. Qed.

Lemma models_of_type_nil_iff lib t : models_of_type lib t = [] ↔ ¬ has_model lib t.
Proof.
  unfold has_model. split.
  - intros Hnil (m & Hm & Ht).
    assert (m ∈ models_of_type lib t) as Hin by (by apply elem_of_models_of_type).
    rewrite Hnil in Hin. by apply elem_of_nil in Hin.
  - intros Hno. destruct (models_of_type lib t) as [|m ms] eqn:Heq; [done|].
    destruct Hno. exists m. apply elem_of_models_of_type. rewrite Heq. left.
Qed.

Lemma ports_of_type_all_nil m pt :
  ports_of_type m pt false = [] ↔ ¬ ∃ p, p ∈ cm_ports m ∧ cp_type p = pt.
Proof.
  unfold ports_of_type. split.
  - intros Hnil (p & Hp & Ht).
    assert (p ∈ filter (λ p, cp_type p = pt ∧ (false = true → cp_is_global p = false))
                  (cm_ports m)) as Hin by (apply list_elem_of_filter; done).
    rewrite Hnil in Hin. by apply elem_of_nil in Hin.
  - intros Hno.
    destruct (filter _ (cm_ports m)) as [|p ps] eqn:Heq; [done|].
    destruct Hno. exists p.
    assert (p ∈ filter (λ p, cp_type p = pt ∧ (false = true → cp_is_global p = false))
                  (cm_ports m)) as Hin by (rewrite Heq; left).
    apply list_elem_of_filter in Hin. tauto.
Qed.

Lemma port_required_errors_nil lib t types :
  port_required_errors lib t types = [] ↔ has_port_types lib t types.
Proof.
  unfold port_required_errors, has_port_types, no_port_errors, missing_port_types.
  rewrite bind_nil_iff. split.
  - intros Hall m Hm Ht pt Hpt.
    specialize (Hall m (proj2 (elem_of_models_of_type _ _ _) (conj Hm Ht))).
    apply fmap_nil_inv in Hall.
    destruct (decide (ports_of_type m pt false = [])) as [Hnil|Hsome].
    + assert (pt ∈ filter (λ t, ports_of_type m t false = []) types) as Hin
        by (by apply list_elem_of_filter).
      rewrite Hall in Hin. by apply elem_of_nil in Hin.
    + destruct (cm_ports m) as [|p0 ps0] eqn:Hports.
      { destruct Hsome. unfold ports_of_type. by rewrite Hports. }
      rewrite <-Hports in *. clear Hports.
      destruct (ports_of_type m pt false) as [|p ps] eqn:Heq; [done|].
      assert (p ∈ ports_of_type m pt false) as Hin by (rewrite Heq; left).
      unfold ports_of_type in Hin. apply list_elem_of_filter in Hin. exists p. tauto.
  - intros Hall m [Hm Ht]%elem_of_models_of_type.
    destruct (filter _ types) as [|pt pts] eqn:Heq; [done|].
    assert (pt ∈ filter (λ t, ports_of_type m t false = []) types) as Hin
      by (rewrite Heq; left).
    apply list_elem_of_filter in Hin as [Hnil Hpt].
    apply ports_of_type_all_nil in Hnil. destruct Hnil. eauto.
Qed.

(** X5.  The required-port-type check visits the models of the given type
    in catalog order and, for each, the required port types in the order
    given; it prints one diagnostic (model type, model name, port type) for
    each required type the model has no port of, global ports counting as
    ports, and returns the number of diagnostics.  It returns 0 and prints
    nothing exactly when every model of the type has a port of each required
    type. *)
Theorem port_required_reports_each_missing_type lib t types :
  let log := models_of_type lib t ≫= (λ m,
               ERROR_no_port (cm_type m) (cm_name m) <$> missing_port_types m types) in
  check_circuit_model_port_required lib t types = (Returned (wrap64 (size log)), log) ∧
  (check_circuit_model_port_required lib t types = (Returned 0, [])
   ↔ has_port_types lib t types).
Proof.
  pose proof (check_circuit_model_port_required_prints lib t types) as Hp.
  split; [exact Hp|]. rewrite <-port_required_errors_nil. split.
  - intros Hrun. by rewrite (prints_log _ _ _ _ _ Hp Hrun).
  - intros Hnil. by apply (prints_silent _ _ _ Hp zero_in_range).
Qed.

(** *** The whole pass *)

Lemma sram_or_scff_prints lib s :
  0 ≤ s < SIZE_MOD →
  prints (if bool_decide (0 = size (models_by_type lib SPICE_MODEL_SRAM))
             && bool_decide (0 = size (models_by_type lib SPICE_MODEL_SCFF))
          then (emit ERROR_sram_or_scff_required;; ret (incr s)) else ret s)
    s (sram_or_scff_errors lib).
Proof.
  intros Hs. unfold sram_or_scff_errors.
  pose proof (models_of_type_nil lib SPICE_MODEL_SRAM).
  pose proof (models_of_type_nil lib SPICE_MODEL_SCFF).
  destruct (decide (models_of_type lib SPICE_MODEL_SRAM = [] ∧
                    models_of_type lib SPICE_MODEL_SCFF = [])) as [[? ?]|Hno].
  - rewrite !bool_decide_true by tauto. apply prints_report.
  - replace (_ && _) with false; [by apply prints_ret|].
    symmetry. apply not_true_iff_false. intros [?%bool_decide_eq_true ?%bool_decide_eq_true]%andb_true_iff.
    tauto.
Qed.

Ltac prints_chain :=
  lazymatch goal with
  | |- prints (add_errors _ _) _ _ => apply prints_add_errors
  | |- prints (if _ then _ else _) _ _ => by apply sram_or_scff_prints
  | |- prints (bind _ _) _ _ => apply prints_bind; [prints_chain | intros ? ?; prints_chain]
  end.

Lemma accumulated_checks_prints lib :
  num_models lib < SIZE_MOD →
  prints (accumulated_checks lib 0) 0 (validate_errors lib).
Proof.
  intros Hn. unfold accumulated_checks, validate_errors. prints_chain.
  all: first [ by apply check_circuit_library_unique_names_prints
             | by apply check_circuit_library_unique_prefix_prints
             | apply check_circuit_library_ports_prints
             | apply check_circuit_model_required_prints
             | apply check_circuit_model_port_required_prints ].
Qed.

Lemma fits_size_t_models lib : fits_size_t lib → num_models lib < SIZE_MOD.
Proof. intros [? _]. unfold SIZE_MOD. lia. Qed.

(** On a catalog that fits, the counter of checks 1 to 9 does not wrap. *)
Lemma accumulated_checks_fits lib :
  fits_size_t lib →
  accumulated_checks lib 0 = (Returned (size (validate_errors lib)), validate_errors lib) ∧
  Forall (λ msg, counted_error msg = true) (validate_errors lib).
Proof.
  intros Hfit. pose proof (accumulated_checks_prints lib (fits_size_t_models _ Hfit)) as Hp.
  destruct (accumulated_checks_tallies lib) as (log & Hrun & Hle & Hall).
  pose proof (prints_log _ _ _ _ _ Hp Hrun) as ->.
  split; [|done]. rewrite Hp, Z.add_0_l, wrap64_small; [done|].
  destruct Hfit as [Hm Hports]. pose proof (size_nonneg (validate_errors lib)).
  assert (0 ≤ num_models lib) by (unfold num_models; lia).
  unfold SIZE_MOD. nia.
Qed.

Lemma check_circuit_library_with_defaults lib :
  fits_size_t lib →
  Forall (λ t, is_Some (default_model lib t)) required_default_types →
  check_circuit_library lib
  = (match validate_errors lib with [] => Returned () | _ => Exited 1 end,
     INFO_checking_circuit_models
       :: validate_errors lib ++ [INFO_finished_checking (size (validate_errors lib))]).
Proof.
  intros Hfit Hdef. destruct (accumulated_checks_fits lib Hfit) as [Hacc _].
  rewrite check_circuit_library_blocks, Hacc. unfold emit. run_binds.
  pose proof (size_nonneg (validate_errors lib)) as Hge.
  assert (size (validate_errors lib) < SIZE_MOD) as Hlt.
  { destruct (accumulated_checks_tallies lib) as (log & Hrun & Hle & _).
    rewrite Hacc in Hrun. injection Hrun as _ <-.
    destruct Hfit as [Hm Hports]. assert (0 ≤ num_models lib) by (unfold num_models; lia).
    unfold SIZE_MOD. nia. }
  rewrite default_model_checks_registered by done. unfold ret. run_binds.
  destruct (validate_errors lib) as [|e errs] eqn:Herrs.
  - by rewrite bool_decide_false by (unfold size; simpl; lia).
  - by rewrite bool_decide_true by (unfold size in *; simpl length in *; lia).
Qed.

Lemma default_model_checks_unregistered lib v :
  ¬ Forall (λ t, is_Some (default_model lib t)) required_default_types →
  ∃ t, default_model_checks lib v = (Exited 1, [ERROR_no_default_model t]).
Proof.
  intros Hno. unfold default_model_checks, check_required_default_circuit_model, add_errors.
  destruct (default_model lib SPICE_MODEL_MUX) eqn:Hmux; [|by eexists].
  destruct (default_model lib SPICE_MODEL_CHAN_WIRE) eqn:Hchan; [|by eexists].
  destruct (default_model lib SPICE_MODEL_WIRE) eqn:Hwire; [|by eexists].
  destruct Hno. unfold required_default_types. repeat constructor; by eexists.
Qed.

Lemma validate_errors_nil lib :
  validate_errors lib = [] ↔
  NoDup (cm_name <$> models lib) ∧
  NoDup (cm_prefix <$> models lib) ∧
  (∀ m p, m ∈ models lib → p ∈ cm_ports m →
     global_not_input p = false ∧ local_set_reset p = false) ∧
  has_model lib SPICE_MODEL_IOPAD ∧
  has_port_types lib SPICE_MODEL_IOPAD iopad_port_types_required ∧
  has_model lib SPICE_MODEL_MUX ∧
  has_port_types lib SPICE_MODEL_MUX mux_port_types_required ∧
  (has_model lib SPICE_MODEL_SRAM ∨ has_model lib SPICE_MODEL_SCFF) ∧
  has_port_types lib SPICE_MODEL_SRAM sram_port_types_required ∧
  has_port_types lib SPICE_MODEL_SCFF scff_port_types_required ∧
  has_port_types lib SPICE_MODEL_FF ff_port_types_required ∧
  has_port_types lib SPICE_MODEL_LUT lut_port_types_required.
Proof.
  assert (∀ l1 l2 : list message, l1 ++ l2 = [] ↔ l1 = [] ∧ l2 = []) as Happ.
  { intros l1 l2. split; [apply app_eq_nil | by intros [-> ->]]. }
  assert (∀ t, has_model lib t ↔ models_of_type lib t ≠ []) as Hhas.
  { intros t. split.
    - intros Hm Hnil. by apply models_of_type_nil_iff in Hnil.
    - intros Hnn. destruct (models_of_type lib t) as [|m ms] eqn:Heq; [done|].
      exists m. apply elem_of_models_of_type. rewrite Heq. left. }
  assert (∀ t, model_required_errors lib t = [] ↔ has_model lib t) as Hreq.
  { intros t. unfold model_required_errors. rewrite Hhas. by case_decide. }
  assert (sram_or_scff_errors lib = [] ↔
          has_model lib SPICE_MODEL_SRAM ∨ has_model lib SPICE_MODEL_SCFF) as Hsram.
  { unfold sram_or_scff_errors. rewrite !Hhas. case_decide as Hd.
    - split; [done|]. destruct Hd. tauto.
    - split; [|done]. intros _.
      destruct (models_of_type lib SPICE_MODEL_SRAM); [|by left].
      destruct (models_of_type lib SPICE_MODEL_SCFF); [|by right]. tauto. }
  unfold validate_errors. rewrite !Happ, !port_required_errors_nil, !Hreq, Hsram.
  unfold name_errors, prefix_errors.
  rewrite <-(duplicate_pairs_nil 0 (cm_name <$> models lib)).
  rewrite <-(duplicate_pairs_nil 0 (cm_prefix <$> models lib)).
  assert (∀ (f : Z * Z * string → message) l, f <$> l = [] ↔ l = []) as Hfmap.
  { intros f l. split; [apply fmap_nil_inv | by intros ->]. }
  rewrite !Hfmap.
  assert (global_not_input_errors lib = [] ∧ not_global_errors lib = [] ↔
          ∀ m p, m ∈ models lib → p ∈ cm_ports m →
            global_not_input p = false ∧ local_set_reset p = false) as Hports.
  { unfold global_not_input_errors, not_global_errors. rewrite !bind_nil_iff. split.
    - intros [H1 H2] m p Hm Hp.
      assert ((m, p) ∈ owned_ports lib) as Hmp by (by apply elem_of_owned_ports).
      specialize (H1 _ Hmp). specialize (H2 _ Hmp). simpl in H1, H2.
      split; [by destruct (global_not_input p) | by destruct (local_set_reset p)].
    - intros Hall. split; intros [m p] [Hm Hp]%elem_of_owned_ports;
        destruct (Hall m p Hm Hp) as [H1 H2]; simpl; by rewrite ?H1, ?H2. }
  rewrite Hports. tauto.
Qed.

(** X6.  On a catalog that fits ([fits_size_t]) and has the three required
    default models, [check_circuit_library] prints the opening line, then
    the diagnostics of checks 1 to 9 in the order of the checks (duplicate
    names, duplicate prefixes, the two global-port rules, IOPAD required and
    its port types, MUX required and its port types, SRAM-or-SCFF required,
    the port types of SRAM, SCFF, FF and LUT), then the closing line with the
    number of those diagnostics.  It returns if there were none and calls
    [exit(1)] otherwise. *)
Theorem validate_prints_every_error_and_the_count lib :
  fits_size_t lib →
  Forall (λ t, is_Some (default_model lib t)) required_default_types →
  let errs := validate_errors lib in
  check_circuit_library lib
  = (match errs with [] => Returned () | _ => Exited 1 end,
     INFO_checking_circuit_models :: errs ++ [INFO_finished_checking (size errs)]) ∧
  Forall (λ msg, counted_error msg = true) errs.
Proof.
  intros Hfit Hdef errs. split.
  - by apply check_circuit_library_with_defaults.
  - by apply accumulated_checks_fits.
Qed.

(** X7.  The acceptance criterion of the pass.  On a catalog that fits,
    [check_circuit_library] returns to its caller exactly when the catalog
    is valid: names and prefixes are unique, every global port is an input
    port, every set, reset or config-enable port is global, there is an
    IOPAD, a MUX and an SRAM or an SCFF model, the models of the types IOPAD,
    MUX, SRAM, SCFF, FF and LUT have the port types required of them, and
    MUX, CHAN_WIRE and WIRE have a default model.  It then has printed the
    opening line and an error count of 0, and nothing else. *)
Theorem validate_returns_iff_catalog_valid lib :
  fits_size_t lib →
  (valid_catalog lib →
     check_circuit_library lib
     = (Returned (), [INFO_checking_circuit_models; INFO_finished_checking 0])) ∧
  (∀ log, check_circuit_library lib = (Returned (), log) → valid_catalog lib).
Proof.
  intros Hfit. split.
  - intros Hvalid.
    assert (validate_errors lib = []) as Hnil by (apply validate_errors_nil; unfold valid_catalog in Hvalid; tauto).
    rewrite check_circuit_library_with_defaults; [by rewrite Hnil | done |].
    unfold valid_catalog in Hvalid. tauto.
  - intros log Hrun.
    destruct (decide (Forall (λ t, is_Some (default_model lib t)) required_default_types))
      as [Hdef|Hno].
    + rewrite check_circuit_library_with_defaults in Hrun by done.
      destruct (validate_errors lib) eqn:Herrs; [|done].
      apply validate_errors_nil in Herrs. unfold valid_catalog. tauto.
    + destruct (accumulated_checks_fits lib Hfit) as [Hacc _].
      destruct (default_model_checks_unregistered lib (size (validate_errors lib)) Hno)
        as [t Hexit].
      rewrite check_circuit_library_blocks, Hacc in Hrun. unfold emit in Hrun.
      revert Hrun. run_binds. rewrite Hexit. done.
Qed.

(** X8.  Whatever the catalog, [check_circuit_library] either returns or
    calls [exit(1)]: it never looks up a model or port id that names
    nothing, and it has no other exit code.  The opening line is always
    printed first. *)
Theorem validate_returns_or_exits_with_1 lib :
  ∃ log,
    check_circuit_library lib = (Returned (), INFO_checking_circuit_models :: log) ∨
    check_circuit_library lib = (Exited 1, INFO_checking_circuit_models :: log).
Proof.
  destruct (accumulated_checks_tallies lib) as (log & Hacc & _ & _).
  rewrite check_circuit_library_blocks, Hacc. unfold emit. run_binds.
  destruct (decide (Forall (λ t, is_Some (default_model lib t)) required_default_types))
    as [Hdef|Hno].
  - rewrite default_model_checks_registered by (done || apply wrap64_range).
    unfold ret. run_binds. case_bool_decide; eexists; [right|left]; done.
  - destruct (default_model_checks_unregistered lib (wrap64 (0 + size log)) Hno) as [t ->].
    eexists. right. done.
Qed.


(** *** A catalog without IOPAD *)

Lemma port_required_errors_not_iopad lib t types :
  Forall (λ m, cm_type m ≠ SPICE_MODEL_IOPAD) (models lib) →
  Forall (λ msg, about_iopad msg = false) (port_required_errors lib t types).
Proof.
  intros Hno. apply Forall_forall. intros msg Hin.
  unfold port_required_errors, no_port_errors in Hin.
  apply list_elem_of_bind in Hin as (m & Hin & [Hm _]%elem_of_models_of_type).
  apply list_elem_of_fmap in Hin as (pt & -> & _).
  rewrite Forall_forall in Hno. specialize (Hno m Hm). simpl.
  by destruct (cm_type m).
Qed.

Lemma model_required_errors_not_iopad lib t :
  t ≠ SPICE_MODEL_IOPAD →
  Forall (λ msg, about_iopad msg = false) (model_required_errors lib t).
Proof.
  intros Ht. unfold model_required_errors. case_decide; [|constructor].
  repeat constructor. simpl. by destruct t.
Qed.

Lemma first_checks_not_iopad lib :
  Forall (λ msg, about_iopad msg = false)
    (name_errors lib ++ prefix_errors lib
     ++ (global_not_input_errors lib ++ not_global_errors lib)).
Proof.
  rewrite !Forall_app. split_and!; apply Forall_forall; intros msg Hin.
  - apply list_elem_of_fmap in Hin as (e & -> & _). done.
  - apply list_elem_of_fmap in Hin as (e & -> & _). done.
  - apply list_elem_of_bind in Hin as (mp & Hin & _).
    destruct (global_not_input mp.2); [|by apply elem_of_nil in Hin].
    by apply list_elem_of_singleton in Hin as ->.
  - apply list_elem_of_bind in Hin as (mp & Hin & _).
    destruct (local_set_reset mp.2); [|by apply elem_of_nil in Hin].
    by apply list_elem_of_singleton in Hin as ->.
Qed.

(** The diagnostics of checks 1 to 9 on a catalog without IOPAD: the
    existence error for IOPAD, once, after the diagnostics of checks 1 and 2
    and of the global-port rules, and nothing else about IOPAD. *)
Lemma validate_errors_without_iopad lib :
  Forall (λ m, cm_type m ≠ SPICE_MODEL_IOPAD) (models lib) →
  ∃ before after,
    validate_errors lib = before ++ ERROR_model_required SPICE_MODEL_IOPAD :: after ∧
    Forall (λ msg, about_iopad msg = false) (before ++ after).
Proof.
  intros Hno.
  assert (models_of_type lib SPICE_MODEL_IOPAD = []) as Hnil.
  { apply models_of_type_nil_iff. intros (m & Hm & Ht).
    rewrite Forall_forall in Hno. by apply (Hno m Hm). }
  exists (name_errors lib ++ prefix_errors lib
          ++ (global_not_input_errors lib ++ not_global_errors lib)).
  eexists. split.
  - unfold validate_errors.
    replace (model_required_errors lib SPICE_MODEL_IOPAD)
      with [ERROR_model_required SPICE_MODEL_IOPAD]
      by (unfold model_required_errors; by rewrite decide_True).
    replace (port_required_errors lib SPICE_MODEL_IOPAD iopad_port_types_required)
      with (@nil message) by (unfold port_required_errors; by rewrite Hnil).
    rewrite !(assoc_L (++)). rewrite <-!(assoc_L (++)). simpl. reflexivity.
  - apply Forall_app. split; [apply first_checks_not_iopad|].
    rewrite !Forall_app. split_and!;
      first [ by apply port_required_errors_not_iopad
            | by apply model_required_errors_not_iopad
            | idtac ].
    unfold sram_or_scff_errors. case_decide; by repeat constructor.
Qed.

(** C9.  On a catalog with no IOPAD model (and small enough for the error
    counter not to wrap), the validate pass prints exactly one diagnostic
    about IOPAD: the error of the existence check, printed once, after the
    diagnostics of checks 1, 2 and of the global-port rules ([before]) and
    before those of the later checks ([after]).  The required-port-type check
    for IOPAD (INPUT, OUTPUT, INOUT, SRAM), which visits existing IOPAD models
    only, adds nothing: on its own it returns 0 and prints nothing, the
    existence check returns 1.  The pass does not return: it calls [exit(1)],
    after the count line, whose count is one more than the number of the
    other diagnostics, or at a missing default model. *)
Theorem no_iopad_counts_one_error lib :
  fits_size_t lib →
  Forall (λ m, cm_type m ≠ SPICE_MODEL_IOPAD) (models lib) →
  (∃ before after closing,
     check_circuit_library lib
       = (Exited 1,
          INFO_checking_circuit_models
            :: before ++ ERROR_model_required SPICE_MODEL_IOPAD :: after ++ closing) ∧
     Forall (λ msg, about_iopad msg = false) (before ++ after ++ closing) ∧
     Forall (λ msg, counted_error msg = true) (before ++ after) ∧
     (closing = [INFO_finished_checking (size before + 1 + size after)] ∨
      ∃ t, closing = [ERROR_no_default_model t]) ∧
     (Forall (λ t, is_Some (default_model lib t)) required_default_types →
      closing = [INFO_finished_checking (size before + 1 + size after)])) ∧
  check_circuit_model_required lib SPICE_MODEL_IOPAD
    = (Returned 1, [ERROR_model_required SPICE_MODEL_IOPAD]) ∧
  check_circuit_model_port_required lib SPICE_MODEL_IOPAD
      [SPICE_MODEL_PORT_INPUT; SPICE_MODEL_PORT_OUTPUT;
       SPICE_MODEL_PORT_INOUT; SPICE_MODEL_PORT_SRAM]
    = (Returned 0, []).
Proof.
  intros Hfit Hno. split_and!.
  - destruct (validate_errors_without_iopad lib Hno) as (before & after & Herrs & Hnot).
    destruct (accumulated_checks_fits lib Hfit) as [Hacc Hcounted].
    rewrite Herrs in Hcounted.
    assert (Forall (λ msg, counted_error msg = true) (before ++ after)) as Hcounted'.
    { apply Forall_app in Hcounted as [? [_ ?]%Forall_cons]. by apply Forall_app. }
    assert (size (validate_errors lib) = size before + 1 + size after) as Hsize.
    { rewrite Herrs. unfold size. rewrite length_app. simpl length. lia. }
    destruct (decide (Forall (λ t, is_Some (default_model lib t)) required_default_types))
      as [Hdef|Hdef].
    + exists before, after, [INFO_finished_checking (size before + 1 + size after)].
      split_and!; [| |done|by left|done].
      * rewrite (check_circuit_library_with_defaults lib Hfit Hdef), Hsize, Herrs.
        rewrite <-(assoc_L (++)). simpl. by destruct before.
      * rewrite (assoc_L (++)). apply Forall_app. split; [done | by repeat constructor].
    + destruct (default_model_checks_unregistered lib (size (validate_errors lib)) Hdef)
        as [t Hexit].
      exists before, after, [ERROR_no_default_model t].
      split_and!; [| |done|right; by eexists|done].
      * rewrite check_circuit_library_blocks, Hacc. unfold emit. run_binds.
        rewrite Hexit. simpl. rewrite Herrs, <-(assoc_L (++)). done.
      * rewrite (assoc_L (++)). apply Forall_app. split; [done | by repeat constructor].
  - apply models_by_type_nil in Hno. unfold check_circuit_model_required. by rewrite Hno.
  - apply models_by_type_nil in Hno. unfold check_circuit_model_port_required.
    by rewrite Hno.
Qed.

(** ** The port-count-and-width checks of FF, SCFF and SRAM models *)

Lemma bind_filter_fmap {A B} (P : A → Prop) `{∀ x, Decision (P x)} (f : A → B) (l : list A) :
  l ≫= (λ x, if decide (P x) then [f x] else []) = f <$> filter P l.
Proof.
  induction l as [|a l IH]; [done|].
  rewrite bind_cons, filter_cons, IH. by case_decide.
Qed.

Lemma check_one_circuit_model_port_size_required_prints lib model m pid p sz :
  find_model lib model = Some m → find_port lib pid = Some p →
  prints (check_one_circuit_model_port_size_required lib model pid sz) 0
    (if decide (cp_size p ≠ sz) then [ERROR_port_size (cm_name m) (cp_type p) sz] else []).
Proof.
  intros Hm Hp. unfold check_one_circuit_model_port_size_required, port_size, port_type.
  rewrite Hp, (model_name_ret _ _ _ Hm). simpl.
  case_bool_decide; case_decide; try congruence; done.
Qed.

(** A check whose count report, if any, can be printed. *)
Lemma check_one_circuit_model_port_type_and_size_required_prints lib model m t cnt sz incl :
  find_model lib model = Some m →
  count_readable m t (bool_decide (false = incl)) cnt →
  prints (check_one_circuit_model_port_type_and_size_required lib model t cnt sz incl) 0
    (count_and_width_trace m t (bool_decide (false = incl)) cnt sz).
Proof.
  intros Hm Hread.
  pose proof (model_ports_by_type_ports lib model m t (bool_decide (false = incl)) Hm) as Hall.
  pose proof (Forall2_length _ _ _ Hall) as Hlen.
  unfold check_one_circuit_model_port_type_and_size_required, count_and_width_trace.
  unfold count_readable in Hread.
  set (ps := ports_of_type m t (bool_decide (false = incl))) in *.
  assert (size (model_ports_by_type lib model t (bool_decide (false = incl))) = size ps)
    as -> by (unfold size; lia).
  apply prints_bind.
  - destruct (decide (cnt = size ps)) as [Hc|Hc].
    + rewrite !(bool_decide_false (cnt ≠ size ps)) by (by intros ?).
      apply prints_ret, zero_in_range.
    + assert (ps = []) as Hnil by (destruct Hread; [congruence | done]).
      rewrite !(bool_decide_true (cnt ≠ size ps)) by done.
      rewrite (model_type_ret _ _ _ Hm), bind_ret_l.
      rewrite bool_decide_true by (by rewrite Hnil). apply prints_report.
  - intros v Hv. rewrite <-(bind_filter_fmap (λ p, cp_size p ≠ sz)).
    apply (prints_for_each _ _ _ _ _ _ Hall Hv). intros pid p s Hp Hs.
    apply prints_add_errors.
    by apply check_one_circuit_model_port_size_required_prints.
Qed.

(** A check whose count report cannot be printed: the process dies in the
    report, before anything is written. *)
Lemma check_one_circuit_model_port_type_and_size_required_dies lib model m t cnt sz incl :
  find_model lib model = Some m →
  ¬ count_readable m t (bool_decide (false = incl)) cnt →
  check_one_circuit_model_port_type_and_size_required lib model t cnt sz incl
  = (Faulted, []).
Proof.
  intros Hm Hread.
  pose proof (model_ports_by_type_ports lib model m t (bool_decide (false = incl)) Hm) as Hall.
  pose proof (Forall2_length _ _ _ Hall) as Hlen.
  unfold check_one_circuit_model_port_type_and_size_required.
  unfold count_readable in Hread.
  set (ps := ports_of_type m t (bool_decide (false = incl))) in *.
  assert (size (model_ports_by_type lib model t (bool_decide (false = incl))) = size ps)
    as -> by (unfold size; lia).
  rewrite bool_decide_true by (intros ?; apply Hread; by left).
  rewrite (model_type_ret _ _ _ Hm), bind_ret_l.
  rewrite bool_decide_false; [done|].
  intros Hz. apply Hread. right. destruct ps; [done | unfold size in Hz; simpl in Hz; lia].
Qed.

Lemma count_and_width_trace_nil m t ig count width :
  count_and_width_trace m t ig count width = [] ↔ has_ports m t ig count width.
Proof.
  unfold count_and_width_trace, has_ports.
  set (ps := ports_of_type m t ig).
  assert (filter (λ p, cp_size p ≠ width) ps = [] ↔ Forall (λ p, cp_size p = width) ps)
    as Hfilter.
  { induction ps as [|p ps IH]; [split; [constructor | done]|].
    rewrite filter_cons, Forall_cons, <-IH. case_decide as Hd.
    - split; [done | intros [? _]; done].
    - split; [|tauto]. intros ?. split; [|done].
      destruct (decide (cp_size p = width)); [done|]. tauto. }
  rewrite <-Hfilter. case_bool_decide as Hc.
  - split; [done | intros [? _]; congruence].
  - simpl. split.
    + intros ?%fmap_nil_inv. split; [|done].
      destruct (decide (size ps = count)); [done|]. destruct Hc. congruence.
    + intros [_ ->]. done.
Qed.

Lemma has_ports_readable m t ig count width :
  has_ports m t ig count width → count_readable m t ig count.
Proof. intros [? _]. by left. Qed.



Lemma check_model_type_pass lib id m t :
  find_model lib id = Some m → cm_type m = t →
  check_model_type (E:=message) lib id t = ret ().
Proof.
  intros Hm Ht. unfold check_model_type.
  rewrite (model_type_ret _ _ _ Hm), bind_ret_l, bool_decide_true by done. done.
Qed.

Lemma check_model_type_fault lib id m t :
  find_model lib id = Some m → cm_type m ≠ t →
  check_model_type (E:=message) lib id t = fault.
Proof.
  intros Hm Ht. unfold check_model_type.
  rewrite (model_type_ret _ _ _ Hm), bind_ret_l, bool_decide_false by done. done.
Qed.

Lemma prints_result m log :
  prints m 0 log →
  m = (Returned (wrap64 (size log)), log) ∧ (m = (Returned 0, []) ↔ log = []).
Proof.
  intros Hp. split; [exact Hp|]. split.
  - intros Hrun. by rewrite (prints_log _ _ _ _ _ Hp Hrun).
  - intros Hnil. by apply (prints_silent _ _ _ Hp zero_in_range).
Qed.

Lemma app_nil_iff {A} (l1 l2 : list A) : l1 ++ l2 = [] ↔ l1 = [] ∧ l2 = [].
Proof. split; [apply app_eq_nil | by intros [-> ->]]. Qed.

(** X9.  One port-count-and-width check of a model.  When the number of
    ports of the type (global ports left out unless [include_global_ports])
    is the number asked for, it prints one diagnostic for each such port
    whose width is not the width asked for, in port order, and returns their
    number.  When the number differs and no port was found, it prints the
    count report and returns 1.  When the number differs and a port was
    found, the count report hands [ports.size()] to a %s conversion and the
    process dies there, before anything is written.  The check returns 0 and
    prints nothing exactly when the model has the number of ports asked for,
    each of the width asked for. *)
Theorem port_count_and_width_check_outcome lib model m t cnt sz incl :
  find_model lib model = Some m →
  let ignore_global := bool_decide (false = incl) in
  let ps := ports_of_type m t ignore_global in
  let width_errors :=
    (λ p, ERROR_port_size (cm_name m) (cp_type p) sz) <$> filter (λ p, cp_size p ≠ sz) ps in
  (size ps = cnt →
     check_one_circuit_model_port_type_and_size_required lib model t cnt sz incl
     = (Returned (wrap64 (size width_errors)), width_errors)) ∧
  (size ps ≠ cnt → ps = [] →
     check_one_circuit_model_port_type_and_size_required lib model t cnt sz incl
     = (Returned 1, [ERROR_port_count cnt t (cm_type m) 0])) ∧
  (size ps ≠ cnt → ps ≠ [] →
     check_one_circuit_model_port_type_and_size_required lib model t cnt sz incl
     = (Faulted, [])) ∧
  (check_one_circuit_model_port_type_and_size_required lib model t cnt sz incl
     = (Returned 0, [])
   ↔ size ps = cnt ∧ Forall (λ p, cp_size p = sz) ps).
Proof.
  intros Hm ignore_global ps width_errors.
  pose proof (check_one_circuit_model_port_type_and_size_required_prints
                lib model m t cnt sz incl Hm) as Hp.
  pose proof (check_one_circuit_model_port_type_and_size_required_dies
                lib model m t cnt sz incl Hm) as Hd.
  fold ignore_global in Hp, Hd. unfold count_readable in Hp, Hd. fold ps in Hp, Hd.
  unfold count_and_width_trace in Hp. fold ps in Hp. fold width_errors in Hp.
  split_and!.
  - intros Hc. rewrite (Hp (or_introl Hc)).
    rewrite bool_decide_false by (by intros ?). done.
  - intros Hc Hnil. rewrite (Hp (or_intror Hnil)).
    rewrite bool_decide_true by (by intros ?).
    unfold width_errors. rewrite Hnil. done.
  - intros Hc Hnil. apply Hd. by intros [?|?].
  - split.
    + intros Hrun. destruct (decide (size ps = cnt ∨ ps = [])) as [Hread|Hread].
      * destruct (prints_result _ _ (Hp Hread)) as [_ Hnil]. apply Hnil in Hrun.
        apply (count_and_width_trace_nil m t ignore_global cnt sz). exact Hrun.
      * by rewrite (Hd Hread) in Hrun.
    + intros Hports. destruct (prints_result _ _ (Hp (or_introl (proj1 Hports)))) as [_ Hnil].
      apply Hnil. by apply (count_and_width_trace_nil m t ignore_global cnt sz).
Qed.

(** *** Three checks in a row *)

Lemma add_errors_stops {E} s (m : M E Z) l : m = (Faulted, l) → add_errors s m = (Faulted, l).
Proof. by intros ->. Qed.

Lemma prints_then_stops {B} (m : M message Z) s l1 (f : Z → M message B) l2 :
  prints m s l1 → (∀ v, f v = (Faulted, l2)) → bind m f = (Faulted, l1 ++ l2).
Proof. unfold prints. intros -> Hf. unfold bind. by rewrite Hf. Qed.

(** The checks run in order and add up; the first one whose count report
    cannot be printed ends the process, with the diagnostics of the checks
    before it already printed. *)
Lemma three_port_checks (c1 c2 c3 : M message Z) (t1 t2 t3 : list message)
    (r1 r2 r3 : Prop) (s : Z) :
  0 ≤ s < SIZE_MOD →
  (r1 → prints c1 0 t1) → (¬ r1 → c1 = (Faulted, [])) →
  (r2 → prints c2 0 t2) → (¬ r2 → c2 = (Faulted, [])) →
  (r3 → prints c3 0 t3) → (¬ r3 → c3 = (Faulted, [])) →
  let chain :=
    (let* num_err := add_errors s c1 in
     let* num_err := add_errors num_err c2 in
     let* num_err := add_errors num_err c3 in
     ret num_err) in
  (r1 → r2 → r3 → prints chain s (t1 ++ t2 ++ t3)) ∧
  (¬ r1 → chain = (Faulted, [])) ∧
  (r1 → ¬ r2 → chain = (Faulted, t1)) ∧
  (r1 → r2 → ¬ r3 → chain = (Faulted, t1 ++ t2)).
Proof.
  intros Hs H1 D1 H2 D2 H3 D3 chain. unfold chain. split_and!.
  - intros R1 R2 R3.
    rewrite <-(right_id_L [] (++) t3).
    apply prints_bind; [by apply prints_add_errors, H1|]. intros v1 Hv1.
    apply prints_bind; [by apply prints_add_errors, H2|]. intros v2 Hv2.
    apply prints_bind; [by apply prints_add_errors, H3|]. intros v3 Hv3.
    by apply prints_ret.
  - intros R1. by rewrite (add_errors_stops _ _ _ (D1 R1)).
  - intros R1 R2. rewrite <-(right_id_L [] (++) t1).
    apply (prints_then_stops _ s); [by apply prints_add_errors, H1|].
    intros v. by rewrite (add_errors_stops _ _ _ (D2 R2)).
  - intros R1 R2 R3. apply (prints_then_stops _ s); [by apply prints_add_errors, H1|].
    intros v. rewrite <-(right_id_L [] (++) t2).
    apply (prints_then_stops _ v); [by apply prints_add_errors, H2|].
    intros v'. by rewrite (add_errors_stops _ _ _ (D3 R3)).
Qed.

(** X10.  [check_ff_circuit_model_ports] on a model of the catalog.  On a
    model that is not an FF the assertion at its head fails before anything
    is printed.  On an FF it runs three port-count-and-width checks in this
    order: 3 INPUT ports of width 1, 1 CLOCK port of width 1, 1 OUTPUT port
    of width 1, global ports left out of every count.  If every count is
    right or finds no port at all, it returns the number of diagnostics.
    Otherwise the process dies in the count report of the first check that
    finds a wrong number of ports other than none, with only the diagnostics
    of the checks before it printed.  The check returns 0 with nothing
    printed exactly when the FF has these ports. *)
Theorem ff_ports_check_outcome lib id m :
  find_model lib id = Some m →
  let t1 := count_and_width_trace m SPICE_MODEL_PORT_INPUT true 3 1 in
  let t2 := count_and_width_trace m SPICE_MODEL_PORT_CLOCK true 1 1 in
  let t3 := count_and_width_trace m SPICE_MODEL_PORT_OUTPUT true 1 1 in
  let r1 := count_readable m SPICE_MODEL_PORT_INPUT true 3 in
  let r2 := count_readable m SPICE_MODEL_PORT_CLOCK true 1 in
  let r3 := count_readable m SPICE_MODEL_PORT_OUTPUT true 1 in
  (cm_type m ≠ SPICE_MODEL_FF → check_ff_circuit_model_ports lib id = (Faulted, [])) ∧
  (cm_type m = SPICE_MODEL_FF →
     (r1 → r2 → r3 →
        check_ff_circuit_model_ports lib id
        = (Returned (wrap64 (size (t1 ++ t2 ++ t3))), t1 ++ t2 ++ t3)) ∧
     (¬ r1 → check_ff_circuit_model_ports lib id = (Faulted, [])) ∧
     (r1 → ¬ r2 → check_ff_circuit_model_ports lib id = (Faulted, t1)) ∧
     (r1 → r2 → ¬ r3 → check_ff_circuit_model_ports lib id = (Faulted, t1 ++ t2))) ∧
  (check_ff_circuit_model_ports lib id = (Returned 0, []) ↔
     cm_type m = SPICE_MODEL_FF ∧
     has_ports m SPICE_MODEL_PORT_INPUT true 3 1 ∧
     has_ports m SPICE_MODEL_PORT_CLOCK true 1 1 ∧
     has_ports m SPICE_MODEL_PORT_OUTPUT true 1 1).
Proof.
  intros Hm t1 t2 t3 r1 r2 r3.
  assert (cm_type m ≠ SPICE_MODEL_FF → check_ff_circuit_model_ports lib id = (Faulted, []))
    as Hfault.
  { intros Ht. unfold check_ff_circuit_model_ports.
    by rewrite (check_model_type_fault _ _ _ _ Hm Ht). }
  destruct (three_port_checks _ _ _ t1 t2 t3 r1 r2 r3 0 zero_in_range
    (check_one_circuit_model_port_type_and_size_required_prints
       lib id m SPICE_MODEL_PORT_INPUT 3 1 false Hm)
    (check_one_circuit_model_port_type_and_size_required_dies
       lib id m SPICE_MODEL_PORT_INPUT 3 1 false Hm)
    (check_one_circuit_model_port_type_and_size_required_prints
       lib id m SPICE_MODEL_PORT_CLOCK 1 1 false Hm)
    (check_one_circuit_model_port_type_and_size_required_dies
       lib id m SPICE_MODEL_PORT_CLOCK 1 1 false Hm)
    (check_one_circuit_model_port_type_and_size_required_prints
       lib id m SPICE_MODEL_PORT_OUTPUT 1 1 false Hm)
    (check_one_circuit_model_port_type_and_size_required_dies
       lib id m SPICE_MODEL_PORT_OUTPUT 1 1 false Hm)) as (Hall & D1 & D2 & D3).
  assert (cm_type m = SPICE_MODEL_FF →
          check_ff_circuit_model_ports lib id
          = (let* num_err := add_errors 0
               (check_one_circuit_model_port_type_and_size_required lib id
                  SPICE_MODEL_PORT_INPUT 3 1 false) in
             let* num_err := add_errors num_err
               (check_one_circuit_model_port_type_and_size_required lib id
                  SPICE_MODEL_PORT_CLOCK 1 1 false) in
             let* num_err := add_errors num_err
               (check_one_circuit_model_port_type_and_size_required lib id
                  SPICE_MODEL_PORT_OUTPUT 1 1 false) in
             ret num_err)) as Hrun.
  { intros Ht. unfold check_ff_circuit_model_ports.
    by rewrite (check_model_type_pass _ _ _ _ Hm Ht), bind_ret_l. }
  split_and!; [done | |].
  - intros Ht. rewrite (Hrun Ht). split_and!; [|done..].
    intros R1 R2 R3. apply (prints_result _ _ (Hall R1 R2 R3)).
  - destruct (decide (cm_type m = SPICE_MODEL_FF)) as [Ht|Ht];
      [|rewrite (Hfault Ht); split; [done | tauto]].
    rewrite (Hrun Ht). split.
    + intros Hsilent. split; [done|].
      destruct (decide r1) as [R1|R1]; [|by rewrite (D1 R1) in Hsilent].
      destruct (decide r2) as [R2|R2]; [|by rewrite (D2 R1 R2) in Hsilent].
      destruct (decide r3) as [R3|R3]; [|by rewrite (D3 R1 R2 R3) in Hsilent].
      destruct (prints_result _ _ (Hall R1 R2 R3)) as [_ Hnil]. apply Hnil in Hsilent.
      rewrite !app_nil_iff in Hsilent. unfold t1, t2, t3 in Hsilent.
      rewrite !count_and_width_trace_nil in Hsilent. tauto.
    + intros (_ & P1 & P2 & P3).
      destruct (prints_result _ _ (Hall (has_ports_readable _ _ _ _ _ P1)
                  (has_ports_readable _ _ _ _ _ P2) (has_ports_readable _ _ _ _ _ P3)))
        as [_ Hnil].
      apply Hnil. rewrite !app_nil_iff. unfold t1, t2, t3.
      rewrite !count_and_width_trace_nil. tauto.
Qed.

(** X11.  [check_scff_circuit_model_ports] on a model of the catalog.  On a
    model that is not an SCFF the assertion at its head fails before
    anything is printed.  On an SCFF it checks, in this order, for 1 INPUT
    port of width 1 (global ports left out), 1 CLOCK port of width 1 (global
    ports counted) and 2 OUTPUT ports of width 1 (global ports left out).  If
    every count is right or finds no port at all, it returns the number of
    diagnostics.  Otherwise the process dies in the count report of the
    first check that finds a wrong number of ports other than none, with only
    the diagnostics of the checks before it printed.  The check returns 0
    with nothing printed exactly when the SCFF has these ports. *)
Theorem scff_ports_check_outcome lib id m :
  find_model lib id = Some m →
  let t1 := count_and_width_trace m SPICE_MODEL_PORT_INPUT true 1 1 in
  let t2 := count_and_width_trace m SPICE_MODEL_PORT_CLOCK false 1 1 in
  let t3 := count_and_width_trace m SPICE_MODEL_PORT_OUTPUT true 2 1 in
  let r1 := count_readable m SPICE_MODEL_PORT_INPUT true 1 in
  let r2 := count_readable m SPICE_MODEL_PORT_CLOCK false 1 in
  let r3 := count_readable m SPICE_MODEL_PORT_OUTPUT true 2 in
  (cm_type m ≠ SPICE_MODEL_SCFF → check_scff_circuit_model_ports lib id = (Faulted, [])) ∧
  (cm_type m = SPICE_MODEL_SCFF →
     (r1 → r2 → r3 →
        check_scff_circuit_model_ports lib id
        = (Returned (wrap64 (size (t1 ++ t2 ++ t3))), t1 ++ t2 ++ t3)) ∧
     (¬ r1 → check_scff_circuit_model_ports lib id = (Faulted, [])) ∧
     (r1 → ¬ r2 → check_scff_circuit_model_ports lib id = (Faulted, t1)) ∧
     (r1 → r2 → ¬ r3 → check_scff_circuit_model_ports lib id = (Faulted, t1 ++ t2))) ∧
  (check_scff_circuit_model_ports lib id = (Returned 0, []) ↔
     cm_type m = SPICE_MODEL_SCFF ∧
     has_ports m SPICE_MODEL_PORT_INPUT true 1 1 ∧
     has_ports m SPICE_MODEL_PORT_CLOCK false 1 1 ∧
     has_ports m SPICE_MODEL_PORT_OUTPUT true 2 1).
Proof.
  intros Hm t1 t2 t3 r1 r2 r3.
  assert (cm_type m ≠ SPICE_MODEL_SCFF →
          check_scff_circuit_model_ports lib id = (Faulted, [])) as Hfault.
  { intros Ht. unfold check_scff_circuit_model_ports.
    by rewrite (check_model_type_fault _ _ _ _ Hm Ht). }
  destruct (three_port_checks _ _ _ t1 t2 t3 r1 r2 r3 0 zero_in_range
    (check_one_circuit_model_port_type_and_size_required_prints
       lib id m SPICE_MODEL_PORT_INPUT 1 1 false Hm)
    (check_one_circuit_model_port_type_and_size_required_dies
       lib id m SPICE_MODEL_PORT_INPUT 1 1 false Hm)
    (check_one_circuit_model_port_type_and_size_required_prints
       lib id m SPICE_MODEL_PORT_CLOCK 1 1 true Hm)
    (check_one_circuit_model_port_type_and_size_required_dies
       lib id m SPICE_MODEL_PORT_CLOCK 1 1 true Hm)
    (check_one_circuit_model_port_type_and_size_required_prints
       lib id m SPICE_MODEL_PORT_OUTPUT 2 1 false Hm)
    (check_one_circuit_model_port_type_and_size_required_dies
       lib id m SPICE_MODEL_PORT_OUTPUT 2 1 false Hm)) as (Hall & D1 & D2 & D3).
  assert (cm_type m = SPICE_MODEL_SCFF →
          check_scff_circuit_model_ports lib id
          = (let* num_err := add_errors 0
               (check_one_circuit_model_port_type_and_size_required lib id
                  SPICE_MODEL_PORT_INPUT 1 1 false) in
             let* num_err := add_errors num_err
               (check_one_circuit_model_port_type_and_size_required lib id
                  SPICE_MODEL_PORT_CLOCK 1 1 true) in
             let* num_err := add_errors num_err
               (check_one_circuit_model_port_type_and_size_required lib id
                  SPICE_MODEL_PORT_OUTPUT 2 1 false) in
             ret num_err)) as Hrun.
  { intros Ht. unfold check_scff_circuit_model_ports.
    by rewrite (check_model_type_pass _ _ _ _ Hm Ht), bind_ret_l. }
  split_and!; [done | |].
  - intros Ht. rewrite (Hrun Ht). split_and!; [|done..].
    intros R1 R2 R3. apply (prints_result _ _ (Hall R1 R2 R3)).
  - destruct (decide (cm_type m = SPICE_MODEL_SCFF)) as [Ht|Ht];
      [|rewrite (Hfault Ht); split; [done | tauto]].
    rewrite (Hrun Ht). split.
    + intros Hsilent. split; [done|].
      destruct (decide r1) as [R1|R1]; [|by rewrite (D1 R1) in Hsilent].
      destruct (decide r2) as [R2|R2]; [|by rewrite (D2 R1 R2) in Hsilent].
      destruct (decide r3) as [R3|R3]; [|by rewrite (D3 R1 R2 R3) in Hsilent].
      destruct (prints_result _ _ (Hall R1 R2 R3)) as [_ Hnil]. apply Hnil in Hsilent.
      rewrite !app_nil_iff in Hsilent. unfold t1, t2, t3 in Hsilent.
      rewrite !count_and_width_trace_nil in Hsilent. tauto.
    + intros (_ & P1 & P2 & P3).
      destruct (prints_result _ _ (Hall (has_ports_readable _ _ _ _ _ P1)
                  (has_ports_readable _ _ _ _ _ P2) (has_ports_readable _ _ _ _ _ P3)))
        as [_ Hnil].
      apply Hnil. rewrite !app_nil_iff. unfold t1, t2, t3.
      rewrite !count_and_width_trace_nil. tauto.
Qed.

(** *** SRAM *)

(** The runs of [check_sram_circuit_model_ports] on an SRAM model. *)
Lemma check_sram_circuit_model_ports_runs lib id m :
  find_model lib id = Some m → cm_type m = SPICE_MODEL_SRAM →
  let t1 := count_and_width_trace m SPICE_MODEL_PORT_OUTPUT true 1 2 in
  let t2 := count_and_width_trace m SPICE_MODEL_PORT_BL true 1 1 in
  let t3 := count_and_width_trace m SPICE_MODEL_PORT_WL true 1 1 in
  let r1 := count_readable m SPICE_MODEL_PORT_OUTPUT true 1 in
  let r2 := count_readable m SPICE_MODEL_PORT_BL true 1 in
  let r3 := count_readable m SPICE_MODEL_PORT_WL true 1 in
  (r1 → prints (check_sram_circuit_model_ports lib id false) 0 t1) ∧
  (r1 → r2 → r3 → prints (check_sram_circuit_model_ports lib id true) 0 (t1 ++ t2 ++ t3)) ∧
  (∀ check_blwl, ¬ r1 → check_sram_circuit_model_ports lib id check_blwl = (Faulted, [])) ∧
  (r1 → ¬ r2 → check_sram_circuit_model_ports lib id true = (Faulted, t1)) ∧
  (r1 → r2 → ¬ r3 → check_sram_circuit_model_ports lib id true = (Faulted, t1 ++ t2)).
Proof.
  intros Hm Ht t1 t2 t3 r1 r2 r3.
  pose proof (check_one_circuit_model_port_type_and_size_required_prints
                lib id m SPICE_MODEL_PORT_OUTPUT 1 2 false Hm) as H1.
  pose proof (check_one_circuit_model_port_type_and_size_required_dies
                lib id m SPICE_MODEL_PORT_OUTPUT 1 2 false Hm) as D1.
  pose proof (check_one_circuit_model_port_type_and_size_required_prints
                lib id m SPICE_MODEL_PORT_BL 1 1 false Hm) as H2.
  pose proof (check_one_circuit_model_port_type_and_size_required_dies
                lib id m SPICE_MODEL_PORT_BL 1 1 false Hm) as D2.
  pose proof (check_one_circuit_model_port_type_and_size_required_prints
                lib id m SPICE_MODEL_PORT_WL 1 1 false Hm) as H3.
  pose proof (check_one_circuit_model_port_type_and_size_required_dies
                lib id m SPICE_MODEL_PORT_WL 1 1 false Hm) as D3.
  change (bool_decide (false = false)) with true in *.
  fold t1 r1 in H1, D1. fold t2 r2 in H2, D2. fold t3 r3 in H3, D3.
  assert (∀ check_blwl, check_sram_circuit_model_ports lib id check_blwl
          = (let* num_err := add_errors 0
               (check_one_circuit_model_port_type_and_size_required lib id
                  SPICE_MODEL_PORT_OUTPUT 1 2 false) in
             if bool_decide (false = check_blwl) then ret num_err else
             let* num_err := add_errors num_err
               (check_one_circuit_model_port_type_and_size_required lib id
                  SPICE_MODEL_PORT_BL 1 1 false) in
             let* num_err := add_errors num_err
               (check_one_circuit_model_port_type_and_size_required lib id
                  SPICE_MODEL_PORT_WL 1 1 false) in
             ret num_err)) as Hrun.
  { intros check_blwl. unfold check_sram_circuit_model_ports.
    by rewrite (check_model_type_pass _ _ _ _ Hm Ht), bind_ret_l. }
  split_and!.
  - intros R1. rewrite Hrun. rewrite <-(right_id_L [] (++) t1).
    apply prints_bind; [by apply prints_add_errors, H1|]. intros v Hv.
    rewrite bool_decide_true by done. by apply prints_ret.
  - intros R1 R2 R3. rewrite Hrun.
    apply prints_bind; [by apply prints_add_errors, H1|]. intros v Hv.
    rewrite bool_decide_false by done. rewrite <-(right_id_L [] (++) t3).
    apply prints_bind; [by apply prints_add_errors, H2|]. intros v2 Hv2.
    apply prints_bind; [by apply prints_add_errors, H3|]. intros v3 Hv3.
    by apply prints_ret.
  - intros check_blwl R1. rewrite Hrun. by rewrite (add_errors_stops _ _ _ (D1 R1)).
  - intros R1 R2. rewrite Hrun. rewrite <-(right_id_L [] (++) t1).
    apply (prints_then_stops _ 0); [by apply prints_add_errors, H1|].
    intros v. rewrite bool_decide_false by done.
    by rewrite (add_errors_stops _ _ _ (D2 R2)).
  - intros R1 R2 R3. rewrite Hrun.
    apply (prints_then_stops _ 0); [by apply prints_add_errors, H1|].
    intros v. rewrite bool_decide_false by done. rewrite <-(right_id_L [] (++) t2).
    apply (prints_then_stops _ v); [by apply prints_add_errors, H2|].
    intros v'. by rewrite (add_errors_stops _ _ _ (D3 R3)).
Qed.




(** X12.  [check_sram_circuit_model_ports] on a model of the catalog.  On a
    model that is not an SRAM the assertion at its head fails before
    anything is printed.  On an SRAM it checks for 1 OUTPUT port of width 2
    and, only when [check_blwl] is set, for 1 BL port of width 1 and 1 WL
    port of width 1, in this order, global ports left out.  If every count
    that is checked is right or finds no port at all, it returns the number
    of diagnostics.  Otherwise the process dies in the count report of the
    first check that finds a wrong number of ports other than none, with
    only the diagnostics of the checks before it printed.  The check returns
    0 with nothing printed exactly when the SRAM has these ports. *)
Theorem sram_ports_check_outcome lib id m (check_blwl : bool) :
  find_model lib id = Some m →
  let t1 := count_and_width_trace m SPICE_MODEL_PORT_OUTPUT true 1 2 in
  let t2 := count_and_width_trace m SPICE_MODEL_PORT_BL true 1 1 in
  let t3 := count_and_width_trace m SPICE_MODEL_PORT_WL true 1 1 in
  let r1 := count_readable m SPICE_MODEL_PORT_OUTPUT true 1 in
  let r2 := count_readable m SPICE_MODEL_PORT_BL true 1 in
  let r3 := count_readable m SPICE_MODEL_PORT_WL true 1 in
  (cm_type m ≠ SPICE_MODEL_SRAM →
     check_sram_circuit_model_ports lib id check_blwl = (Faulted, [])) ∧
  (cm_type m = SPICE_MODEL_SRAM →
     (r1 → check_sram_circuit_model_ports lib id false
           = (Returned (wrap64 (size t1)), t1)) ∧
     (r1 → r2 → r3 →
        check_sram_circuit_model_ports lib id true
        = (Returned (wrap64 (size (t1 ++ t2 ++ t3))), t1 ++ t2 ++ t3)) ∧
     (¬ r1 → check_sram_circuit_model_ports lib id check_blwl = (Faulted, [])) ∧
     (r1 → ¬ r2 → check_sram_circuit_model_ports lib id true = (Faulted, t1)) ∧
     (r1 → r2 → ¬ r3 → check_sram_circuit_model_ports lib id true = (Faulted, t1 ++ t2))) ∧
  (check_sram_circuit_model_ports lib id check_blwl = (Returned 0, []) ↔
     cm_type m = SPICE_MODEL_SRAM ∧
     has_ports m SPICE_MODEL_PORT_OUTPUT true 1 2 ∧
     (check_blwl = true →
        has_ports m SPICE_MODEL_PORT_BL true 1 1 ∧ has_ports m SPICE_MODEL_PORT_WL true 1 1)).
Proof.
  intros Hm t1 t2 t3 r1 r2 r3.
  assert (cm_type m ≠ SPICE_MODEL_SRAM →
          check_sram_circuit_model_ports lib id check_blwl = (Faulted, [])) as Hfault.
  { intros Ht. unfold check_sram_circuit_model_ports.
    by rewrite (check_model_type_fault _ _ _ _ Hm Ht). }
  split_and!; [done | |].
  - intros Ht.
    destruct (check_sram_circuit_model_ports_runs lib id m Hm Ht)
      as (Hplain & Hblwl & D1 & D2 & D3).
    split_and!; [| |by apply D1|done..].
    + intros R1. apply (prints_result _ _ (Hplain R1)).
    + intros R1 R2 R3. apply (prints_result _ _ (Hblwl R1 R2 R3)).
  - destruct (decide (cm_type m = SPICE_MODEL_SRAM)) as [Ht|Ht];
      [|rewrite (Hfault Ht); split; [done | tauto]].
    destruct (check_sram_circuit_model_ports_runs lib id m Hm Ht)
      as (Hplain & Hblwl & D1 & D2 & D3).
    fold t1 t2 t3 r1 r2 r3 in Hplain, Hblwl, D1, D2, D3.
    split.
    + intros Hsilent. split; [done|].
      destruct (decide r1) as [R1|R1]; [|by rewrite (D1 check_blwl R1) in Hsilent].
      destruct check_blwl.
      * destruct (decide r2) as [R2|R2]; [|by rewrite (D2 R1 R2) in Hsilent].
        destruct (decide r3) as [R3|R3]; [|by rewrite (D3 R1 R2 R3) in Hsilent].
        destruct (prints_result _ _ (Hblwl R1 R2 R3)) as [_ Hnil]. apply Hnil in Hsilent.
        rewrite !app_nil_iff in Hsilent. unfold t1, t2, t3 in Hsilent.
        rewrite !count_and_width_trace_nil in Hsilent. tauto.
      * destruct (prints_result _ _ (Hplain R1)) as [_ Hnil]. apply Hnil in Hsilent.
        unfold t1 in Hsilent. rewrite count_and_width_trace_nil in Hsilent.
        split; [done | discriminate].
    + intros (_ & P1 & P23). destruct check_blwl.
      * destruct (P23 eq_refl) as [P2 P3].
        destruct (prints_result _ _ (Hblwl (has_ports_readable _ _ _ _ _ P1)
                    (has_ports_readable _ _ _ _ _ P2) (has_ports_readable _ _ _ _ _ P3)))
          as [_ Hnil].
        apply Hnil. rewrite !app_nil_iff. unfold t1, t2, t3.
        rewrite !count_and_width_trace_nil. tauto.
      * destruct (prints_result _ _ (Hplain (has_ports_readable _ _ _ _ _ P1)))
          as [_ Hnil].
        apply Hnil. unfold t1. by rewrite count_and_width_trace_nil.
Qed.
(** ** The checks on the example catalogs *)

Lemma unique_names_accepts_distinct_names_witness :
  check_circuit_library_unique_names passing_catalog = (Returned 0, [])
  ↔ NoDup (cm_name <$> models passing_catalog).
Proof.
  apply (unique_names_accepts_distinct_names passing_catalog). vm_compute. reflexivity.
Defined.

Lemma unique_prefix_reports_each_pair_witness :
  let pairs := duplicate_pairs 0 (cm_prefix <$> models catalog_with_shared_prefix) in
  check_circuit_library_unique_prefix catalog_with_shared_prefix
    = (Returned (wrap64 (size pairs)), same_prefix_error catalog_with_shared_prefix <$> pairs) ∧
  NoDup pairs ∧
  (∀ i j a, (i, j, a) ∈ pairs ↔
     ∃ mi mj, i < j ∧ find_model catalog_with_shared_prefix i = Some mi ∧
              find_model catalog_with_shared_prefix j = Some mj ∧
              cm_prefix mi = a ∧ cm_prefix mj = a) ∧
  (∀ i j a mi mj, find_model catalog_with_shared_prefix i = Some mi →
     find_model catalog_with_shared_prefix j = Some mj →
     same_prefix_error catalog_with_shared_prefix (i, j, a)
     = ERROR_same_prefix (cm_name mi) (cm_name mj) a).
Proof.
  apply (unique_prefix_reports_each_pair catalog_with_shared_prefix). vm_compute. reflexivity.
Defined.

(** The shared prefix is reported once, with the names of the two
    multiplexers. *)
Example shared_prefix_reported :
  check_circuit_library_unique_prefix catalog_with_shared_prefix
  = (Returned 1, [ERROR_same_prefix "mux_2level" "mux_tree" "mux"]).
Proof. reflexivity. Qed.

Lemma unique_prefix_accepts_distinct_prefixes_witness :
  check_circuit_library_unique_prefix passing_catalog = (Returned 0, [])
  ↔ NoDup (cm_prefix <$> models passing_catalog).
Proof.
  apply (unique_prefix_accepts_distinct_prefixes passing_catalog). vm_compute. reflexivity.
Defined.

Lemma validate_prints_every_error_and_the_count_witness :
  let errs := validate_errors catalog_with_shared_prefix in
  check_circuit_library catalog_with_shared_prefix
  = (match errs with [] => Returned () | _ => Exited 1 end,
     INFO_checking_circuit_models :: errs ++ [INFO_finished_checking (size errs)]) ∧
  Forall (λ msg, counted_error msg = true) errs.
Proof.
  apply (validate_prints_every_error_and_the_count catalog_with_shared_prefix).
  - split; vm_compute; reflexivity.
  - repeat constructor; vm_compute; eauto.
Defined.

Lemma validate_returns_iff_catalog_valid_witness :
  valid_catalog passing_catalog ∧
  check_circuit_library passing_catalog
    = (Returned (), [INFO_checking_circuit_models; INFO_finished_checking 0]).
Proof.
  assert (fits_size_t passing_catalog) as Hfit by (split; vm_compute; reflexivity).
  destruct (validate_returns_iff_catalog_valid passing_catalog Hfit) as [Hrun Hvalid].
  split; [|reflexivity]. apply (Hvalid _ eq_refl).
Defined.

Lemma no_iopad_counts_one_error_witness :
  (∃ before after closing,
     check_circuit_library catalog_without_iopad
       = (Exited 1,
          INFO_checking_circuit_models
            :: before ++ ERROR_model_required SPICE_MODEL_IOPAD :: after ++ closing) ∧
     Forall (λ msg, about_iopad msg = false) (before ++ after ++ closing) ∧
     Forall (λ msg, counted_error msg = true) (before ++ after) ∧
     (closing = [INFO_finished_checking (size before + 1 + size after)] ∨
      ∃ t, closing = [ERROR_no_default_model t]) ∧
     (Forall (λ t, is_Some (default_model catalog_without_iopad t)) required_default_types →
      closing = [INFO_finished_checking (size before + 1 + size after)])) ∧
  check_circuit_model_required catalog_without_iopad SPICE_MODEL_IOPAD
    = (Returned 1, [ERROR_model_required SPICE_MODEL_IOPAD]) ∧
  check_circuit_model_port_required catalog_without_iopad SPICE_MODEL_IOPAD
      [SPICE_MODEL_PORT_INPUT; SPICE_MODEL_PORT_OUTPUT;
       SPICE_MODEL_PORT_INOUT; SPICE_MODEL_PORT_SRAM]
    = (Returned 0, []).
Proof.
  apply (no_iopad_counts_one_error catalog_without_iopad).
  - split; vm_compute; reflexivity.
  - repeat constructor; simpl; discriminate.
Defined.

(** Without its IOPAD model the passing catalog is reported for that alone:
    one error, counted once. *)
Example validate_without_iopad :
  check_circuit_library catalog_without_iopad
  = (Exited 1,
     [INFO_checking_circuit_models; ERROR_model_required SPICE_MODEL_IOPAD;
      INFO_finished_checking 1]).
Proof. reflexivity. Qed.


(** The narrow SRAM cell is counted once; the cell with two OUTPUT ports
    ends the process in the count report. *)
Example sram_check_on_output_ports :
  check_sram_circuit_model_ports example_ff_catalog 2 false
    = (Returned 1, [ERROR_port_size "sram6T" SPICE_MODEL_PORT_OUTPUT 2]) ∧
  length (ports_of_type two_output_sram SPICE_MODEL_PORT_OUTPUT true) = 2%nat ∧
  check_sram_circuit_model_ports example_ff_catalog 3 false = (Faulted, []).
Proof. split_and!; reflexivity. Qed.

Lemma port_count_and_width_check_outcome_witness :
  let ps := ports_of_type two_input_ff SPICE_MODEL_PORT_INPUT true in
  let width_errors :=
    (λ p, ERROR_port_size (cm_name two_input_ff) (cp_type p) 1)
      <$> filter (λ p, cp_size p ≠ 1) ps in
  (size ps = 3 →
     check_one_circuit_model_port_type_and_size_required example_ff_catalog 4
       SPICE_MODEL_PORT_INPUT 3 1 false
     = (Returned (wrap64 (size width_errors)), width_errors)) ∧
  (size ps ≠ 3 → ps = [] →
     check_one_circuit_model_port_type_and_size_required example_ff_catalog 4
       SPICE_MODEL_PORT_INPUT 3 1 false
     = (Returned 1, [ERROR_port_count 3 SPICE_MODEL_PORT_INPUT (cm_type two_input_ff) 0])) ∧
  (size ps ≠ 3 → ps ≠ [] →
     check_one_circuit_model_port_type_and_size_required example_ff_catalog 4
       SPICE_MODEL_PORT_INPUT 3 1 false
     = (Faulted, [])) ∧
  (check_one_circuit_model_port_type_and_size_required example_ff_catalog 4
       SPICE_MODEL_PORT_INPUT 3 1 false
     = (Returned 0, [])
   ↔ size ps = 3 ∧ Forall (λ p, cp_size p = 1) ps).
Proof.
  apply (port_count_and_width_check_outcome example_ff_catalog 4 two_input_ff
           SPICE_MODEL_PORT_INPUT 3 1 false).
  reflexivity.
Defined.

(** The three runs of one check: the right count, no port found, a wrong
    count with ports found. *)
Example port_count_check_runs :
  check_one_circuit_model_port_type_and_size_required example_ff_catalog 0
    SPICE_MODEL_PORT_INPUT 3 1 false = (Returned 0, []) ∧
  check_one_circuit_model_port_type_and_size_required example_ff_catalog 2
    SPICE_MODEL_PORT_BL 1 1 false
    = (Returned 1, [ERROR_port_count 1 SPICE_MODEL_PORT_BL SPICE_MODEL_SRAM 0]) ∧
  check_one_circuit_model_port_type_and_size_required example_ff_catalog 4
    SPICE_MODEL_PORT_INPUT 3 1 false = (Faulted, []).
Proof. split_and!; reflexivity. Qed.

Lemma ff_ports_check_outcome_witness :
  let t1 := count_and_width_trace two_input_ff SPICE_MODEL_PORT_INPUT true 3 1 in
  let t2 := count_and_width_trace two_input_ff SPICE_MODEL_PORT_CLOCK true 1 1 in
  let t3 := count_and_width_trace two_input_ff SPICE_MODEL_PORT_OUTPUT true 1 1 in
  let r1 := count_readable two_input_ff SPICE_MODEL_PORT_INPUT true 3 in
  let r2 := count_readable two_input_ff SPICE_MODEL_PORT_CLOCK true 1 in
  let r3 := count_readable two_input_ff SPICE_MODEL_PORT_OUTPUT true 1 in
  (cm_type two_input_ff ≠ SPICE_MODEL_FF →
     check_ff_circuit_model_ports example_ff_catalog 4 = (Faulted, [])) ∧
  (cm_type two_input_ff = SPICE_MODEL_FF →
     (r1 → r2 → r3 →
        check_ff_circuit_model_ports example_ff_catalog 4
        = (Returned (wrap64 (size (t1 ++ t2 ++ t3))), t1 ++ t2 ++ t3)) ∧
     (¬ r1 → check_ff_circuit_model_ports example_ff_catalog 4 = (Faulted, [])) ∧
     (r1 → ¬ r2 → check_ff_circuit_model_ports example_ff_catalog 4 = (Faulted, t1)) ∧
     (r1 → r2 → ¬ r3 →
        check_ff_circuit_model_ports example_ff_catalog 4 = (Faulted, t1 ++ t2))) ∧
  (check_ff_circuit_model_ports example_ff_catalog 4 = (Returned 0, []) ↔
     cm_type two_input_ff = SPICE_MODEL_FF ∧
     has_ports two_input_ff SPICE_MODEL_PORT_INPUT true 3 1 ∧
     has_ports two_input_ff SPICE_MODEL_PORT_CLOCK true 1 1 ∧
     has_ports two_input_ff SPICE_MODEL_PORT_OUTPUT true 1 1).
Proof. apply (ff_ports_check_outcome example_ff_catalog 4 two_input_ff). reflexivity. Defined.

(** The example flip-flop passes its check; the scan-chain flip-flop fails
    the same check's assertion; the flip-flop with two INPUT ports ends the
    process in the count report. *)
Example ff_check_on_examples :
  check_ff_circuit_model_ports example_ff_catalog 0 = (Returned 0, []) ∧
  check_ff_circuit_model_ports example_ff_catalog 1 = (Faulted, []) ∧
  ¬ count_readable two_input_ff SPICE_MODEL_PORT_INPUT true 3 ∧
  check_ff_circuit_model_ports example_ff_catalog 4 = (Faulted, []).
Proof.
  split_and!; [reflexivity..| |reflexivity].
  intros [Hc|Hnil]; [vm_compute in Hc | vm_compute in Hnil]; discriminate.
Qed.

Lemma scff_ports_check_outcome_witness :
  let t1 := count_and_width_trace example_scff SPICE_MODEL_PORT_INPUT true 1 1 in
  let t2 := count_and_width_trace example_scff SPICE_MODEL_PORT_CLOCK false 1 1 in
  let t3 := count_and_width_trace example_scff SPICE_MODEL_PORT_OUTPUT true 2 1 in
  let r1 := count_readable example_scff SPICE_MODEL_PORT_INPUT true 1 in
  let r2 := count_readable example_scff SPICE_MODEL_PORT_CLOCK false 1 in
  let r3 := count_readable example_scff SPICE_MODEL_PORT_OUTPUT true 2 in
  (cm_type example_scff ≠ SPICE_MODEL_SCFF →
     check_scff_circuit_model_ports example_ff_catalog 1 = (Faulted, [])) ∧
  (cm_type example_scff = SPICE_MODEL_SCFF →
     (r1 → r2 → r3 →
        check_scff_circuit_model_ports example_ff_catalog 1
        = (Returned (wrap64 (size (t1 ++ t2 ++ t3))), t1 ++ t2 ++ t3)) ∧
     (¬ r1 → check_scff_circuit_model_ports example_ff_catalog 1 = (Faulted, [])) ∧
     (r1 → ¬ r2 → check_scff_circuit_model_ports example_ff_catalog 1 = (Faulted, t1)) ∧
     (r1 → r2 → ¬ r3 →
        check_scff_circuit_model_ports example_ff_catalog 1 = (Faulted, t1 ++ t2))) ∧
  (check_scff_circuit_model_ports example_ff_catalog 1 = (Returned 0, []) ↔
     cm_type example_scff = SPICE_MODEL_SCFF ∧
     has_ports example_scff SPICE_MODEL_PORT_INPUT true 1 1 ∧
     has_ports example_scff SPICE_MODEL_PORT_CLOCK false 1 1 ∧
     has_ports example_scff SPICE_MODEL_PORT_OUTPUT true 2 1).
Proof. apply (scff_ports_check_outcome example_ff_catalog 1 example_scff). reflexivity. Defined.

(** The global clock of the scan-chain flip-flop is counted. *)
Example scff_check_counts_global_clock :
  cp_is_global example_clock_port = true ∧
  check_scff_circuit_model_ports example_ff_catalog 1 = (Returned 0, []).
Proof. split; reflexivity. Qed.

Lemma sram_ports_check_outcome_witness :
  let t1 := count_and_width_trace narrow_sram SPICE_MODEL_PORT_OUTPUT true 1 2 in
  let t2 := count_and_width_trace narrow_sram SPICE_MODEL_PORT_BL true 1 1 in
  let t3 := count_and_width_trace narrow_sram SPICE_MODEL_PORT_WL true 1 1 in
  let r1 := count_readable narrow_sram SPICE_MODEL_PORT_OUTPUT true 1 in
  let r2 := count_readable narrow_sram SPICE_MODEL_PORT_BL true 1 in
  let r3 := count_readable narrow_sram SPICE_MODEL_PORT_WL true 1 in
  (cm_type narrow_sram ≠ SPICE_MODEL_SRAM →
     check_sram_circuit_model_ports example_ff_catalog 2 true = (Faulted, [])) ∧
  (cm_type narrow_sram = SPICE_MODEL_SRAM →
     (r1 → check_sram_circuit_model_ports example_ff_catalog 2 false
           = (Returned (wrap64 (size t1)), t1)) ∧
     (r1 → r2 → r3 →
        check_sram_circuit_model_ports example_ff_catalog 2 true
        = (Returned (wrap64 (size (t1 ++ t2 ++ t3))), t1 ++ t2 ++ t3)) ∧
     (¬ r1 → check_sram_circuit_model_ports example_ff_catalog 2 true = (Faulted, [])) ∧
     (r1 → ¬ r2 → check_sram_circuit_model_ports example_ff_catalog 2 true = (Faulted, t1)) ∧
     (r1 → r2 → ¬ r3 →
        check_sram_circuit_model_ports example_ff_catalog 2 true = (Faulted, t1 ++ t2))) ∧
  (check_sram_circuit_model_ports example_ff_catalog 2 true = (Returned 0, []) ↔
     cm_type narrow_sram = SPICE_MODEL_SRAM ∧
     has_ports narrow_sram SPICE_MODEL_PORT_OUTPUT true 1 2 ∧
     (true = true →
        has_ports narrow_sram SPICE_MODEL_PORT_BL true 1 1 ∧
        has_ports narrow_sram SPICE_MODEL_PORT_WL true 1 1)).
Proof.
  apply (sram_ports_check_outcome example_ff_catalog 2 narrow_sram true). reflexivity.
Defined.

(** The narrow SRAM cell is reported for the width of its output and for its
    missing BL and WL ports, none of which was found. *)
Example sram_check_on_narrow_cell :
  check_sram_circuit_model_ports example_ff_catalog 2 true
  = (Returned 3,
     [ERROR_port_size "sram6T" SPICE_MODEL_PORT_OUTPUT 2;
      ERROR_port_count 1 SPICE_MODEL_PORT_BL SPICE_MODEL_SRAM 0;
      ERROR_port_count 1 SPICE_MODEL_PORT_WL SPICE_MODEL_SRAM 0]).
Proof. reflexivity. Qed.

(** * Part VII: more about the pre-configured top module writer *)

(** ** Loops that stop at a failed assertion *)

Lemma for_each_stops {E X} (body : X → unit → M E unit) pre x post l :
  Forall (λ y, (body y ()).1 = Returned ()) pre →
  body x () = (Faulted, l) →
  for_each body (pre ++ x :: post) ()
  = (Faulted, (pre ≫= (λ y, (body y ()).2)) ++ l).
Proof.
  intros Hpre Hx. rewrite for_each_app, (for_each_returns _ _ Hpre). run_binds.
  simpl for_each. by rewrite Hx.
Qed.

(** A list either satisfies [P] throughout or has a first element that does
    not. *)
Lemma Forall_or_first {A} (P : A → Prop) (l : list A) :
  (∀ x, P x ∨ ¬ P x) →
  Forall P l ∨ ∃ pre x post, l = pre ++ x :: post ∧ Forall P pre ∧ ¬ P x.
Proof.
  intros Hdec. induction l as [|a l IH]; [by left|].
  destruct (Hdec a) as [Ha|Ha].
  - destruct IH as [Hall|(pre & x & post & -> & Hpre & Hx)].
    + left. by constructor.
    + right. exists (a :: pre), x, post. split_and!; [done | by constructor | done].
  - right. exists [], a, l. split_and!; [done | constructor | done].
Qed.

(** ** The search for the linked circuit port *)

(** X13.  The search loop of the global-port binder, on a list of circuit
    port ids that all name a port: it returns the first id of the list whose
    library name equals the name of the module port, whatever follows it,
    and the invalid id exactly when no id of the list carries that name. *)
Theorem linked_port_is_first_match lib name global_ports :
  Forall (λ id, is_Some (find_port lib id)) global_ports →
  ∃ r, find_linked_circuit_port lib name global_ports = ret r ∧
       match r with
       | None => Forall (λ id, cp_lib_name <$> find_port lib id ≠ Some name) global_ports
       | Some id =>
           ∃ pre post,
             global_ports = pre ++ id :: post ∧
             cp_lib_name <$> find_port lib id = Some name ∧
             Forall (λ id', cp_lib_name <$> find_port lib id' ≠ Some name) pre
       end.
Proof.
  induction 1 as [|id ids [cp Hcp] _ (r & Hr & Hmatch)].
  - exists None. split; [done | constructor].
  - simpl find_linked_circuit_port. unfold port_lib_name. rewrite Hcp. simpl fmap.
    rewrite lift_Some, bind_ret_l. case_bool_decide as Hname.
    + exists r. split; [done|]. destruct r as [id'|].
      * destruct Hmatch as (pre & post & -> & Hid' & Hpre).
        exists (id :: pre), post. split_and!; [done..|].
        constructor; [|done]. rewrite Hcp. simpl. congruence.
      * constructor; [|done]. rewrite Hcp. simpl. congruence.
    + exists (Some id). split; [done|]. exists [], ids. split_and!; [done | | constructor].
      rewrite Hcp. simpl. f_equal. destruct (decide (name = cp_lib_name cp)); [done|].
      by destruct Hname.
Qed.

(** ** Global ports that cannot be linked *)

Section unlinked_global_ports.
Context (postfix : string) (lib : CircuitLibrary).
Context (global_ports : list (Z * Z)) (clocks : list string).

Lemma clock_loops_return (q : BasicPort) :
  (for_each (λ pin _,
     for_each (λ clock_port_name _,
       let module_clock_pin := BasicPort_range (get_name q) pin pin in
       let benchmark_clock_pin := BasicPort_width (clock_port_name +:+ postfix) 1 in
       emit (print_verilog_wire_connection module_clock_pin benchmark_clock_pin false))
       clocks ()) (pins q) ()).1 = Returned ().
Proof.
  erewrite for_each_prints; [done|]. intros pin _.
  apply for_each_prints. intros clk _. reflexivity.
Qed.

(** The search prints nothing and does not exit. *)
Lemma find_linked_circuit_port_silent name :
  ∃ r, find_linked_circuit_port lib name global_ports = (r, []) ∧ ∀ c, r ≠ Exited c.
Proof.
  induction global_ports as [|id ids IH]; [by eexists|].
  simpl find_linked_circuit_port. unfold port_lib_name.
  destruct (find_port lib id) as [cp|]; simpl fmap.
  - rewrite lift_Some, bind_ret_l. case_bool_decide; [apply IH | by eexists].
  - by eexists.
Qed.

(** A port of the top module gets its statements exactly when it is linked;
    otherwise an assertion fails before anything is printed for it. *)
Lemma connect_global_port_linked q :
  (linked_port lib global_ports q →
     (connect_global_port postfix lib global_ports clocks q).1 = Returned ()) ∧
  (¬ linked_port lib global_ports q →
     connect_global_port postfix lib global_ports clocks q = (Faulted, [])).
Proof.
  unfold linked_port, connect_global_port.
  destruct (find_linked_circuit_port_silent (get_name q)) as (r & -> & Hexit).
  destruct r as [[id|]|c|]; [| | by destruct (Hexit c) |].
  - rewrite bind_returned. unfold port_size, port_type, port_is_prog, port_default_value.
    destruct (find_port lib id) as [cp|] eqn:Hcp; simpl fmap.
    + rewrite !lift_Some, !bind_ret_l. cbn [fst snd].
      destruct (decide (get_width q = cp_size cp)) as [Hw|Hw].
      * rewrite bool_decide_true by done. rewrite VTR_ASSERT_true, !bind_ret_l.
        split; [intros _|intros []; eauto 10].
        destruct (_ && _); [apply clock_loops_return | done].
      * rewrite bool_decide_false by done. simpl.
        split; [|done]. intros (id' & cp' & [= <-] & Hcp' & Hw'). congruence.
    + simpl. split; [|done]. intros (id' & cp' & [= <-] & Hcp' & _). congruence.
  - simpl. split; [|done]. by intros (id' & cp' & [=] & _).
  - simpl. split; [|done]. by intros (id' & cp' & [=] & _).
Qed.

Lemma linked_port_dec q : linked_port lib global_ports q ∨ ¬ linked_port lib global_ports q.
Proof.
  unfold linked_port.
  destruct (find_linked_circuit_port lib (get_name q) global_ports)
    as [[[id|]| |] [|]] eqn:Hfind; try (right; intros (? & ? & [=] & _); done).
  destruct (find_port lib id) as [cp|] eqn:Hcp.
  - destruct (decide (get_width q = cp_size cp)); [left; eauto|].
    right. intros (? & ? & [= <-] & ? & ?). congruence.
  - right. intros (? & ? & [= <-] & ? & ?). congruence.
Qed.

Lemma connect_global_ports_stop mm top pre q post :
  module_ports_by_type (E:=verilog) mm top MODULE_GLOBAL_PORT = ret (pre ++ q :: post) →
  Forall (linked_port lib global_ports) pre →
  ¬ linked_port lib global_ports q →
  print_verilog_preconfig_top_module_connect_global_ports
    postfix mm top lib global_ports clocks
  = (Faulted,
     print_verilog_comment "----- Begin Connect Global ports of FPGA top module -----"
       :: (pre ≫= (λ p, (connect_global_port postfix lib global_ports clocks p).2))).
Proof.
  intros Hports Hpre Hq. unfold print_verilog_preconfig_top_module_connect_global_ports.
  rewrite Hports, bind_emit, bind_ret_l.
  rewrite (for_each_stops _ pre q post []).
  - simpl. by rewrite (right_id_L [] (++)).
  - eapply Forall_impl; [exact Hpre|]. intros p. apply connect_global_port_linked.
  - by apply connect_global_port_linked.
Qed.

(** X14.  With the top module in the hierarchy, the global-port binder
    returns exactly when every global port of the top module is linked: the
    search by name finds a circuit port, and that port has the width of the
    module port. *)
Theorem global_binder_returns_iff_ports_linked mm top module_global_ports :
  module_ports_by_type (E:=verilog) mm top MODULE_GLOBAL_PORT = ret module_global_ports →
  (print_verilog_preconfig_top_module_connect_global_ports
     postfix mm top lib global_ports clocks).1 = Returned ()
  ↔ Forall (λ q, ∃ id cp,
        find_linked_circuit_port lib (get_name q) global_ports = ret (Some id) ∧
        find_port lib id = Some cp ∧ get_width q = cp_size cp) module_global_ports.
Proof.
  intros Hports. fold (linked_port lib global_ports). split.
  - intros Hrun.
    destruct (Forall_or_first (linked_port lib global_ports) module_global_ports)
      as [Hall|(pre & q & post & -> & Hpre & Hq)].
    + apply linked_port_dec.
    + done.
    + by rewrite (connect_global_ports_stop _ _ _ _ _ Hports Hpre Hq) in Hrun.
  - intros Hall. rewrite (connect_global_ports_trace _ _ _ _ mm top _ Hports); [done|].
    eapply Forall_impl; [exact Hall|]. intros p. apply connect_global_port_linked.
Qed.

(** X15.  The global-port binder stops at the first global port of the top
    module that is not linked (no circuit port of that name among the global
    ports, or one of another width): an assertion fails there.  The file
    then holds the opening banner and the statements of the ports before it;
    nothing is printed for that port or a later one, and the closing banner
    is missing. *)
Theorem global_binder_stops_at_unlinked_port mm top pre q post :
  module_ports_by_type (E:=verilog) mm top MODULE_GLOBAL_PORT = ret (pre ++ q :: post) →
  Forall (linked_port lib global_ports) pre →
  (∀ id cp, find_linked_circuit_port lib (get_name q) global_ports = ret (Some id) →
            find_port lib id = Some cp → get_width q ≠ cp_size cp) →
  let trace :=
    print_verilog_comment "----- Begin Connect Global ports of FPGA top module -----"
      :: (pre ≫= (λ p, (connect_global_port postfix lib global_ports clocks p).2)) in
  print_verilog_preconfig_top_module_connect_global_ports
    postfix mm top lib global_ports clocks = (Faulted, trace) ∧
  Forall (λ p, (connect_global_port postfix lib global_ports clocks p).1 = Returned ()) pre ∧
  print_verilog_comment "----- End Connect Global ports of FPGA top module -----" ∉ trace.
Proof.
  intros Hports Hpre Hq trace.
  assert (¬ linked_port lib global_ports q) as Hnot.
  { intros (id & cp & Hfind & Hcp & Hw). by apply (Hq id cp). }
  assert (Forall (λ p, (connect_global_port postfix lib global_ports clocks p).1
                       = Returned ()) pre) as Hret.
  { eapply Forall_impl; [exact Hpre|]. intros p. apply connect_global_port_linked. }
  split_and!; [exact (connect_global_ports_stop _ _ _ _ _ Hports Hpre Hnot) | done |].
  unfold trace. intros [?|Hin]%elem_of_cons; [done|].
  apply list_elem_of_bind in Hin as (p & Hin & Hp).
  rewrite Forall_forall in Hpre. destruct (Hpre p Hp) as (id & cp & Hfind & Hcp & Hw).
  destruct (decide (cp_type cp = SPICE_MODEL_PORT_CLOCK ∧ cp_is_prog cp = false))
    as [[Ht Hprog]|Hno].
  - rewrite (connect_global_port_clock _ _ _ _ _ _ _ Hfind Hcp Hw Ht Hprog) in Hin.
    unfold clock_connections in Hin. cbn [snd] in Hin.
    apply list_elem_of_bind in Hin as (pin & Hin & _).
    apply list_elem_of_bind in Hin as (clk & Hin & _).
    by apply list_elem_of_singleton in Hin.
  - rewrite (connect_global_port_constant _ _ _ _ _ _ _ Hfind Hcp Hw Hno) in Hin.
    by apply list_elem_of_singleton in Hin.
Qed.

End unlinked_global_ports.

(** ** Benchmark I/Os that cannot be placed *)

Section unplaced_ios.
Context (postfix : string) (init : Z) (place : t_logical_block → Z).
Context (mm : ModuleManager) (top : nat).

Lemma Forall_filter_io (P : t_logical_block → Prop) lbs :
  Forall (λ lb, is_io_block lb → P lb) lbs ↔ Forall P (filter is_io_block lbs).
Proof.
  rewrite !Forall_forall. split.
  - intros Hall lb [Hio Hin]%list_elem_of_filter. by apply Hall.
  - intros Hall lb Hin Hio. apply Hall. by apply list_elem_of_filter.
Qed.

(** The loop over the logical blocks, up to a block whose pad is out of
    range. *)
Lemma connect_ios_first_loop_stops port pre lb post (io_used : list bool) :
  Forall (λ lb, 0 ≤ place lb < get_width port) (filter is_io_block pre) →
  is_io_block lb → get_width port ≤ place lb →
  for_each (λ io_lb io_used,
      if negb (is_io_block io_lb) then ret io_used else
      let io_index := place io_lb in
      let module_mapped_io_port := port in
      VTR_ASSERT (bool_decide (io_index < get_width module_mapped_io_port));;
      let module_mapped_io_port := set_width module_mapped_io_port io_index io_index in
      let benchmark_io_port := BasicPort_width (lb_name io_lb +:+ postfix) 1 in
      emit (print_verilog_comment
              ("----- Blif Benchmark inout " +:+ lb_name io_lb
               +:+ " is mapped to FPGA IOPAD " +:+ get_name module_mapped_io_port
               +:+ "[" +:+ pretty io_index +:+ "] -----"));;
      emit (print_verilog_wire_connection module_mapped_io_port benchmark_io_port false);;
      ret (<[Z.to_nat io_index := true]> io_used))
    (pre ++ lb :: post) io_used
  = (Faulted,
     filter is_io_block pre ≫= (λ lb, [io_comment place port lb;
                                       io_connection postfix place port lb])).
Proof.
  intros Hpre Hio Hout.
  rewrite for_each_app, (connect_ios_first_loop postfix place port pre io_used Hpre).
  rewrite bind_returned. simpl for_each.
  rewrite (Is_true_true_1 _ Hio). simpl negb. cbn iota.
  rewrite bool_decide_false by lia. simpl. by rewrite (right_id_L [] (++)).
Qed.

Lemma connect_ios_stops port pre lb post :
  module_ports_by_type (E:=verilog) mm top MODULE_GPIO_PORT = ret [port] →
  Forall (λ lb, 0 ≤ place lb < get_width port) (filter is_io_block pre) →
  is_io_block lb → get_width port ≤ place lb →
  print_verilog_preconfig_top_module_connect_ios postfix init place mm top (pre ++ lb :: post)
  = (Faulted,
     print_verilog_comment "----- Link BLIF Benchmark I/Os to FPGA I/Os -----"
       :: (filter is_io_block pre ≫= (λ lb, [io_comment place port lb;
                                             io_connection postfix place port lb]))).
Proof.
  intros Hport Hpre Hio Hout. unfold print_verilog_preconfig_top_module_connect_ios.
  rewrite Hport, bind_ret_l. simpl bool_decide. rewrite VTR_ASSERT_true, bind_ret_l.
  simpl lookup. rewrite lift_Some, bind_ret_l, bind_emit.
  by rewrite (connect_ios_first_loop_stops _ _ _ _ _ Hpre Hio Hout).
Qed.

Lemma connect_ios_needs_one_port gpio_ports lbs :
  module_ports_by_type (E:=verilog) mm top MODULE_GPIO_PORT = ret gpio_ports →
  length gpio_ports ≠ 1%nat →
  print_verilog_preconfig_top_module_connect_ios postfix init place mm top lbs = (Faulted, []).
Proof.
  intros Hport Hlen. unfold print_verilog_preconfig_top_module_connect_ios.
  rewrite Hport, bind_ret_l, bool_decide_false; [done|]. unfold size. lia.
Qed.

(** X16.  With the top module in the hierarchy and pad indices that are
    [size_t] values, the I/O binder returns exactly when the top module has
    exactly one datapath-I/O port and every INPAD or OUTPAD block is placed on
    a pad below the width of that port.  When the number of datapath-I/O
    ports is not 1, the assertion at the head of the binder fails before
    anything is printed. *)
Theorem io_binder_returns_iff_pads_in_range gpio_ports lbs :
  module_ports_by_type (E:=verilog) mm top MODULE_GPIO_PORT = ret gpio_ports →
  (∀ lb, 0 ≤ place lb) →
  ((print_verilog_preconfig_top_module_connect_ios postfix init place mm top lbs).1
     = Returned ()
   ↔ ∃ port, gpio_ports = [port] ∧
             Forall (λ lb, place lb < get_width port) (filter is_io_block lbs)) ∧
  (length gpio_ports ≠ 1%nat →
   print_verilog_preconfig_top_module_connect_ios postfix init place mm top lbs
   = (Faulted, [])).
Proof.
  intros Hport Hplace. split; [|by apply connect_ios_needs_one_port]. split.
  - intros Hrun. destruct gpio_ports as [|port [|port' ports]].
    + by rewrite (connect_ios_needs_one_port [] lbs Hport) in Hrun.
    + exists port. split; [done|]. apply Forall_filter_io.
      destruct (Forall_or_first (λ lb, is_io_block lb → place lb < get_width port) lbs)
        as [Hall|(pre & lb & post & -> & Hpre & Hlb)].
      * intros lb. destruct (decide (is_io_block lb → place lb < get_width port)); tauto.
      * done.
      * assert (is_io_block lb ∧ get_width port ≤ place lb) as [Hio Hout].
        { destruct (decide (is_io_block lb)); [|tauto].
          split; [done|]. destruct (decide (get_width port ≤ place lb)); [done|].
          destruct Hlb. lia. }
        rewrite (connect_ios_stops port pre lb post Hport) in Hrun; [done| |done..].
        apply Forall_filter_io. eapply Forall_impl; [exact Hpre|].
        intros lb' Hlb' Hio'. specialize (Hplace lb'). split; [done | by apply Hlb'].
    + by rewrite (connect_ios_needs_one_port _ lbs Hport) in Hrun.
  - intros (port & -> & Hall).
    rewrite (connect_ios_run postfix init place mm top port lbs Hport); [done|].
    eapply Forall_impl; [exact Hall|]. intros lb Hlb. specialize (Hplace lb). simpl in Hlb. lia.
Qed.

(** X17.  The I/O binder stops at the first INPAD or OUTPAD block whose pad
    index is not below the width of the datapath-I/O port: an assertion
    fails there.  The file then holds the banner and, for each I/O block
    before it, its comment and its connection; no pad is tied to a constant,
    not even those that no block is placed on. *)
Theorem io_binder_stops_at_out_of_range_pad port pre lb post :
  module_ports_by_type (E:=verilog) mm top MODULE_GPIO_PORT = ret [port] →
  Forall (λ lb, 0 ≤ place lb < get_width port) (filter is_io_block pre) →
  is_io_block lb → get_width port ≤ place lb →
  let trace :=
    print_verilog_comment "----- Link BLIF Benchmark I/Os to FPGA I/Os -----"
      :: (filter is_io_block pre ≫= (λ lb, [io_comment place port lb;
                                            io_connection postfix place port lb])) in
  print_verilog_preconfig_top_module_connect_ios postfix init place mm top (pre ++ lb :: post)
    = (Faulted, trace) ∧
  filter is_wire_connection trace
    = io_connection postfix place port <$> filter is_io_block pre ∧
  filter is_constant_assignment trace = [].
Proof.
  intros Hport Hpre Hio Hout trace. split_and!.
  - by apply connect_ios_stops.
  - unfold trace. clear. rewrite filter_cons. simpl.
    induction (filter is_io_block pre) as [|x l IH]; [done|].
    rewrite bind_cons, fmap_cons, filter_app, IH. by rewrite !filter_cons, filter_nil.
  - unfold trace. clear. rewrite filter_cons. simpl.
    induction (filter is_io_block pre) as [|x l IH]; [done|].
    rewrite bind_cons, filter_app, IH. by rewrite !filter_cons, filter_nil.
Qed.

End unplaced_ios.

(** ** A configuration bit outside the top module *)

Section foreign_bits.
Context (uut ccff : string) (mm : ModuleManager) (top : nat) (bm : BitstreamManager).

(** A bit whose path resolves is loaded with one assignment. *)
Lemma load_config_bit_resolved bit path :
  bit_hierarchy_path uut ccff mm top bm bit = ret path →
  ∃ cbit, bits bm !! bit = Some cbit ∧
    load_config_bit uut ccff mm top bm bit
    = (Returned (),
       [print_verilog_wire_constant_values
          {| bp_name := path; bp_lsb := cbit_index cbit; bp_msb := cbit_index cbit |}
          [Z.b2z (cbit_value cbit)]]).
Proof.
  intros Hpath. destruct (bits bm !! bit) as [cbit|] eqn:Hbit.
  - exists cbit. split; [done|].
    unfold load_config_bit, bit_index_in_parent_block, bit_value.
    rewrite Hpath, bind_ret_l, Hbit. simpl fmap. rewrite !lift_Some, !bind_ret_l.
    by rewrite BasicPort_range_bit, get_width_bit.
  - unfold bit_hierarchy_path, bit_parent_block in Hpath. by rewrite Hbit in Hpath.
Qed.

(** X18.  The bitstream loader stops at the first configuration bit whose
    block hierarchy does not start at the top module: with the hierarchy of
    the bit's block being [root :: rest] and [root] not carrying the name of
    the top module, the assertion of the loader fails.  The file then holds
    the opening banner and one assignment for each bit before it; the
    closing banner is missing. *)
Theorem bitstream_loader_stops_at_foreign_bit pre bit post cbit root rest md rblk :
  Forall (λ b, ∃ path, bit_hierarchy_path uut ccff mm top bm b = ret path) pre →
  bits bm !! bit = Some cbit →
  find_bitstream_manager_block_hierarchy (E:=verilog) bm (cbit_parent cbit)
    = ret (root :: rest) →
  modules mm !! top = Some md →
  blocks bm !! root = Some rblk →
  md_name md ≠ cb_name rblk →
  let trace :=
    print_verilog_comment "----- Begin load bitstream to configuration memories -----"
      :: (pre ≫= (λ b, (load_config_bit uut ccff mm top bm b).2)) in
  print_verilog_preconfig_top_module_load_bitstream uut ccff mm top bm (pre ++ bit :: post)
    = (Faulted, trace) ∧
  length trace = S (length pre) ∧
  Forall (λ b, (load_config_bit uut ccff mm top bm b).1 = Returned ()) pre ∧
  print_verilog_comment "----- End load bitstream to configuration memories -----" ∉ trace.
Proof.
  intros Hpre Hbit Hchain Hmd Hroot Hname trace.
  assert (load_config_bit uut ccff mm top bm bit = (Faulted, [])) as Hfault.
  { unfold load_config_bit, bit_hierarchy_path, bit_parent_block.
    rewrite Hbit. simpl fmap. rewrite lift_Some, bind_ret_l, Hchain, bind_ret_l.
    simpl lookup. rewrite lift_Some, bind_ret_l.
    unfold module_name, block_name at 1. rewrite Hmd, Hroot. simpl fmap.
    rewrite !lift_Some, !bind_ret_l, bool_decide_false by done. done. }
  assert (Forall (λ b, ∃ stmt, load_config_bit uut ccff mm top bm b = (Returned (), [stmt])
                               ∧ is_constant_assignment stmt = true) pre) as Hloaded.
  { eapply Forall_impl; [exact Hpre|]. intros b [path Hpath].
    destruct (load_config_bit_resolved b path Hpath) as (cb & _ & ->). by eexists. }
  assert (Forall (λ b, (load_config_bit uut ccff mm top bm b).1 = Returned ()) pre) as Hret.
  { eapply Forall_impl; [exact Hloaded|]. by intros b (stmt & -> & _). }
  split_and!; [| |done|].
  - unfold print_verilog_preconfig_top_module_load_bitstream. rewrite bind_emit.
    rewrite (for_each_stops _ pre bit post [] Hret Hfault). simpl.
    by rewrite (right_id_L [] (++)).
  - unfold trace. simpl. f_equal. rewrite (length_bind_const _ _ 1%nat); [lia|].
    intros b Hb. rewrite Forall_forall in Hloaded. by destruct (Hloaded b Hb) as (stmt & -> & _).
  - unfold trace. intros [?|Hin]%elem_of_cons; [done|].
    apply list_elem_of_bind in Hin as (b & Hin & Hb).
    rewrite Forall_forall in Hloaded. destruct (Hloaded b Hb) as (stmt & Hrun & Hconst).
    rewrite Hrun in Hin. apply list_elem_of_singleton in Hin. by subst stmt.
Qed.

End foreign_bits.

(** ** The module declaration *)

Section module_declaration.
Context (postfix port_postfix : string).
Context (generate_verilog_port : e_dump_verilog_port_type → BasicPort → string).
Context (value_initialized_port_type : e_dump_verilog_port_type).

(** The port of an I/O block as the loop declares it. *)
Lemma declared_port lb :
  is_io_block lb →
  (default value_initialized_port_type
     ((<[VPACK_OUTPAD := VERILOG_PORT_OUTPUT]>
         (<[VPACK_INPAD := VERILOG_PORT_INPUT]>
            (∅ : gmap logical_block_types e_dump_verilog_port_type))) !! lb_type lb),
   BasicPort_width (lb_name lb +:+ port_postfix) 1)
  = module_port_declaration port_postfix lb.
Proof.
  unfold is_io_block, module_port_declaration. destruct (lb_type lb); try done.
Qed.

Lemma not_io_block lb :
  bool_decide (VPACK_INPAD ≠ lb_type lb) && bool_decide (VPACK_OUTPAD ≠ lb_type lb)
  = negb (is_io_block lb).
Proof. unfold is_io_block. by rewrite negb_involutive. Qed.

Lemma bind_fmap_list {A B C} (f : A → B) (g : B → list C) (l : list A) :
  (f <$> l) ≫= g = l ≫= (g ∘ f).
Proof. induction l as [|a l IH]; [done|]. by rewrite fmap_cons, !bind_cons, IH. Qed.

(** The loop over the logical blocks, once a port has been declared. *)
Lemma declare_more_ports lbs port_counter :
  0 < port_counter → port_counter + size (filter is_io_block lbs) < SIZE_MOD →
  for_each (λ lb port_counter,
      if bool_decide (VPACK_INPAD ≠ lb_type lb) && bool_decide (VPACK_OUTPAD ≠ lb_type lb)
      then ret port_counter else
      (if bool_decide (0 < port_counter)
       then (emit (text ",");; emit (statement endl))
       else ret ());;
      emit (text (generate_verilog_port
                    (default value_initialized_port_type
                       ((<[VPACK_OUTPAD := VERILOG_PORT_OUTPUT]>
                           (<[VPACK_INPAD := VERILOG_PORT_INPUT]>
                              (∅ : gmap logical_block_types e_dump_verilog_port_type)))
                          !! lb_type lb))
                    (BasicPort_width (lb_name lb +:+ port_postfix) 1)));;
      ret (incr port_counter))
    lbs port_counter
  = (Returned (port_counter + size (filter is_io_block lbs)),
     filter is_io_block lbs ≫= (λ lb,
       [text ","; statement endl;
        text (generate_verilog_port (module_port_declaration port_postfix lb).1
                (module_port_declaration port_postfix lb).2)])).
Proof.
  revert port_counter. induction lbs as [|lb lbs IH]; intros c Hc Hfit.
  - simpl. unfold size. simpl. by rewrite Z.add_0_r.
  - simpl for_each. rewrite not_io_block. rewrite filter_cons in Hfit |- *.
    destruct (decide (is_io_block lb)) as [Hio|Hio].
    + assert (size (lb :: filter is_io_block lbs) = 1 + size (filter is_io_block lbs)) as Hsz
        by (unfold size; simpl length; lia).
      rewrite Hsz in Hfit |- *.
      pose proof (size_nonneg (filter is_io_block lbs)).
      rewrite (Is_true_true_1 _ Hio). simpl negb. cbn iota.
      rewrite bool_decide_true by done.
      pose proof (declared_port lb Hio) as Hdecl. apply (f_equal fst) in Hdecl as H1.
      pose proof (declared_port lb Hio) as Hdecl'. apply (f_equal snd) in Hdecl' as H2.
      cbn [fst snd] in H1, H2. rewrite H1, H2.
      unfold emit, ret. run_binds. unfold incr. rewrite wrap64_small by lia.
      rewrite IH by lia. run_binds. rewrite bind_cons. simpl.
      f_equal. f_equal. lia.
    + rewrite (Is_true_false_1 _ Hio). simpl negb. cbn iota. rewrite bind_ret_l.
      by apply IH.
Qed.

(** The same loop from its start: no comma before the first port. *)
Lemma declare_ports lbs :
  size (filter is_io_block lbs) < SIZE_MOD →
  for_each (λ lb port_counter,
      if bool_decide (VPACK_INPAD ≠ lb_type lb) && bool_decide (VPACK_OUTPAD ≠ lb_type lb)
      then ret port_counter else
      (if bool_decide (0 < port_counter)
       then (emit (text ",");; emit (statement endl))
       else ret ());;
      emit (text (generate_verilog_port
                    (default value_initialized_port_type
                       ((<[VPACK_OUTPAD := VERILOG_PORT_OUTPUT]>
                           (<[VPACK_INPAD := VERILOG_PORT_INPUT]>
                              (∅ : gmap logical_block_types e_dump_verilog_port_type)))
                          !! lb_type lb))
                    (BasicPort_width (lb_name lb +:+ port_postfix) 1)));;
      ret (incr port_counter))
    lbs 0
  = (Returned (size (filter is_io_block lbs)),
     comma_separated
       ((λ lb, text (generate_verilog_port (module_port_declaration port_postfix lb).1
                       (module_port_declaration port_postfix lb).2))
          <$> filter is_io_block lbs)).
Proof.
  induction lbs as [|lb lbs IH]; intros Hfit; [done|].
  simpl for_each. rewrite not_io_block. rewrite filter_cons in Hfit |- *.
  destruct (decide (is_io_block lb)) as [Hio|Hio].
  - assert (size (lb :: filter is_io_block lbs) = 1 + size (filter is_io_block lbs)) as Hsz
      by (unfold size; simpl length; lia).
    rewrite Hsz in Hfit |- *.
    pose proof (size_nonneg (filter is_io_block lbs)).
    rewrite (Is_true_true_1 _ Hio). simpl negb. cbn iota.
    rewrite ?(bool_decide_false (0 < 0)) by lia.
    pose proof (declared_port lb Hio) as Hdecl. apply (f_equal fst) in Hdecl as H1.
    pose proof (declared_port lb Hio) as Hdecl'. apply (f_equal snd) in Hdecl' as H2.
    cbn [fst snd] in H1, H2. rewrite H1, H2.
    unfold emit, ret. run_binds. change (incr 0) with 1.
    rewrite declare_more_ports by lia. run_binds. rewrite fmap_cons.
    simpl comma_separated. by rewrite bind_fmap_list.
  - rewrite (Is_true_false_1 _ Hio). simpl negb. cbn iota. rewrite bind_ret_l.
    by apply IH.
Qed.

Lemma module_declaration_run circuit_name lbs :
  size (filter is_io_block lbs) < SIZE_MOD →
  print_verilog_preconfig_top_module_ports postfix port_postfix generate_verilog_port
    value_initialized_port_type circuit_name lbs
  = (Returned (),
     [text "module "; text circuit_name; text postfix; text " ("; statement endl]
     ++ comma_separated
          ((λ lb, text (generate_verilog_port (module_port_declaration port_postfix lb).1
                          (module_port_declaration port_postfix lb).2))
             <$> filter is_io_block lbs)
     ++ [text ");"; statement endl; statement endl]).
Proof.
  intros Hfit. unfold print_verilog_preconfig_top_module_ports. cbv zeta.
  rewrite (declare_ports lbs Hfit). unfold emit. by run_binds.
Qed.

(** X19.  The module declaration, for a list of logical blocks whose number
    of I/O blocks fits a [size_t].  It opens with the module keyword, the
    circuit name with the module postfix and a parenthesis; then come the
    port declarations, one per INPAD or OUTPAD block in the order of the
    blocks, an input for an INPAD and an output for an OUTPAD, 1 bit wide and
    named after the block with the port postfix, separated by a comma and a
    line end, with none before the first and none after the last; it closes
    with the parenthesis and an empty line.  Other blocks leave no trace. *)
Theorem module_declaration_lists_io_blocks circuit_name lbs :
  size (filter is_io_block lbs) < SIZE_MOD →
  let declare := λ lb,
    text (generate_verilog_port
            (if bool_decide (lb_type lb = VPACK_INPAD)
             then VERILOG_PORT_INPUT else VERILOG_PORT_OUTPUT)
            {| bp_name := lb_name lb +:+ port_postfix; bp_lsb := 0; bp_msb := 0 |}) in
  print_verilog_preconfig_top_module_ports postfix port_postfix generate_verilog_port
    value_initialized_port_type circuit_name lbs
  = (Returned (),
     [text "module "; text circuit_name; text postfix; text " ("; statement endl]
     ++ comma_separated (declare <$> filter is_io_block lbs)
     ++ [text ");"; statement endl; statement endl]) ∧
  length (comma_separated (declare <$> filter is_io_block lbs))
  = (3 * length (filter is_io_block lbs) - 2)%nat.
Proof.
  intros Hfit declare. split; [by apply module_declaration_run|].
  destruct (filter is_io_block lbs) as [|lb ios]; [done|].
  rewrite fmap_cons. simpl comma_separated. simpl length.
  rewrite (length_bind_const _ _ 3%nat) by done. rewrite length_fmap. lia.
Qed.

End module_declaration.

(** ** What a computation may print, whether or not it returns *)

Section tame_facts.
Context {E : Type} (P : E → Prop).

Lemma tame_ret {A} (a : A) : tame P (ret a).
Proof. split; [done | constructor]. Qed.

Lemma tame_fault {A} : tame P (fault (A:=A)).
Proof. split; [done | constructor]. Qed.

Lemma tame_lift {A} (o : option A) : tame P (lift o).
Proof. destruct o; [apply tame_ret | apply tame_fault]. Qed.

Lemma tame_VTR_ASSERT b : tame P (VTR_ASSERT b).
Proof. destruct b; [apply tame_ret | apply tame_fault]. Qed.

Lemma tame_emit e : P e → tame P (emit e).
Proof. intros. split; [done | by repeat constructor]. Qed.

Lemma tame_bind {A B} (m : M E A) (f : A → M E B) :
  tame P m → (∀ a l, m = (Returned a, l) → tame P (f a)) → tame P (bind m f).
Proof.
  intros [Hexit Hall] Hf. destruct m as [[a|c|] l]; simpl in *.
  - destruct (Hf a l eq_refl) as [Hexit' Hall']. destruct (f a) as [r l']. simpl in *.
    split; [done | by apply Forall_app].
  - by destruct (Hexit c).
  - done.
Qed.

Lemma tame_for_each {X S} (body : X → S → M E S) xs s :
  (∀ x s', x ∈ xs → tame P (body x s')) → tame P (for_each body xs s).
Proof.
  revert s. induction xs as [|x xs IH]; intros s Hbody; [apply tame_ret|].
  simpl for_each. apply tame_bind; [apply Hbody; left|].
  intros s' _ _. apply IH. intros. apply Hbody. by right.
Qed.

Lemma tame_for_range {S} lo hi (body : Z → S → M E S) s :
  (∀ i s', lo ≤ i < hi → tame P (body i s')) → tame P (for_range lo hi body s).
Proof.
  intros Hbody. apply tame_for_each. intros i s' Hi%elem_of_seqZ. apply Hbody. lia.
Qed.
End tame_facts.

Lemma tame_statements {A} (P : netlist → Prop) (Q : verilog → Prop) (m : M verilog A) :
  tame Q m → (∀ stmt, Q stmt → P (statement stmt)) → tame P (statements m).
Proof.
  intros [Hexit Hall] HQP. split; [done|]. unfold statements. cbn [snd].
  apply Forall_fmap. eapply Forall_impl; [exact Hall | done].
Qed.

Lemma tame_find_linked_circuit_port (P : verilog → Prop) lib name global_ports :
  tame P (find_linked_circuit_port lib name global_ports).
Proof.
  destruct (find_linked_circuit_port_silent lib global_ports name) as (r & -> & Hexit).
  split; [done | constructor].
Qed.

(** One step of a proof that a computation is tame. *)
Ltac tame_step :=
  first
    [ apply tame_ret | apply tame_fault | apply tame_lift | apply tame_VTR_ASSERT
    | apply tame_find_linked_circuit_port
    | apply tame_bind; [|intros ? ? ?]
    | apply tame_for_each; intros ? ? ?
    | apply tame_for_range; intros ? ? ?
    | lazymatch goal with
      | |- tame _ (let _ := _ in _) => cbv zeta
      | |- tame _ (if ?b then _ else _) => destruct b
      | |- tame _ (match ?x with _ => _ end) => destruct x
      end ].

Lemma bp_name_set_width p lsb msb : bp_name (set_width p lsb msb) = bp_name p.
Proof. unfold set_width. by case_bool_decide. Qed.

Lemma bp_name_BasicPort_range name lsb msb : bp_name (BasicPort_range name lsb msb) = name.
Proof. unfold BasicPort_range. by rewrite bp_name_set_width. Qed.

Lemma module_ports_by_type_role {E} mm top md t :
  modules mm !! top = Some md →
  module_ports_by_type (E:=E) mm top t = ret (ports_of_role md t).
Proof.
  intros Hmd. unfold module_ports_by_type, ports_of_role. rewrite Hmd, lift_Some, bind_ret_l.
  f_equal. induction (md_ports md) as [|tp l IH]; [done|].
  rewrite bind_cons, filter_cons, IH. case_bool_decide; case_decide; done.
Qed.

(** ** The internal wires *)

Section internal_wires.
Context (generate_verilog_port : e_dump_verilog_port_type → BasicPort → string).
Context (postfix : string) (init : Z) (place : t_logical_block → Z).
Context (lib : CircuitLibrary) (global_ports : list (Z * Z)) (clocks : list string).
Context (mm : ModuleManager) (top : nat) (md : Module).

Lemma declare_wires (wires : list BasicPort) :
  for_each (λ p (_ : unit),
    emit (text (generate_verilog_port VERILOG_PORT_WIRE p));;
    emit (text ";");;
    emit (statement endl)) wires ()
  = (Returned (),
     wires ≫= (λ p, [text (generate_verilog_port VERILOG_PORT_WIRE p);
                     text ";"; statement endl])).
Proof. apply for_each_prints. intros p _. reflexivity. Qed.

Lemma internal_wires_run :
  modules mm !! top = Some md →
  print_verilog_preconfig_top_module_internal_wires generate_verilog_port mm top
  = (Returned (),
     wire_group generate_verilog_port "----- Global ports of FPGA fabric -----"
       (ports_of_role md MODULE_GLOBAL_PORT)
     ++ wire_group generate_verilog_port "----- I/Os of FPGA fabric -----"
          (ports_of_role md MODULE_GPIO_PORT)
     ++ wire_group generate_verilog_port
          "----- Configuration protocols of FPGA fabric -----"
          (ports_of_role md MODULE_INPUT_PORT)).
Proof.
  intros Hmd. unfold print_verilog_preconfig_top_module_internal_wires.
  rewrite !(module_ports_by_type_role _ _ _ _ Hmd), !bind_ret_l, !declare_wires.
  unfold emit, ret, wire_group. run_binds. simpl.
  by rewrite <-!(assoc_L (++)).
Qed.

(** Every statement of the global-port binder drives a global port of the
    top module, or a pin of one. *)
Lemma global_binder_drives_global_ports :
  modules mm !! top = Some md →
  tame (λ stmt, ∀ w, driven_wire stmt = Some w →
          get_name w ∈ get_name <$> ports_of_role md MODULE_GLOBAL_PORT)
    (print_verilog_preconfig_top_module_connect_global_ports
       postfix mm top lib global_ports clocks).
Proof.
  intros Hmd. unfold print_verilog_preconfig_top_module_connect_global_ports.
  rewrite (module_ports_by_type_role _ _ _ _ Hmd), bind_ret_l.
  repeat tame_step; try (apply tame_emit; intros w; by intros [=]).
  all: apply tame_emit; intros w [= <-]; apply list_elem_of_fmap.
  all: eexists; (split; [|eassumption]).
  - unfold get_name. by rewrite bp_name_BasicPort_range.
  - done.
Qed.

(** Every statement of the I/O binder drives a bit of a datapath-I/O port of
    the top module. *)
Lemma io_binder_drives_gpio_ports lbs :
  modules mm !! top = Some md →
  tame (λ stmt, ∀ w, driven_wire stmt = Some w →
          get_name w ∈ get_name <$> ports_of_role md MODULE_GPIO_PORT)
    (print_verilog_preconfig_top_module_connect_ios postfix init place mm top lbs).
Proof.
  intros Hmd. unfold print_verilog_preconfig_top_module_connect_ios.
  rewrite (module_ports_by_type_role _ _ _ _ Hmd), bind_ret_l.
  destruct (ports_of_role md MODULE_GPIO_PORT) as [|port ports] eqn:Hports;
    [repeat tame_step|].
  apply tame_bind; [tame_step|]. intros _ _ _. simpl lookup. rewrite lift_Some, bind_ret_l.
  assert (∀ i w, Some (set_width port i i) = Some w →
            get_name w ∈ get_name <$> port :: ports) as Hbit.
  { intros i w [= <-]. unfold get_name. rewrite bp_name_set_width, fmap_cons. left. }
  repeat tame_step; apply tame_emit; intros w; try (by intros [=]); apply Hbit.
Qed.

(** X20.  With the top module in the hierarchy, the internal wires are
    declared in three groups, in this order: the global ports, the
    datapath-I/O ports and the plain input ports of the top module, each
    group under its banner, one wire declaration per port in port order, and
    closed by an empty line; ports in other roles are not declared.  Every
    statement printed later by the global-port binder or the I/O binder,
    whether it completes or stops at an assertion, drives a wire declared
    here: one named after a global port, respectively after a datapath-I/O
    port. *)
Theorem internal_wires_cover_driven_wires lbs :
  modules mm !! top = Some md →
  print_verilog_preconfig_top_module_internal_wires generate_verilog_port mm top
  = (Returned (),
     wire_group generate_verilog_port "----- Global ports of FPGA fabric -----"
       (ports_of_role md MODULE_GLOBAL_PORT)
     ++ wire_group generate_verilog_port "----- I/Os of FPGA fabric -----"
          (ports_of_role md MODULE_GPIO_PORT)
     ++ wire_group generate_verilog_port
          "----- Configuration protocols of FPGA fabric -----"
          (ports_of_role md MODULE_INPUT_PORT)) ∧
  (∀ stmt w,
     stmt ∈ (print_verilog_preconfig_top_module_connect_global_ports
               postfix mm top lib global_ports clocks).2 →
     driven_wire stmt = Some w →
     get_name w ∈ get_name <$> ports_of_role md MODULE_GLOBAL_PORT) ∧
  (∀ stmt w,
     stmt ∈ (print_verilog_preconfig_top_module_connect_ios
               postfix init place mm top lbs).2 →
     driven_wire stmt = Some w →
     get_name w ∈ get_name <$> ports_of_role md MODULE_GPIO_PORT).
Proof.
  intros Hmd. split_and!.
  - by apply internal_wires_run.
  - intros stmt w Hin. destruct (global_binder_drives_global_ports Hmd) as [_ Hall].
    rewrite Forall_forall in Hall. by apply Hall.
  - intros stmt w Hin. destruct (io_binder_drives_gpio_ports lbs Hmd) as [_ Hall].
    rewrite Forall_forall in Hall. by apply Hall.
Qed.

End internal_wires.

(** ** Declared ports and wired signals *)

Section declared_and_wired.
Context (postfix port_postfix : string).
Context (generate_verilog_port : e_dump_verilog_port_type → BasicPort → string).
Context (value_initialized_port_type : e_dump_verilog_port_type).
Context (init : Z) (place : t_logical_block → Z).
Context (mm : ModuleManager) (top : nat) (port : BasicPort).

Lemma connection_sources_output (ios : list t_logical_block) :
  omap connection_source (connect_ios_output port_postfix init place port ios)
  = (module_port_declaration port_postfix <$> ios).*2.
Proof.
  unfold connect_ios_output. rewrite !omap_app. simpl.
  assert (omap connection_source (tie_off init port <$> unused_pads place port ios) = [])
    as -> by (by induction (unused_pads place port ios)).
  rewrite !(right_id_L [] (++)).
  induction ios as [|lb ios IH]; [done|].
  rewrite bind_cons, omap_app, IH. by rewrite !fmap_cons.
Qed.

(** X21.  The module declaration and the I/O binder agree.  With exactly
    one datapath-I/O port on the top module and every I/O block placed on a
    pad of it, the benchmark-side signals of the connections printed by the
    I/O binder are exactly the ports of the module declaration, in the same
    order: one 1-bit port per INPAD or OUTPAD block, declared as an input for
    an INPAD and as an output for an OUTPAD. *)
Theorem io_binder_wires_the_declared_ports circuit_name lbs :
  module_ports_by_type (E:=verilog) mm top MODULE_GPIO_PORT = ret [port] →
  let ios := filter is_io_block lbs in
  Forall (λ lb, 0 ≤ place lb < get_width port) ios →
  size ios < SIZE_MOD →
  ∃ declarations : list (e_dump_verilog_port_type * BasicPort),
    print_verilog_preconfig_top_module_ports postfix port_postfix generate_verilog_port
      value_initialized_port_type circuit_name lbs
    = (Returned (),
       [text "module "; text circuit_name; text postfix; text " ("; statement endl]
       ++ comma_separated ((λ d, text (generate_verilog_port d.1 d.2)) <$> declarations)
       ++ [text ");"; statement endl; statement endl]) ∧
    omap connection_source
      (print_verilog_preconfig_top_module_connect_ios
         port_postfix init place mm top lbs).2
    = declarations.*2 ∧
    Forall2 (λ lb d,
        d.2 = {| bp_name := lb_name lb +:+ port_postfix; bp_lsb := 0; bp_msb := 0 |} ∧
        (lb_type lb = VPACK_INPAD → d.1 = VERILOG_PORT_INPUT) ∧
        (lb_type lb = VPACK_OUTPAD → d.1 = VERILOG_PORT_OUTPUT))
      ios declarations.
Proof.
  intros Hport ios Hall Hfit. exists (module_port_declaration port_postfix <$> ios).
  split_and!.
  - rewrite module_declaration_run by done. fold ios. by rewrite <-list_fmap_compose.
  - rewrite (connect_ios_run port_postfix init place mm top port lbs Hport Hall).
    apply connection_sources_output.
  - apply Forall2_fmap_r, Forall_Forall2_diag, Forall_forall. intros lb _.
    unfold module_port_declaration. simpl. split_and!; [done | |].
    + intros ->. done.
    + intros ->. done.
Qed.

End declared_and_wired.

(** ** The top-level function *)

Lemma closes_on_return_bind {E A} (P : E → Prop) closing (m : M E A) (f : A → M E unit) :
  tame P m → (∀ a, closes_on_return P closing (f a)) →
  closes_on_return P closing (bind m f).
Proof.
  intros [Hexit Hall] Hf. destruct m as [[a|c|] l]; simpl in *.
  - destruct (Hf a) as [Hret Hstop]. destruct (f a) as [r l']. simpl in *. split.
    + intros Hr. destruct (Hret Hr) as (body & -> & Hbody).
      exists (l ++ body). split; [by rewrite (assoc_L (++)) | by apply Forall_app].
    + intros Hr. destruct (Hstop Hr) as [-> Hl']. split; [done | by apply Forall_app].
  - by destruct (Hexit c).
  - split; [done | by intros _].
Qed.

Lemma closes_on_return_closing {E} (P : E → Prop) (e1 e2 e3 : E) :
  closes_on_return P [e1; e2; e3] (emit e1;; emit e2;; emit e3).
Proof. split; [intros _; by exists [] | done]. Qed.

Lemma find_module_Some mm name top :
  find_module mm name = Some top →
  ∃ md, modules mm !! top = Some md ∧ md_name md = name ∧
        valid_module_id mm (Some top) = true.
Proof.
  unfold find_module. intros Hfind.
  destruct (list_find (λ m, md_name m = name) (modules mm)) as [[i md]|] eqn:Hlf; [|done].
  simpl in Hfind. injection Hfind as ->.
  apply list_find_Some in Hlf as (Hmd & Hname & _).
  exists md. split_and!; [done..|]. simpl. apply bool_decide_eq_true.
  by apply lookup_lt_Some in Hmd.
Qed.

Section top_level.
Context (formal_verification_top_module_postfix : string).
Context (formal_verification_top_module_port_postfix : string).
Context (formal_verification_top_module_uut_name : string).
Context (generate_configuration_chain_data_out_name : string).
Context (verilog_default_signal_init_value : Z).
Context (defines_verilog_simulation_file_name : string).
Context (generate_fpga_top_module_name : string).
Context (find_benchmark_io_index : t_logical_block → Z).
Context (find_benchmark_clock_port_name : list t_logical_block → list string).
Context (generate_verilog_port : e_dump_verilog_port_type → BasicPort → string).
Context (value_initialized_port_type : e_dump_verilog_port_type).
Context (t_start t_end : Z).
Context (mm : ModuleManager) (bm : BitstreamManager) (fabric_bitstream : list nat).
Context (lib : CircuitLibrary) (global_ports : list (Z * Z)).
Context (L_logical_blocks : list t_logical_block).
Context (circuit_name verilog_fname verilog_dir : string).

Lemma tame_module_declaration :
  tame (λ item, closes_module item = false)
    (print_verilog_preconfig_top_module_ports formal_verification_top_module_postfix
       formal_verification_top_module_port_postfix generate_verilog_port
       value_initialized_port_type circuit_name L_logical_blocks).
Proof.
  unfold print_verilog_preconfig_top_module_ports.
  repeat tame_step; by apply tame_emit.
Qed.

Lemma tame_internal_wires top :
  tame (λ item, closes_module item = false)
    (print_verilog_preconfig_top_module_internal_wires generate_verilog_port mm top).
Proof.
  unfold print_verilog_preconfig_top_module_internal_wires, module_ports_by_type.
  repeat tame_step; by apply tame_emit.
Qed.

Lemma tame_top_instance top :
  tame (λ item, closes_module item = false)
    (print_verilog_preconfig_top_instance formal_verification_top_module_uut_name mm top).
Proof.
  unfold print_verilog_preconfig_top_instance. repeat tame_step; by apply tame_emit.
Qed.

Lemma tame_connect_global_ports top clocks :
  tame (λ _, True)
    (print_verilog_preconfig_top_module_connect_global_ports
       formal_verification_top_module_port_postfix mm top lib global_ports clocks).
Proof.
  unfold print_verilog_preconfig_top_module_connect_global_ports, module_ports_by_type.
  repeat tame_step; by apply tame_emit.
Qed.

Lemma tame_connect_ios top :
  tame (λ _, True)
    (print_verilog_preconfig_top_module_connect_ios
       formal_verification_top_module_port_postfix verilog_default_signal_init_value
       find_benchmark_io_index mm top L_logical_blocks).
Proof.
  unfold print_verilog_preconfig_top_module_connect_ios, module_ports_by_type.
  repeat tame_step; by apply tame_emit.
Qed.

Lemma tame_load_bitstream top :
  tame (λ _, True)
    (print_verilog_preconfig_top_module_load_bitstream
       formal_verification_top_module_uut_name generate_configuration_chain_data_out_name
       mm top bm fabric_bitstream).
Proof.
  unfold print_verilog_preconfig_top_module_load_bitstream, load_config_bit,
    bit_hierarchy_path, find_bitstream_manager_block_hierarchy.
  repeat tame_step; by apply tame_emit.
Qed.

(** X22.  The layout of the file when every part of the writer returns.
    With the top module found by name and the three binders returning, the
    writer returns and has produced, in this order: the log line, the opened
    file, the title comment and the two include directives; the module
    declaration; the three groups of wire declarations; the instance of the
    top module under the fixed instance name with explicit port mapping; the
    statements of the global-port binder, of the I/O binder and of the
    bitstream loader; the end of the module, named as in its declaration;
    the closed file and the log line with the elapsed time. *)
Theorem preconfig_top_module_file_layout top md globals ios loads :
  find_module mm generate_fpga_top_module_name = Some top →
  modules mm !! top = Some md →
  size (filter is_io_block L_logical_blocks) < SIZE_MOD →
  print_verilog_preconfig_top_module_connect_global_ports
    formal_verification_top_module_port_postfix mm top lib global_ports
    (find_benchmark_clock_port_name L_logical_blocks) = (Returned (), globals) →
  print_verilog_preconfig_top_module_connect_ios
    formal_verification_top_module_port_postfix verilog_default_signal_init_value
    find_benchmark_io_index mm top L_logical_blocks = (Returned (), ios) →
  print_verilog_preconfig_top_module_load_bitstream
    formal_verification_top_module_uut_name generate_configuration_chain_data_out_name
    mm top bm fabric_bitstream = (Returned (), loads) →
  print_verilog_preconfig_top_module
    formal_verification_top_module_postfix formal_verification_top_module_port_postfix
    formal_verification_top_module_uut_name generate_configuration_chain_data_out_name
    verilog_default_signal_init_value defines_verilog_simulation_file_name
    generate_fpga_top_module_name find_benchmark_io_index find_benchmark_clock_port_name
    generate_verilog_port value_initialized_port_type t_start t_end
    mm bm fabric_bitstream lib global_ports L_logical_blocks
    circuit_name verilog_fname verilog_dir
  = (Returned (),
     [INFO_writing circuit_name; fp_open verilog_fname;
      print_verilog_file_header
        ("Verilog netlist for pre-configured FPGA fabric by design: " +:+ circuit_name);
      print_verilog_include_defines_preproc_file verilog_dir;
      print_verilog_include_netlist (verilog_dir +:+ defines_verilog_simulation_file_name)]
     ++ ([text "module "; text circuit_name; text formal_verification_top_module_postfix;
          text " ("; statement endl]
         ++ comma_separated
              ((λ lb, text (generate_verilog_port
                              (module_port_declaration
                                 formal_verification_top_module_port_postfix lb).1
                              (module_port_declaration
                                 formal_verification_top_module_port_postfix lb).2))
                 <$> filter is_io_block L_logical_blocks)
         ++ [text ");"; statement endl; statement endl])
     ++ (wire_group generate_verilog_port "----- Global ports of FPGA fabric -----"
           (ports_of_role md MODULE_GLOBAL_PORT)
         ++ wire_group generate_verilog_port "----- I/Os of FPGA fabric -----"
              (ports_of_role md MODULE_GPIO_PORT)
         ++ wire_group generate_verilog_port
              "----- Configuration protocols of FPGA fabric -----"
              (ports_of_role md MODULE_INPUT_PORT))
     ++ [statement (print_verilog_comment
                      "----- FPGA top-level module to be capsulated -----");
         print_verilog_module_instance top formal_verification_top_module_uut_name [] true;
         statement endl]
     ++ (statement <$> globals) ++ (statement <$> ios) ++ (statement <$> loads)
     ++ [print_verilog_module_end
           (circuit_name +:+ formal_verification_top_module_postfix);
         fp_close; INFO_took (t_end - t_start)]).
Proof.
  intros Hfind Hmd Hfit Hglobals Hios Hloads.
  destruct (find_module_Some _ _ _ Hfind) as (md' & _ & _ & Hvalid).
  unfold print_verilog_preconfig_top_module. cbv zeta.
  rewrite (module_declaration_run _ _ _ _ _ _ Hfit), Hfind, Hvalid.
  simpl bool_decide. rewrite VTR_ASSERT_true, lift_Some, !bind_ret_l.
  rewrite (internal_wires_run _ _ _ _ Hmd).
  unfold statements. rewrite Hglobals, Hios, Hloads.
  unfold print_verilog_preconfig_top_instance, emit, ret. run_binds.
  cbn [fst snd]. simpl app. rewrite <-!(assoc_L (++)). reflexivity.
Qed.

(** X23.  The top module must exist.  When the module hierarchy holds no
    module with the name of the FPGA top module, the assertion that follows
    the lookup fails: the writer stops with the file holding the title, the
    includes and the module declaration, and nothing after it. *)
Theorem writer_stops_without_top_module :
  find_module mm generate_fpga_top_module_name = None →
  size (filter is_io_block L_logical_blocks) < SIZE_MOD →
  print_verilog_preconfig_top_module
    formal_verification_top_module_postfix formal_verification_top_module_port_postfix
    formal_verification_top_module_uut_name generate_configuration_chain_data_out_name
    verilog_default_signal_init_value defines_verilog_simulation_file_name
    generate_fpga_top_module_name find_benchmark_io_index find_benchmark_clock_port_name
    generate_verilog_port value_initialized_port_type t_start t_end
    mm bm fabric_bitstream lib global_ports L_logical_blocks
    circuit_name verilog_fname verilog_dir
  = (Faulted,
     [INFO_writing circuit_name; fp_open verilog_fname;
      print_verilog_file_header
        ("Verilog netlist for pre-configured FPGA fabric by design: " +:+ circuit_name);
      print_verilog_include_defines_preproc_file verilog_dir;
      print_verilog_include_netlist (verilog_dir +:+ defines_verilog_simulation_file_name)]
     ++ (print_verilog_preconfig_top_module_ports formal_verification_top_module_postfix
           formal_verification_top_module_port_postfix generate_verilog_port
           value_initialized_port_type circuit_name L_logical_blocks).2) ∧
  (print_verilog_preconfig_top_module_ports formal_verification_top_module_postfix
     formal_verification_top_module_port_postfix generate_verilog_port
     value_initialized_port_type circuit_name L_logical_blocks).1 = Returned ().
Proof.
  intros Hfind Hfit. unfold print_verilog_preconfig_top_module. cbv zeta.
  rewrite (module_declaration_run _ _ _ _ _ _ Hfit), Hfind.
  split; [|done]. unfold emit. run_binds. simpl. by rewrite !(right_id_L [] (++)).
Qed.

(** X24.  The module is closed exactly when the writer returns.  For every
    input, if the writer returns, its output ends with the end of the module
    (named by the circuit name and the module postfix), the closing of the
    file and the log line, and holds no other module end or file closing;
    if it does not return, that is because an assertion failed (the file
    stream being open and good, nothing calls [exit]), and the output holds
    no module end and the file is not closed. *)
Theorem module_closed_iff_writer_returns :
  let r :=
    print_verilog_preconfig_top_module
      formal_verification_top_module_postfix formal_verification_top_module_port_postfix
      formal_verification_top_module_uut_name generate_configuration_chain_data_out_name
      verilog_default_signal_init_value defines_verilog_simulation_file_name
      generate_fpga_top_module_name find_benchmark_io_index find_benchmark_clock_port_name
      generate_verilog_port value_initialized_port_type t_start t_end
      mm bm fabric_bitstream lib global_ports L_logical_blocks
      circuit_name verilog_fname verilog_dir in
  let closing :=
    [print_verilog_module_end (circuit_name +:+ formal_verification_top_module_postfix);
     fp_close; INFO_took (t_end - t_start)] in
  (r.1 = Returned () →
     ∃ body, r.2 = body ++ closing ∧ Forall (λ item, closes_module item = false) body) ∧
  (r.1 ≠ Returned () →
     r.1 = Faulted ∧ Forall (λ item, closes_module item = false) r.2).
Proof.
  intros r closing.
  change (closes_on_return (λ item, closes_module item = false) closing r).
  unfold r, closing, print_verilog_preconfig_top_module. cbv zeta.
  repeat first
    [ apply closes_on_return_closing
    | apply closes_on_return_bind; [|intros ?] ].
  all: first
    [ by apply tame_emit
    | apply tame_module_declaration
    | apply tame_VTR_ASSERT
    | apply tame_lift
    | apply tame_internal_wires
    | apply tame_top_instance
    | apply (tame_statements _ (λ _, True)); [|done] ].
  - apply tame_connect_global_ports.
  - apply tame_connect_ios.
  - apply tame_load_bitstream.
Qed.

End top_level.

(** ** The writer on the example fabric, continued *)

Lemma linked_port_is_first_match_witness :
  ∃ r, find_linked_circuit_port example_global_catalog "reset"
         example_global_ports = ret r ∧
       match r with
       | None =>
           Forall (λ id, cp_lib_name <$> find_port example_global_catalog id ≠ Some "reset")
             example_global_ports
       | Some id =>
           ∃ pre post,
             example_global_ports = pre ++ id :: post ∧
             cp_lib_name <$> find_port example_global_catalog id = Some "reset" ∧
             Forall (λ id', cp_lib_name <$> find_port example_global_catalog id'
                            ≠ Some "reset") pre
       end.
Proof.
  apply (linked_port_is_first_match example_global_catalog "reset" example_global_ports).
  repeat constructor; vm_compute; eauto.
Defined.

Lemma global_binder_returns_iff_ports_linked_witness :
  (print_verilog_preconfig_top_module_connect_global_ports
     "_fm" example_modules 0%nat example_global_catalog example_global_ports ["clk_a"]).1
    = Returned ()
  ↔ Forall (λ q, ∃ id cp,
        find_linked_circuit_port example_global_catalog (get_name q) example_global_ports
          = ret (Some id) ∧
        find_port example_global_catalog id = Some cp ∧ get_width q = cp_size cp)
      [BasicPort_width "clk" 1; BasicPort_width "reset" 4].
Proof.
  apply (global_binder_returns_iff_ports_linked "_fm" example_global_catalog
           example_global_ports ["clk_a"] example_modules 0%nat
           [BasicPort_width "clk" 1; BasicPort_width "reset" 4]).
  reflexivity.
Defined.

Lemma global_binder_stops_at_unlinked_port_witness :
  let trace :=
    print_verilog_comment "----- Begin Connect Global ports of FPGA top module -----"
      :: ([BasicPort_width "clk" 1] ≫= (λ p,
            (connect_global_port "_fm" example_global_catalog example_global_ports
               ["clk_a"] p).2)) in
  print_verilog_preconfig_top_module_connect_global_ports
    "_fm" example_modules_narrow_reset 0%nat example_global_catalog example_global_ports
    ["clk_a"] = (Faulted, trace) ∧
  Forall (λ p, (connect_global_port "_fm" example_global_catalog example_global_ports
                  ["clk_a"] p).1 = Returned ()) [BasicPort_width "clk" 1] ∧
  print_verilog_comment "----- End Connect Global ports of FPGA top module -----" ∉ trace.
Proof.
  apply (global_binder_stops_at_unlinked_port "_fm" example_global_catalog
           example_global_ports ["clk_a"] example_modules_narrow_reset 0%nat
           [BasicPort_width "clk" 1] (BasicPort_width "reset" 2) []).
  - reflexivity.
  - repeat constructor. exists (0, 0), example_clock_port. split_and!; reflexivity.
  - intros id cp Hid Hcp. vm_compute in Hid. injection Hid as <-.
    vm_compute in Hcp. injection Hcp as <-. vm_compute. discriminate.
Defined.

(** The clock is wired, the 2-bit reset finds a 4-bit circuit port: the
    block is left open. *)
Example narrow_reset_stops_the_binder :
  print_verilog_preconfig_top_module_connect_global_ports
    "_fm" example_modules_narrow_reset 0%nat example_global_catalog example_global_ports
    ["clk_a"]
  = (Faulted,
     [print_verilog_comment "----- Begin Connect Global ports of FPGA top module -----";
      print_verilog_wire_connection
        {| bp_name := "clk"; bp_lsb := 0; bp_msb := 0 |}
        {| bp_name := "clk_a_fm"; bp_lsb := 0; bp_msb := 0 |} false]).
Proof. reflexivity. Qed.

Lemma example_placement_nonneg lb : 0 ≤ example_placement lb.
Proof. unfold example_placement. case_bool_decide; lia. Qed.

Lemma io_binder_returns_iff_pads_in_range_witness :
  ((print_verilog_preconfig_top_module_connect_ios "_fm" 0 example_placement
      example_modules 0%nat example_logical_blocks).1 = Returned ()
   ↔ ∃ port, [BasicPort_width "gfpga_pad" 8] = [port] ∧
             Forall (λ lb, example_placement lb < get_width port)
               (filter is_io_block example_logical_blocks)) ∧
  (length [BasicPort_width "gfpga_pad" 8] ≠ 1%nat →
   print_verilog_preconfig_top_module_connect_ios "_fm" 0 example_placement
     example_modules 0%nat example_logical_blocks = (Faulted, [])).
Proof.
  apply (io_binder_returns_iff_pads_in_range "_fm" 0 example_placement example_modules
           0%nat [BasicPort_width "gfpga_pad" 8] example_logical_blocks).
  - reflexivity.
  - apply example_placement_nonneg.
Defined.

Lemma io_binder_stops_at_out_of_range_pad_witness :
  let port := BasicPort_width "gfpga_pad" 8 in
  let pre := [ {| lb_name := "a"; lb_type := VPACK_INPAD |};
               {| lb_name := "n1"; lb_type := VPACK_COMB |} ] in
  let trace :=
    print_verilog_comment "----- Link BLIF Benchmark I/Os to FPGA I/Os -----"
      :: (filter is_io_block pre ≫= (λ lb,
            [io_comment overflowing_placement port lb;
             io_connection "_fm" overflowing_placement port lb])) in
  print_verilog_preconfig_top_module_connect_ios "_fm" 0 overflowing_placement
    example_modules 0%nat (pre ++ {| lb_name := "out_b"; lb_type := VPACK_OUTPAD |} :: [])
    = (Faulted, trace) ∧
  filter is_wire_connection trace
    = io_connection "_fm" overflowing_placement port <$> filter is_io_block pre ∧
  filter is_constant_assignment trace = [].
Proof.
  apply (io_binder_stops_at_out_of_range_pad "_fm" 0 overflowing_placement example_modules
           0%nat (BasicPort_width "gfpga_pad" 8)
           [ {| lb_name := "a"; lb_type := VPACK_INPAD |};
             {| lb_name := "n1"; lb_type := VPACK_COMB |} ]
           {| lb_name := "out_b"; lb_type := VPACK_OUTPAD |} []).
  - reflexivity.
  - vm_compute. repeat constructor; discriminate.
  - vm_compute. exact I.
  - vm_compute. discriminate.
Defined.

Lemma bitstream_loader_stops_at_foreign_bit_witness :
  let trace :=
    print_verilog_comment "----- Begin load bitstream to configuration memories -----"
      :: ([0%nat] ≫= (λ b,
            (load_config_bit "U0_formal_verification" "ccff_tail" example_modules 0%nat
               two_rooted_bitstream b).2)) in
  print_verilog_preconfig_top_module_load_bitstream "U0_formal_verification" "ccff_tail"
    example_modules 0%nat two_rooted_bitstream ([0%nat] ++ 1%nat :: [0%nat])
    = (Faulted, trace) ∧
  length trace = S (length [0%nat]) ∧
  Forall (λ b, (load_config_bit "U0_formal_verification" "ccff_tail" example_modules 0%nat
                  two_rooted_bitstream b).1 = Returned ()) [0%nat] ∧
  print_verilog_comment "----- End load bitstream to configuration memories -----" ∉ trace.
Proof.
  apply (bitstream_loader_stops_at_foreign_bit "U0_formal_verification" "ccff_tail"
           example_modules 0%nat two_rooted_bitstream [0%nat] 1%nat [0%nat]
           {| cbit_parent := Some 2%nat; cbit_index := 1; cbit_value := true |}
           1%nat [2%nat] example_top {| cb_name := "testbench"; cb_parent := None |}).
  - repeat constructor. eexists. reflexivity.
  - reflexivity.
  - reflexivity.
  - reflexivity.
  - reflexivity.
  - simpl. discriminate.
Defined.

Lemma module_declaration_lists_io_blocks_witness :
  let declare := λ lb,
    text (example_generate_verilog_port
            (if bool_decide (lb_type lb = VPACK_INPAD)
             then VERILOG_PORT_INPUT else VERILOG_PORT_OUTPUT)
            {| bp_name := lb_name lb +:+ "_fm"; bp_lsb := 0; bp_msb := 0 |}) in
  print_verilog_preconfig_top_module_ports "_top_formal_verification" "_fm"
    example_generate_verilog_port VERILOG_PORT_INPUT "and2" example_logical_blocks
  = (Returned (),
     [text "module "; text "and2"; text "_top_formal_verification"; text " (";
      statement endl]
     ++ comma_separated (declare <$> filter is_io_block example_logical_blocks)
     ++ [text ");"; statement endl; statement endl]) ∧
  length (comma_separated (declare <$> filter is_io_block example_logical_blocks))
  = (3 * length (filter is_io_block example_logical_blocks) - 2)%nat.
Proof.
  apply (module_declaration_lists_io_blocks "_top_formal_verification" "_fm"
           example_generate_verilog_port VERILOG_PORT_INPUT "and2" example_logical_blocks).
  vm_compute. reflexivity.
Defined.

(** The declaration of the example benchmark. *)
Example module_declaration_of_example :
  (print_verilog_preconfig_top_module_ports "_top_formal_verification" "_fm"
     example_generate_verilog_port VERILOG_PORT_WIRE "and2" example_logical_blocks).2
  = [text "module "; text "and2"; text "_top_formal_verification"; text " (";
     statement endl;
     text "input a_fm"; text ","; statement endl; text "output out_b_fm";
     text ");"; statement endl; statement endl].
Proof. reflexivity. Qed.

Lemma internal_wires_cover_driven_wires_witness :
  print_verilog_preconfig_top_module_internal_wires example_generate_verilog_port
    example_modules 0%nat
  = (Returned (),
     wire_group example_generate_verilog_port "----- Global ports of FPGA fabric -----"
       (ports_of_role example_top MODULE_GLOBAL_PORT)
     ++ wire_group example_generate_verilog_port "----- I/Os of FPGA fabric -----"
          (ports_of_role example_top MODULE_GPIO_PORT)
     ++ wire_group example_generate_verilog_port
          "----- Configuration protocols of FPGA fabric -----"
          (ports_of_role example_top MODULE_INPUT_PORT)) ∧
  (∀ stmt w,
     stmt ∈ (print_verilog_preconfig_top_module_connect_global_ports
               "_fm" example_modules 0%nat example_global_catalog example_global_ports
               ["clk"]).2 →
     driven_wire stmt = Some w →
     get_name w ∈ get_name <$> ports_of_role example_top MODULE_GLOBAL_PORT) ∧
  (∀ stmt w,
     stmt ∈ (print_verilog_preconfig_top_module_connect_ios
               "_fm" 0 example_placement example_modules 0%nat example_logical_blocks).2 →
     driven_wire stmt = Some w →
     get_name w ∈ get_name <$> ports_of_role example_top MODULE_GPIO_PORT).
Proof.
  apply (internal_wires_cover_driven_wires example_generate_verilog_port "_fm" 0
           example_placement example_global_catalog example_global_ports ["clk"]
           example_modules 0%nat example_top example_logical_blocks).
  reflexivity.
Defined.

Lemma io_binder_wires_the_declared_ports_witness :
  ∃ declarations : list (e_dump_verilog_port_type * BasicPort),
    print_verilog_preconfig_top_module_ports "_top_formal_verification" "_fm"
      example_generate_verilog_port VERILOG_PORT_INPUT "and2" example_logical_blocks
    = (Returned (),
       [text "module "; text "and2"; text "_top_formal_verification"; text " (";
        statement endl]
       ++ comma_separated
            ((λ d, text (example_generate_verilog_port d.1 d.2)) <$> declarations)
       ++ [text ");"; statement endl; statement endl]) ∧
    omap connection_source
      (print_verilog_preconfig_top_module_connect_ios
         "_fm" 0 example_placement example_modules 0%nat example_logical_blocks).2
    = declarations.*2 ∧
    Forall2 (λ lb d,
        d.2 = {| bp_name := lb_name lb +:+ "_fm"; bp_lsb := 0; bp_msb := 0 |} ∧
        (lb_type lb = VPACK_INPAD → d.1 = VERILOG_PORT_INPUT) ∧
        (lb_type lb = VPACK_OUTPAD → d.1 = VERILOG_PORT_OUTPUT))
      (filter is_io_block example_logical_blocks) declarations.
Proof.
  apply (io_binder_wires_the_declared_ports "_top_formal_verification" "_fm"
           example_generate_verilog_port VERILOG_PORT_INPUT 0 example_placement
           example_modules 0%nat (BasicPort_width "gfpga_pad" 8) "and2"
           example_logical_blocks).
  - reflexivity.
  - vm_compute. repeat constructor; discriminate.
  - vm_compute. reflexivity.
Defined.

Lemma preconfig_top_module_file_layout_witness :
  ∃ trace,
    print_verilog_preconfig_top_module
      "_top_formal_verification" "_fm" "U0_formal_verification" "ccff_tail" 0
      "define_simulation.v" "fpga_top" example_placement example_clock_names
      example_generate_verilog_port VERILOG_PORT_INPUT 100 107
      example_modules example_bitstream [0%nat; 1%nat; 2%nat]
      example_global_catalog example_global_ports example_logical_blocks
      "and2" "and2_top_formal_verification.v" "./SRC/"
    = (Returned (), trace) ∧
    length trace = 62%nat.
Proof.
  eexists. split.
  - apply (preconfig_top_module_file_layout
             "_top_formal_verification" "_fm" "U0_formal_verification" "ccff_tail" 0
             "define_simulation.v" "fpga_top" example_placement example_clock_names
             example_generate_verilog_port VERILOG_PORT_INPUT 100 107
             example_modules example_bitstream [0%nat; 1%nat; 2%nat]
             example_global_catalog example_global_ports example_logical_blocks
             "and2" "and2_top_formal_verification.v" "./SRC/" 0%nat example_top).
    + reflexivity.
    + reflexivity.
    + vm_compute. reflexivity.
    + reflexivity.
    + reflexivity.
    + reflexivity.
  - reflexivity.
Defined.

Lemma writer_stops_without_top_module_witness :
  print_verilog_preconfig_top_module
    "_top_formal_verification" "_fm" "U0_formal_verification" "ccff_tail" 0
    "define_simulation.v" "fpga_core" example_placement example_clock_names
    example_generate_verilog_port VERILOG_PORT_INPUT 100 107
    example_modules example_bitstream [0%nat; 1%nat; 2%nat]
    example_global_catalog example_global_ports example_logical_blocks
    "and2" "and2_top_formal_verification.v" "./SRC/"
  = (Faulted,
     [INFO_writing "and2"; fp_open "and2_top_formal_verification.v";
      print_verilog_file_header
        ("Verilog netlist for pre-configured FPGA fabric by design: " +:+ "and2");
      print_verilog_include_defines_preproc_file "./SRC/";
      print_verilog_include_netlist ("./SRC/" +:+ "define_simulation.v")]
     ++ (print_verilog_preconfig_top_module_ports "_top_formal_verification" "_fm"
           example_generate_verilog_port VERILOG_PORT_INPUT "and2"
           example_logical_blocks).2) ∧
  (print_verilog_preconfig_top_module_ports "_top_formal_verification" "_fm"
     example_generate_verilog_port VERILOG_PORT_INPUT "and2" example_logical_blocks).1
  = Returned ().
Proof.
  apply (writer_stops_without_top_module
           "_top_formal_verification" "_fm" "U0_formal_verification" "ccff_tail" 0
           "define_simulation.v" "fpga_core" example_placement example_clock_names
           example_generate_verilog_port VERILOG_PORT_INPUT 100 107
           example_modules example_bitstream [0%nat; 1%nat; 2%nat]
           example_global_catalog example_global_ports example_logical_blocks
           "and2" "and2_top_formal_verification.v" "./SRC/").
  - reflexivity.
  - vm_compute. reflexivity.
Defined.
